(** * The automatic footprint placer of pcbnew (autorouter/ar_autoplacer.cpp)

    A shallow embedding of [AR_AUTOPLACER]: the rasterizer [fillMatrix], the
    candidate evaluator ([testRectangle], [calculateKeepOutArea],
    [testFootprintOnBoard]), the ratsnest cost estimator ([nearestPad],
    [computePlacementRatsnestCost]), the placement search
    ([getOptimalFPPlacement]) and the orchestrator ([AutoplaceFootprints]).

    Conventions of the embedding.
    - A C++ [int] is a [Z]; [/] and [%] are [Z.quot] and [Z.rem] (truncation
      toward zero).  Signed overflow is undefined behaviour in C++ and is not
      part of the model; the one conversion the code relies on, unsigned to
      [int] in [testFootprintOnBoard], is written out.
    - A C++ [double] is an IEEE binary64 number, a primitive [float]: sums,
      products, quotients and comparisons are the rounded ones of the
      machine, the conversion of an [int] is exact, and the conversion to
      [int] truncates ([int_of_double]).  [hypot] belongs to the C library,
      whose result can differ in the last place from one library to the
      other: it is taken to be the rounded square root of the rounded sum of
      the rounded squares ([hypot_double]), and the search is also given for
      whatever [computePlacementRatsnestCost] answers
      ([getOptimalFPPlacementWith]).  The ratsnest cost is given twice: as
      the machine computes it ([computePlacementRatsnestCost_double], which
      the search uses) and as the exact real number it approximates
      ([computePlacementRatsnestCost]).
    - A loop [for( i = a; i < b; i += s )] is a fold over the list of the
      values [i] takes ([for_range]).  The step is 1 or the pitch
      [m_GridRouting] of the matrix, which [AutoplaceFootprints] raises to
      [Millimeter2iu( 0.25 )] at least; with a step that is not positive the
      C++ loop would not end, and [for_range] stops after [b - a] rounds.
    - Objects mutated in place (the matrix, the footprints of the board, the
      placer's members) are threaded as explicit state. *)

From Stdlib Require Import Floats.
From Stdlib Require Import ZArith List Bool Lia Reals Lra Psatz Classical Sorted.
From Stdlib Require Uint63.
Import ListNotations.
Open Scope Z_scope.

(** ** Loops *)

(** The values of [i] for which the body of
    [for( i = start; i < limit; i += step )] runs, at most [fuel] of them. *)
Fixpoint for_lt (fuel : nat) (i limit step : Z) : list Z :=
  match fuel with
  | O => []
  | S fuel' =>
      if i <? limit then i :: for_lt fuel' (i + step) limit step else []
  end.

(** With a positive [step] the loop runs at most [limit - start] times
    ([for_lt_enough] below: more fuel gives the same values). *)
Definition for_range (start limit step : Z) : list Z :=
  for_lt (Z.to_nat (limit - start)) start limit step.

(** ** Points and rectangles *)

Record wxPoint := mkPoint { px : Z; py : Z }.

Definition pt_add (a b : wxPoint) : wxPoint := mkPoint (px a + px b) (py a + py b).
Definition pt_sub (a b : wxPoint) : wxPoint := mkPoint (px a - px b) (py a - py b).
Definition pt_neg (a : wxPoint) : wxPoint := mkPoint (- px a) (- py a).
Definition pt_eqb (a b : wxPoint) : bool := (px a =? px b) && (py a =? py b).

(** Modelled from the spec: [EDA_RECT] (a position and a size) is declared
    outside src/; the accessors below are the ones the placer calls.
    [Inflate] is the one of a rectangle of non-negative size grown by a
    non-negative margin ("inflate rect by half the grid pitch"), and
    [Contains] includes the border. *)
Record EDA_RECT := mkRect { m_Pos : wxPoint; m_Size : wxPoint }.

Definition GetX (r : EDA_RECT) : Z := px (m_Pos r).
Definition GetY (r : EDA_RECT) : Z := py (m_Pos r).
Definition GetWidth (r : EDA_RECT) : Z := px (m_Size r).
Definition GetHeight (r : EDA_RECT) : Z := py (m_Size r).
Definition GetRight (r : EDA_RECT) : Z := GetX r + GetWidth r.
Definition GetBottom (r : EDA_RECT) : Z := GetY r + GetHeight r.
Definition GetOrigin (r : EDA_RECT) : wxPoint := m_Pos r.
Definition GetEnd (r : EDA_RECT) : wxPoint := mkPoint (GetRight r) (GetBottom r).
Definition Move (r : EDA_RECT) (d : wxPoint) : EDA_RECT :=
  mkRect (pt_add (m_Pos r) d) (m_Size r).
Definition SetOrigin (r : EDA_RECT) (p : wxPoint) : EDA_RECT := mkRect p (m_Size r).
Definition Inflate (r : EDA_RECT) (d : Z) : EDA_RECT :=
  mkRect (mkPoint (GetX r - d) (GetY r - d))
         (mkPoint (GetWidth r + 2 * d) (GetHeight r + 2 * d)).
Definition Contains (r : EDA_RECT) (p : wxPoint) : bool :=
  let rx := px p - GetX r in
  let ry := py p - GetY r in
  (0 <=? rx) && (0 <=? ry) && (ry <=? GetHeight r) && (rx <=? GetWidth r).

(** ** The placement matrix *)

(** Bits characterizing a cell (lines 52-58). *)
Definition CELL_IS_EMPTY : Z := 0x00.
Definition CELL_IS_HOLE : Z := 0x01.
Definition CELL_IS_MODULE : Z := 0x02.
Definition CELL_IS_EDGE : Z := 0x20.
Definition CELL_IS_FRIEND : Z := 0x40.
Definition CELL_IS_ZONE : Z := 0x80.

Definition AR_GAIN : Z := 16.
Definition AR_KEEPOUT_MARGIN : Z := 500.
Definition AR_ABORT_PLACEMENT : Z := -1.

Inductive AR_SIDE := AR_SIDE_TOP | AR_SIDE_BOTTOM.

Definition side_eqb (a b : AR_SIDE) : bool :=
  match a, b with
  | AR_SIDE_TOP, AR_SIDE_TOP | AR_SIDE_BOTTOM, AR_SIDE_BOTTOM => true
  | _, _ => false
  end.

(** Modelled from the spec: the verdicts of the candidate evaluator
    ([enum AR_CELL_STATE], declared in ar_autoplacer.h, not under src/):
    [legal] is 0 and the two refusals are negative, which is what the test
    [keepOutCost >= 0] of [getOptimalFPPlacement] relies on. *)
Definition AR_OUT_OF_BOARD : Z := -2.
Definition AR_OCCUIPED_BY_MODULE : Z := -1.
Definition AR_FREE_CELL : Z := 0.

(** Modelled from the spec: [AR_MATRIX] (ar_matrix.h, not under src/), "a 2D
    array indexed by (row, column) x side", each cell holding a bitmask of
    flags ([m_BoardSide]) and a keep-out cost ([m_DistSide]), over the box
    [m_BrdBox] at pitch [m_GridRouting]. *)
Record AR_MATRIX := mkMatrix {
  m_BrdBox : EDA_RECT;
  m_GridRouting : Z;
  m_Nrows : Z;
  m_Ncols : Z;
  m_RoutingLayersCount : Z;
  m_BoardSide : AR_SIDE -> Z -> Z -> Z;
  m_DistSide : AR_SIDE -> Z -> Z -> Z
}.

Definition GetCell (m : AR_MATRIX) (row col : Z) (side : AR_SIDE) : Z :=
  m_BoardSide m side row col.

Definition GetDist (m : AR_MATRIX) (row col : Z) (side : AR_SIDE) : Z :=
  m_DistSide m side row col.

Definition SetCell (m : AR_MATRIX) (row col : Z) (side : AR_SIDE) (x : Z) : AR_MATRIX :=
  mkMatrix (m_BrdBox m) (m_GridRouting m) (m_Nrows m) (m_Ncols m)
    (m_RoutingLayersCount m)
    (fun s r c =>
       if side_eqb s side && (r =? row) && (c =? col) then x
       else m_BoardSide m s r c)
    (m_DistSide m).

Definition GetBrdCoordOrigin (m : AR_MATRIX) : wxPoint := GetOrigin (m_BrdBox m).

Definition set_GridRouting (m : AR_MATRIX) (g : Z) : AR_MATRIX :=
  mkMatrix (m_BrdBox m) g (m_Nrows m) (m_Ncols m) (m_RoutingLayersCount m)
    (m_BoardSide m) (m_DistSide m).

(** ** Candidate evaluator: [testRectangle] (lines 439-489) *)

(** The row and column range of a rectangle given by its two corners relative
    to the matrix origin (lines 451-472, repeated at lines 504-525):
    [(row_min, row_max, col_min, col_max)]. *)
Definition cellRange (m : AR_MATRIX) (start end_ : wxPoint) : Z * Z * Z * Z :=
  let g := m_GridRouting m in
  let row_min := py start ÷ g in
  let row_max := py end_ ÷ g in
  let col_min := px start ÷ g in
  let col_max := px end_ ÷ g in
  let row_min := if py start >? row_min * g then row_min + 1 else row_min in
  let col_min := if px start >? col_min * g then col_min + 1 else col_min in
  let row_min := if row_min <? 0 then 0 else row_min in
  let row_max := if row_max >=? m_Nrows m - 1 then m_Nrows m - 1 else row_max in
  let col_min := if col_min <? 0 then 0 else col_min in
  let col_max := if col_max >=? m_Ncols m - 1 then m_Ncols m - 1 else col_max in
  (row_min, row_max, col_min, col_max).

(** What one cell decides in the scan of [testRectangle] (lines 478-484):
    [None] lets the scan go on. *)
Definition cellVerdict (data : Z) : option Z :=
  if Z.land data CELL_IS_ZONE =? 0 then Some AR_OUT_OF_BOARD
  else if negb (Z.land data CELL_IS_MODULE =? 0) then Some AR_OCCUIPED_BY_MODULE
  else None.

(** The inner loop, over the columns of one row. *)
Fixpoint scanCols (m : AR_MATRIX) (side : AR_SIDE) (row : Z) (cols : list Z) : option Z :=
  match cols with
  | [] => None
  | col :: cols' =>
      match cellVerdict (GetCell m row col side) with
      | Some v => Some v
      | None => scanCols m side row cols'
      end
  end.

(** The outer loop, over the rows. *)
Fixpoint scanRows (m : AR_MATRIX) (side : AR_SIDE) (rows cols : list Z) : option Z :=
  match rows with
  | [] => None
  | row :: rows' =>
      match scanCols m side row cols with
      | Some v => Some v
      | None => scanRows m side rows' cols
      end
  end.

(** The rectangle [testRectangle] scans: [aRect] inflated by half the pitch,
    relative to the matrix origin. *)
Definition inflatedRange (m : AR_MATRIX) (aRect : EDA_RECT) : Z * Z * Z * Z :=
  let rect := Inflate aRect (m_GridRouting m ÷ 2) in
  let start := pt_sub (GetOrigin rect) (GetOrigin (m_BrdBox m)) in
  let end_ := pt_sub (GetEnd rect) (GetOrigin (m_BrdBox m)) in
  cellRange m start end_.

Definition testRectangle (m : AR_MATRIX) (aRect : EDA_RECT) (side : AR_SIDE) : Z :=
  let '(row_min, row_max, col_min, col_max) := inflatedRange m aRect in
  match scanRows m side (for_range row_min (row_max + 1) 1)
                        (for_range col_min (col_max + 1) 1) with
  | Some v => v
  | None => AR_FREE_CELL
  end.

(** The cells [testRectangle] covers, in scan order (rows outermost). *)
Definition coveredCells (m : AR_MATRIX) (aRect : EDA_RECT) : list (Z * Z) :=
  let '(row_min, row_max, col_min, col_max) := inflatedRange m aRect in
  flat_map (fun row => map (fun col => (row, col)) (for_range col_min (col_max + 1) 1))
           (for_range row_min (row_max + 1) 1).

Definition hasZone (data : Z) : bool := negb (Z.land data CELL_IS_ZONE =? 0).
Definition hasModule (data : Z) : bool := negb (Z.land data CELL_IS_MODULE =? 0).

(** The verdict as section 4.4 of the specification words it: [outOfBoard]
    if any covered cell lacks [insideBoardZone], else [occupiedByUnit] if any
    covered cell is occupied, else [legal]. *)
Definition testRectangle_spec (m : AR_MATRIX) (aRect : EDA_RECT) (side : AR_SIDE) : Z :=
  let data := map (fun rc => GetCell m (fst rc) (snd rc) side) (coveredCells m aRect) in
  if existsb (fun d => negb (hasZone d)) data then AR_OUT_OF_BOARD
  else if existsb hasModule data then AR_OCCUIPED_BY_MODULE
  else AR_FREE_CELL.

(** ** Candidate evaluator: [calculateKeepOutArea] and [testFootprintOnBoard] *)

(** [unsigned int] arithmetic wraps modulo 2^32; converting the result to
    [int] reads the same 32 bits as a signed number. *)
Definition uint32 (z : Z) : Z := z mod 2 ^ 32.
Definition int_of_uint32 (z : Z) : Z := if z <? 2 ^ 31 then z else z - 2 ^ 32.

(** Lines 496-542: the sum of the cost of the cells of [aRect] (not inflated
    here), accumulated in an [unsigned int]. *)
Definition calculateKeepOutArea (m : AR_MATRIX) (aRect : EDA_RECT) (side : AR_SIDE) : Z :=
  let start := pt_sub (GetOrigin aRect) (GetOrigin (m_BrdBox m)) in
  let end_ := pt_sub (GetEnd aRect) (GetOrigin (m_BrdBox m)) in
  let '(row_min, row_max, col_min, col_max) := cellRange m start end_ in
  fold_left
    (fun keepOutCost row =>
       fold_left (fun keepOutCost col => uint32 (keepOutCost + GetDist m row col side))
                 (for_range col_min (col_max + 1) 1) keepOutCost)
    (for_range row_min (row_max + 1) 1) 0.

(** ** Footprints and pads *)

Inductive PCB_LAYER_ID := F_Cu | B_Cu | Edge_Cuts | Other_Layer.

Definition layer_eqb (a b : PCB_LAYER_ID) : bool :=
  match a, b with
  | F_Cu, F_Cu | B_Cu, B_Cu | Edge_Cuts, Edge_Cuts | Other_Layer, Other_Layer => true
  | _, _ => false
  end.

(** A pad, as the placer reads it: its position on the board, its net code,
    the copper layers of its layer set, and its own clearance. *)
Record PAD := mkPad {
  pad_Pos : wxPoint;
  pad_NetCode : Z;
  pad_OnLayer : PCB_LAYER_ID -> bool;
  pad_OwnClearance : Z
}.

(** What a footprint looks like on the board once it has a position and an
    orientation: [geo_Rect] is [GetFootprintRect()], [geo_BBox] is
    [GetBoundingBox()], [geo_Pads] is [Pads()]. *)
Record FP_GEOMETRY := mkGeometry {
  geo_Rect : EDA_RECT;
  geo_BBox : EDA_RECT;
  geo_Pads : list PAD
}.

(** Modelled from the spec: a placeable unit ([MODULE], footprint.h, not
    under src/): "position (2D point), orientation (angle, degrees x10 fixed
    point), a set of terminals, a layer/side assignment, an allowed-rotation
    cost class for 90/180 degree rotation, and mutable flags needsPlaced /
    isPlaced".  The graphics and pads of the footprint are its [fp_Shape]:
    where they lie for a given position and orientation.  [fp_Flag] is the
    scratch counter of [pickFootprint]. *)
Record MODULE := mkModule {
  fp_Pos : wxPoint;
  fp_Orient : Z;
  fp_Layer : PCB_LAYER_ID;
  fp_CntRot90 : Z;
  fp_CntRot180 : Z;
  fp_NeedsPlaced : bool;
  fp_IsPlaced : bool;
  fp_Flag : Z;
  fp_Shape : wxPoint -> Z -> FP_GEOMETRY
}.

Definition geometry (fp : MODULE) : FP_GEOMETRY := fp_Shape fp (fp_Pos fp) (fp_Orient fp).
Definition GetFootprintRect (fp : MODULE) : EDA_RECT := geo_Rect (geometry fp).
Definition GetBoundingBox (fp : MODULE) : EDA_RECT := geo_BBox (geometry fp).
Definition Pads (fp : MODULE) : list PAD := geo_Pads (geometry fp).
Definition GetPadCount (fp : MODULE) : Z := Z.of_nat (length (Pads fp)).
Definition GetArea (fp : MODULE) : Z :=
  Z.abs (GetWidth (GetBoundingBox fp) * GetHeight (GetBoundingBox fp)).
Definition GetPlacementCost90 (fp : MODULE) : Z := fp_CntRot90 fp.
Definition GetPlacementCost180 (fp : MODULE) : Z := fp_CntRot180 fp.

Definition SetPosition (fp : MODULE) (p : wxPoint) : MODULE :=
  mkModule p (fp_Orient fp) (fp_Layer fp) (fp_CntRot90 fp) (fp_CntRot180 fp)
    (fp_NeedsPlaced fp) (fp_IsPlaced fp) (fp_Flag fp) (fp_Shape fp).
Definition SetOrientation (fp : MODULE) (a : Z) : MODULE :=
  mkModule (fp_Pos fp) a (fp_Layer fp) (fp_CntRot90 fp) (fp_CntRot180 fp)
    (fp_NeedsPlaced fp) (fp_IsPlaced fp) (fp_Flag fp) (fp_Shape fp).
Definition SetNeedsPlaced (fp : MODULE) (b : bool) : MODULE :=
  mkModule (fp_Pos fp) (fp_Orient fp) (fp_Layer fp) (fp_CntRot90 fp) (fp_CntRot180 fp)
    b (fp_IsPlaced fp) (fp_Flag fp) (fp_Shape fp).
Definition SetIsPlaced (fp : MODULE) (b : bool) : MODULE :=
  mkModule (fp_Pos fp) (fp_Orient fp) (fp_Layer fp) (fp_CntRot90 fp) (fp_CntRot180 fp)
    (fp_NeedsPlaced fp) b (fp_Flag fp) (fp_Shape fp).
Definition SetFlag (fp : MODULE) (f : Z) : MODULE :=
  mkModule (fp_Pos fp) (fp_Orient fp) (fp_Layer fp) (fp_CntRot90 fp) (fp_CntRot180 fp)
    (fp_NeedsPlaced fp) (fp_IsPlaced fp) f (fp_Shape fp).

(** Lines 549-584.  The free-area polygons [buildFpAreas] redraws are a
    diagnostic overlay that no verdict reads; they are not modelled. *)
Definition testFootprintOnBoard (m : AR_MATRIX) (aFootprint : MODULE)
    (TstOtherSide : bool) (aOffset : wxPoint) : Z :=
  let side := if layer_eqb (fp_Layer aFootprint) B_Cu then AR_SIDE_BOTTOM else AR_SIDE_TOP in
  let otherside := if layer_eqb (fp_Layer aFootprint) B_Cu then AR_SIDE_TOP else AR_SIDE_BOTTOM in
  let fpBBox := Move (GetFootprintRect aFootprint) (pt_neg aOffset) in
  let diag := testRectangle m fpBBox side in
  if negb (diag =? AR_FREE_CELL) then diag
  else
    let diag := if TstOtherSide then testRectangle m fpBBox otherside else diag in
    if TstOtherSide && negb (diag =? AR_FREE_CELL) then diag
    else
      let marge := (m_GridRouting m * GetPadCount aFootprint) ÷ AR_GAIN in
      int_of_uint32 (calculateKeepOutArea m (Inflate fpBBox marge) side).

(** ** Ratsnest cost estimator (lines 681-757) *)

Definition INT64_MAX : Z := 9223372036854775807.

(** Modelled from the spec: [VECTOR2I::EuclideanNorm] (math/vector2d.h, not
    under src/), the "Euclidean distance", which [nearestPad] compares as an
    integer. *)
Definition EuclideanNorm (v : wxPoint) : Z := Z.sqrt (px v * px v + py v * py v).

(** The footprints of the board with their addresses: a footprint is
    identified by its index in [m_board->Footprints()]. *)
Definition indexed {A : Type} (l : list A) : list (nat * A) := combine (seq 0 (length l)) l.

(** One step of the loop over the pads of a footprint (lines 694-706). *)
Definition nearestPad_pad (aRefPad : PAD) (aOffset : wxPoint)
    (acc : option PAD * Z) (pad : PAD) : option PAD * Z :=
  if negb (pad_NetCode pad =? pad_NetCode aRefPad) || (pad_NetCode pad <=? 0) then acc
  else
    let dist := EuclideanNorm (pt_sub (pt_sub (pad_Pos aRefPad) aOffset) (pad_Pos pad)) in
    if dist <? snd acc then (Some pad, dist) else acc.

(** One step of the loop over the footprints (lines 686-707). *)
Definition nearestPad_fp (box : EDA_RECT) (aRefFP : nat) (aRefPad : PAD) (aOffset : wxPoint)
    (acc : option PAD * Z) (ifp : nat * MODULE) : option PAD * Z :=
  if Nat.eqb (fst ifp) aRefFP then acc
  else if negb (Contains box (fp_Pos (snd ifp))) then acc
  else fold_left (nearestPad_pad aRefPad aOffset) (Pads (snd ifp)) acc.

Definition nearestPad (brd : list MODULE) (box : EDA_RECT) (aRefFP : nat)
    (aRefPad : PAD) (aOffset : wxPoint) : option PAD :=
  fst (fold_left (nearestPad_fp box aRefFP aRefPad aOffset) (indexed brd) (None, INT64_MAX)).

(** *** The cost as an exact real number *)




(** *** The cost on the doubles of the machine

    The same computation on IEEE binary64 numbers, as the code runs it.  The
    conversion of an [int] to [double] is exact. *)
Definition double_of_int (z : Z) : PrimFloat.float :=
  if z <? 0 then PrimFloat.opp (PrimFloat.of_uint63 (Uint63.of_Z (- z)))
  else PrimFloat.of_uint63 (Uint63.of_Z z).

(** The cast [(int) x]: the double without its fractional part.  The cast
    of a NaN or of an infinity is undefined in C++; it is 0 here. *)
Definition int_of_double (x : PrimFloat.float) : Z :=
  match Prim2SF x with
  | S754_finite s m e =>
      let a := if 0 <=? e then Z.shiftl (Zpos m) e else Z.shiftr (Zpos m) (- e) in
      if s then - a else a
  | _ => 0
  end.

(** [hypot] of the C library, taken as the rounded square root of the
    rounded sum of the rounded squares; the library may answer the
    neighbouring double. *)
Definition hypot_double (x y : PrimFloat.float) : PrimFloat.float :=
  PrimFloat.sqrt (PrimFloat.add (PrimFloat.mul x x) (PrimFloat.mul y y)).

Definition connCost_double (start end_ : wxPoint) : PrimFloat.float :=
  let dx := Z.abs (px end_ - px start) in
  let dy := Z.abs (py end_ - py start) in
  let dxy := if dx <? dy then (dy, dx) else (dx, dy) in
  hypot_double (double_of_int (fst dxy))
               (PrimFloat.mul (double_of_int (snd dxy)) (double_of_int 2)).

Definition computePlacementRatsnestCost_double (brd : list MODULE) (box : EDA_RECT)
    (aRefFP : nat) (aFootprint : MODULE) (aOffset : wxPoint) : PrimFloat.float :=
  fold_left
    (fun curr_cost pad =>
       match nearestPad brd box aRefFP pad aOffset with
       | None => curr_cost
       | Some nearest =>
           PrimFloat.add curr_cost
                         (connCost_double (pt_sub (pad_Pos pad) aOffset) (pad_Pos nearest))
       end)
    (Pads aFootprint) (double_of_int 0).

(** ** Placement search: [getOptimalFPPlacement] (lines 587-678) *)

(** What the search keeps from one candidate to the next: [error],
    [lastPosOK] and [min_cost]. *)
Record SEARCH := mkSearch {
  s_error : Z;
  s_lastPosOK : wxPoint;
  s_min_cost : PrimFloat.float
}.

(** The geometry the search derives from the footprint before its loops
    (lines 596-634): the origin of the footprint rectangle relative to the
    footprint position, the limit [xylimit] and the start [initialPos]. *)
Definition xylimit (m : AR_MATRIX) (fp : MODULE) : wxPoint :=
  let fpBBox := Move (GetFootprintRect fp) (pt_neg (fp_Pos fp)) in
  pt_sub (GetEnd (m_BrdBox m)) (GetEnd fpBBox).

Definition initialPos (m : AR_MATRIX) (fp : MODULE) : wxPoint :=
  let fpBBox := Move (GetFootprintRect fp) (pt_neg (fp_Pos fp)) in
  let fpBBoxOrg := GetOrigin fpBBox in
  let p := pt_sub (GetOrigin (m_BrdBox m)) fpBBoxOrg in
  mkPoint (px p - Z.rem (px p) (m_GridRouting m)) (py p - Z.rem (py p) (m_GridRouting m)).

(** Lines 617-632: does a pad of the footprint reach the other copper side? *)
Definition testOtherSide (m : AR_MATRIX) (fp : MODULE) : bool :=
  if m_RoutingLayersCount m >? 1 then
    let other := if layer_eqb (fp_Layer fp) B_Cu then F_Cu else B_Cu in
    existsb (fun pad => pad_OnLayer pad other) (Pads fp)
  else false.

(** The verdict of the candidate evaluator at the trial position [pos]
    (lines 647-649). *)
Definition keepOutCostAt (m : AR_MATRIX) (fp : MODULE) (pos : wxPoint) : Z :=
  testFootprintOnBoard m fp (testOtherSide m fp) (pt_sub (fp_Pos fp) pos).

(** [Score] at the trial position [pos] (lines 655-656): the sum, on
    doubles, of the ratsnest cost and of the keep-out cost.  [ratsnestCost] is
    what [computePlacementRatsnestCost] answers for the footprint at an
    offset. *)
Definition scoreWith (ratsnestCost : wxPoint -> PrimFloat.float) (m : AR_MATRIX)
    (fp : MODULE) (pos : wxPoint) : PrimFloat.float :=
  PrimFloat.add (ratsnestCost (pt_sub (fp_Pos fp) pos))
                (double_of_int (keepOutCostAt m fp pos)).

(** The body of the inner loop (lines 647-669) at [m_curPosition = pos]. *)
Definition tryPositionWith (ratsnestCost : wxPoint -> PrimFloat.float) (m : AR_MATRIX)
    (fp : MODULE) (s : SEARCH) (pos : wxPoint) : SEARCH :=
  let keepOutCost := keepOutCostAt m fp pos in
  if keepOutCost >=? 0 then
    let Score := scoreWith ratsnestCost m fp pos in
    if PrimFloat.leb Score (s_min_cost s) || PrimFloat.ltb (s_min_cost s) 0%float
    then mkSearch 0 pos Score
    else mkSearch 0 (s_lastPosOK s) (s_min_cost s)
  else s.

(** The two loops (lines 640-671): [m_curPosition.x] outermost. *)
Definition searchLoopsWith (ratsnestCost : wxPoint -> PrimFloat.float) (m : AR_MATRIX)
    (fp : MODULE) (s : SEARCH) : SEARCH :=
  let g := m_GridRouting m in
  fold_left
    (fun s x =>
       fold_left (fun s y => tryPositionWith ratsnestCost m fp s (mkPoint x y))
                 (for_range (py (initialPos m fp)) (py (xylimit m fp)) g) s)
    (for_range (px (initialPos m fp)) (px (xylimit m fp)) g) s.

(** The search (lines 587-678), whatever [computePlacementRatsnestCost]
    answers. *)
Definition getOptimalFPPlacementWith (ratsnestCost : wxPoint -> PrimFloat.float)
    (m : AR_MATRIX) (fp : MODULE) : SEARCH :=
  searchLoopsWith ratsnestCost m fp (mkSearch 1 (GetOrigin (m_BrdBox m)) (-1)%float).

(** The same with the ratsnest cost of the code. *)
Definition scoreAt (brd : list MODULE) (m : AR_MATRIX) (aRefFP : nat) (fp : MODULE)
    (pos : wxPoint) : PrimFloat.float :=
  scoreWith (computePlacementRatsnestCost_double brd (m_BrdBox m) aRefFP fp) m fp pos.

(** [getOptimalFPPlacement] on the footprint at address [aFootprint]: the
    value returned ([s_error]) and what it leaves in [m_curPosition]
    ([s_lastPosOK]) and [m_minCost] ([s_min_cost]). *)
Definition getOptimalFPPlacement (brd : list MODULE) (m : AR_MATRIX) (aFootprint : nat)
    (fp : MODULE) : SEARCH :=
  getOptimalFPPlacementWith
    (computePlacementRatsnestCost_double brd (m_BrdBox m) aFootprint fp) m fp.

(** ** Rasterizer: [fillMatrix] (lines 159-271) *)

(** Modelled from the spec: the closed outline of the board
    ([SHAPE_LINE_CHAIN], not under src/) is the list of its points; the
    segment after the last point returns to the first, and the bounding box
    is the one of the points. *)
Definition CPoint (outline : list wxPoint) (v : nat) : wxPoint :=
  nth (v mod length outline) outline (mkPoint 0 0).

Definition minOf (l : list Z) : Z := fold_left Z.min (tl l) (hd 0 l).
Definition maxOf (l : list Z) : Z := fold_left Z.max (tl l) (hd 0 l).

Definition BBox (outline : list wxPoint) : EDA_RECT :=
  let xs := map px outline in
  let ys := map py outline in
  mkRect (mkPoint (minOf xs) (minOf ys))
         (mkPoint (maxOf xs - minOf xs) (maxOf ys - minOf ys)).

(** Lines 193-231 for the segment from point [v] to point [v + 1] and the
    scan line [y = refy]: the x coordinate pushed on [x_coordinates], if any.
    [inv_slope] is the rounded quotient of two doubles and [intersec_x] the
    rounded product of [newrefy] by it; the cast to [int] truncates. *)
Definition intersection (outline : list wxPoint) (refy : Z) (v : nat) : option Z :=
  let seg_startX := px (CPoint outline v) in
  let seg_startY := py (CPoint outline v) in
  let seg_endX := px (CPoint outline (v + 1)) in
  let seg_endY := py (CPoint outline (v + 1)) in
  if (seg_startY >? refy) && (seg_endY >? refy) then None
  else if (seg_startY <=? refy) && (seg_endY <=? refy) then None
  else
    let seg_endX := seg_endX - seg_startX in
    let seg_endY := seg_endY - seg_startY in
    let newrefy := double_of_int (refy - seg_startY) in
    if seg_endY =? 0 then None
    else
      let inv_slope := PrimFloat.div (double_of_int seg_endX) (double_of_int seg_endY) in
      let intersec_x := PrimFloat.mul newrefy inv_slope in
      Some (int_of_double intersec_x + seg_startX).

(** [x_coordinates] at the end of the loop over the segments (lines 188-232). *)
Definition x_coordinates (outline : list wxPoint) (refy : Z) : list Z :=
  flat_map (fun v => match intersection outline refy v with
                     | Some x => [x]
                     | None => []
                     end)
           (seq 0 (length outline)).

(** [std::sort] on integers. *)
Fixpoint insertSorted (x : Z) (l : list Z) : list Z :=
  match l with
  | [] => [x]
  | y :: l' => if x <=? y then x :: l else y :: insertSorted x l'
  end.

Definition sortZ (l : list Z) : list Z := fold_right insertSorted [] l.

(** Lines 258-265: the cells of row [idy] from [seg_start_x] to [seg_end_x],
    [idxs] being the values of [idx] up to [m_Ncols]. *)
Fixpoint fillCells (m : AR_MATRIX) (idy step seg_start_x seg_end_x : Z) (idxs : list Z)
    : AR_MATRIX :=
  match idxs with
  | [] => m
  | idx :: idxs' =>
      if idx * step >? seg_end_x then m
      else
        fillCells
          (if idx * step >=? seg_start_x
           then SetCell m idy idx AR_SIDE_BOTTOM CELL_IS_ZONE else m)
          idy step seg_start_x seg_end_x idxs'
  end.

(** Lines 249-267: the segments between consecutive pairs of [x_coordinates]. *)
Fixpoint fillPairs (m : AR_MATRIX) (idy step originX : Z) (xs : list Z) : AR_MATRIX :=
  match xs with
  | x0 :: x1 :: xs' =>
      let seg_start_x := x0 - originX in
      let seg_end_x := x1 - originX in
      fillPairs
        (fillCells m idy step seg_start_x seg_end_x
           (for_range (seg_start_x ÷ step) (m_Ncols m) 1))
        idy step originX xs'
  | _ => m
  end.

(** The loop over the scan lines (lines 174-268): [(success, matrix)].
    [x_coords refy] is what the loop over the segments leaves in
    [x_coordinates] for the scan line [refy]. *)
Fixpoint fillRowsWith (x_coords : Z -> list Z) (m : AR_MATRIX) (refys : list Z)
    : bool * AR_MATRIX :=
  match refys with
  | [] => (true, m)
  | refy :: refys' =>
      let step := m_GridRouting m in
      let coord_orgin := GetBrdCoordOrigin m in
      let idy := (refy - py coord_orgin) ÷ step in
      if idy >=? m_Nrows m then (true, m)
      else if idy <=? 0 then fillRowsWith x_coords m refys'
      else
        let xs := sortZ (x_coords refy) in
        if Nat.odd (length xs) then (false, m)
        else fillRowsWith x_coords (fillPairs m idy step (px coord_orgin) xs) refys'
  end.

Definition fillRows (outline : list wxPoint) (m : AR_MATRIX) (refys : list Z)
    : bool * AR_MATRIX :=
  fillRowsWith (x_coordinates outline) m refys.

(** The scan lines of the outline: [refy] from [rect.GetY()] to
    [rect.GetBottom()], excluded, by [step]. *)
Definition scanLines (m : AR_MATRIX) (outline : list wxPoint) : list Z :=
  for_range (GetY (BBox outline)) (GetBottom (BBox outline)) (m_GridRouting m).

Definition fillMatrix (m : AR_MATRIX) (outline : list wxPoint) : bool * AR_MATRIX :=
  fillRows outline m (scanLines m outline).

(** ** Orchestrator: [AutoplaceFootprints] (lines 877-1082) *)

(** Modelled from the spec: the run result ([enum AR_RESULT], declared in
    ar_autoplacer.h, not under src/), "a boolean run result in {completed,
    cancelled, aborted}"; the source names the third [AR_FAILURE]. *)
Inductive AR_RESULT := AR_COMPLETED | AR_CANCELLED | AR_FAILURE.

(** The board, as the placer queries it: its footprints, the bounding box of
    its edges, and the outline [Outline(0)] of its fractured shape. *)
Record BOARD := mkBoard {
  Footprints : list MODULE;
  GetBoardEdgesBoundingBox : EDA_RECT;
  GetBoardPolygonOutlines : list wxPoint
}.

Definition set_Footprints (b : BOARD) (l : list MODULE) : BOARD :=
  mkBoard l (GetBoardEdgesBoundingBox b) (GetBoardPolygonOutlines b).

(** A layer mask restricted to the two copper sides: (F_Cu, B_Cu). *)
Definition LSET := (bool * bool)%type.

(** The collaborators whose code is not under src/: the matrix operations of
    [AR_MATRIX], the connectivity queries, [std::sort] on a vector of
    footprints, and the unit conversion [Millimeter2iu( 0.25 )]. *)
Record AR_SERVICES := mkServices {
  UnInitRoutingMatrix : AR_MATRIX -> AR_MATRIX;
  ComputeMatrixSize : AR_MATRIX -> EDA_RECT -> AR_MATRIX;
  InitRoutingMatrix : AR_MATRIX -> AR_MATRIX;
  TraceDrawings : BOARD -> AR_MATRIX -> AR_MATRIX;
  TraceFilledRectangle : Z -> Z -> Z -> Z -> LSET -> Z -> AR_MATRIX -> AR_MATRIX;
  PlacePad : PAD -> Z -> Z -> AR_MATRIX -> AR_MATRIX;
  CreateKeepOutRectangle : Z -> Z -> Z -> Z -> Z -> Z -> LSET -> AR_MATRIX -> AR_MATRIX;
  RatsnestForComponent : list MODULE -> nat -> Z;
  std_sort : (nat -> nat -> bool) -> list nat -> list nat;
  Millimeter2iu_quarter : Z
}.

(** The members of [AR_AUTOPLACER] the run reads and writes.
    [m_progressReporter], when set, answers [KeepRefreshing] after each
    commit (the n-th call gets the n-th answer); [m_commit] lists the
    footprints passed to [aCommit->Modify]. *)
Record AR_AUTOPLACER := mkPlacer {
  m_board : BOARD;
  m_matrix : AR_MATRIX;
  m_curPosition : wxPoint;
  m_minCost : PrimFloat.float;
  m_gridSize : Z;
  m_progressReporter : option (nat -> bool);
  m_commit : list nat
}.

Definition set_board (p : AR_AUTOPLACER) (b : BOARD) : AR_AUTOPLACER :=
  mkPlacer b (m_matrix p) (m_curPosition p) (m_minCost p) (m_gridSize p)
    (m_progressReporter p) (m_commit p).
Definition set_matrix (p : AR_AUTOPLACER) (m : AR_MATRIX) : AR_AUTOPLACER :=
  mkPlacer (m_board p) m (m_curPosition p) (m_minCost p) (m_gridSize p)
    (m_progressReporter p) (m_commit p).
Definition set_curPosition (p : AR_AUTOPLACER) (c : wxPoint) : AR_AUTOPLACER :=
  mkPlacer (m_board p) (m_matrix p) c (m_minCost p) (m_gridSize p)
    (m_progressReporter p) (m_commit p).
Definition set_minCost (p : AR_AUTOPLACER) (c : PrimFloat.float) : AR_AUTOPLACER :=
  mkPlacer (m_board p) (m_matrix p) (m_curPosition p) c (m_gridSize p)
    (m_progressReporter p) (m_commit p).
Definition set_commit (p : AR_AUTOPLACER) (c : list nat) : AR_AUTOPLACER :=
  mkPlacer (m_board p) (m_matrix p) (m_curPosition p) (m_minCost p) (m_gridSize p)
    (m_progressReporter p) c.

(** [*footprint = f( *footprint )] for the footprint at address [i]. *)
Fixpoint update (l : list MODULE) (i : nat) (f : MODULE -> MODULE) : list MODULE :=
  match l, i with
  | [], _ => []
  | x :: l', O => f x :: l'
  | x :: l', S i' => x :: update l' i' f
  end.

Definition footprints (p : AR_AUTOPLACER) : list MODULE := Footprints (m_board p).

Definition modify (p : AR_AUTOPLACER) (i : nat) (f : MODULE -> MODULE) : AR_AUTOPLACER :=
  set_board p (set_Footprints (m_board p) (update (footprints p) i f)).

(** Penalty for CntRot90 and CntRot180 (lines 64-77): the doubles nearest
    to 2.0, 1.9, 1.8, 1.7, 1.6, 1.5, 1.4, 1.3, 1.2, 1.1 and 1.0. *)
Definition OrientationPenalty : list PrimFloat.float :=
  [0x1p+1; 0x1.e666666666666p+0; 0x1.ccccccccccccdp+0; 0x1.b333333333333p+0;
   0x1.999999999999ap+0; 0x1.8p+0; 0x1.6666666666666p+0; 0x1.4cccccccccccdp+0;
   0x1.3333333333333p+0; 0x1.199999999999ap+0; 0x1p+0]%float.

(** [OrientationPenalty[rotAllowed]]; an index outside of the table, which
    the code does not guard against, reads 1.0 here. *)
Definition orientationPenalty (rotAllowed : Z) : PrimFloat.float :=
  nth (Z.to_nat rotAllowed) OrientationPenalty 1%float.

(** Lines 95-103 and 274-286 (the connectivity update is the collaborator's). *)
Definition placeFootprint (p : AR_AUTOPLACER) (aFootprint : nat) (aPos : wxPoint)
    : AR_AUTOPLACER :=
  modify p aFootprint (fun fp => SetPosition fp aPos).

Definition rotateFootprint (p : AR_AUTOPLACER) (aFootprint : nat) (angle : Z)
    (incremental : bool) : AR_AUTOPLACER :=
  modify p aFootprint
    (fun fp => SetOrientation fp (if incremental then fp_Orient fp + angle else angle)).

(** Lines 106-156.  With its two routing layers the matrix has a top side,
    which gets a copy of the bottom side (lines 150-152). *)
Definition copyBottomToTop (m : AR_MATRIX) : AR_MATRIX :=
  mkMatrix (m_BrdBox m) (m_GridRouting m) (m_Nrows m) (m_Ncols m) (m_RoutingLayersCount m)
    (fun _ r c => m_BoardSide m AR_SIDE_BOTTOM r c) (m_DistSide m).

Definition set_RoutingLayersCount (m : AR_MATRIX) (n : Z) : AR_MATRIX :=
  mkMatrix (m_BrdBox m) (m_GridRouting m) (m_Nrows m) (m_Ncols m) n
    (m_BoardSide m) (m_DistSide m).

Definition genPlacementRoutingMatrix (sv : AR_SERVICES) (p : AR_AUTOPLACER)
    : Z * AR_AUTOPLACER :=
  let p := set_matrix p (UnInitRoutingMatrix sv (m_matrix p)) in
  let bbox := GetBoardEdgesBoundingBox (m_board p) in
  if (GetWidth bbox =? 0) || (GetHeight bbox =? 0) then (0, p)
  else
    let m := ComputeMatrixSize sv (m_matrix p) bbox in
    let m := InitRoutingMatrix sv (set_RoutingLayersCount m 2) in
    let m := snd (fillMatrix m (GetBoardPolygonOutlines (m_board p))) in
    let m := TraceDrawings sv (m_board p) m in
    (1, set_matrix p (copyBottomToTop m)).

(** Lines 368-430 (the free-area polygons are not modelled). *)
Definition clampTo (lo hi v : Z) : Z :=
  let v := if v <? lo then lo else v in
  if v >? hi then hi else v.

Definition genModuleOnRoutingMatrix (sv : AR_SERVICES) (m : AR_MATRIX) (Module : MODULE)
    : AR_MATRIX :=
  let fpBBox := Inflate (GetBoundingBox Module) (m_GridRouting m ÷ 2) in
  let ox := clampTo (GetX (m_BrdBox m)) (GetRight (m_BrdBox m)) (GetX fpBBox) in
  let fx := clampTo (GetX (m_BrdBox m)) (GetRight (m_BrdBox m)) (GetRight fpBBox) in
  let oy := clampTo (GetY (m_BrdBox m)) (GetBottom (m_BrdBox m)) (GetY fpBBox) in
  let fy := clampTo (GetY (m_BrdBox m)) (GetBottom (m_BrdBox m)) (GetBottom fpBBox) in
  let layerMask : LSET :=
    (layer_eqb (fp_Layer Module) F_Cu, layer_eqb (fp_Layer Module) B_Cu) in
  let m1 := TraceFilledRectangle sv ox oy fx fy layerMask CELL_IS_MODULE m in
  let m2 :=
    fold_left
      (fun m pad =>
         PlacePad sv pad CELL_IS_MODULE (m_GridRouting m ÷ 2 + pad_OwnClearance pad) m)
      (Pads Module) m1 in
  let margin := (m_GridRouting m2 * GetPadCount Module) ÷ AR_GAIN in
  CreateKeepOutRectangle sv ox oy fx fy margin AR_KEEPOUT_MARGIN layerMask m2.

(** Lines 761-843. *)
Definition sortFootprintsByComplexity (ref compare : MODULE) : bool :=
  GetArea compare * GetPadCount compare <? GetArea ref * GetPadCount ref.

Definition sortFootprintsByRatsnestSize (ref compare : MODULE) : bool :=
  GetArea compare * fp_Flag compare <? GetArea ref * fp_Flag ref.

(** A comparison of footprints read through their addresses. *)
Definition byAddress (brd : list MODULE) (cmp : MODULE -> MODULE -> bool) (i j : nat) : bool :=
  match nth_error brd i, nth_error brd j with
  | Some a, Some b => cmp a b
  | _, _ => false
  end.

(** The search for the "best" module (lines 820-842): [(bestModule, altModule)]. *)
Fixpoint searchBest (brd : list MODULE) (fpList : list nat) (altModule : option nat)
    : option nat * option nat :=
  match fpList with
  | [] => (None, altModule)
  | i :: fpList' =>
      match nth_error brd i with
      | None => searchBest brd fpList' altModule
      | Some footprint =>
          if negb (fp_NeedsPlaced footprint) then searchBest brd fpList' altModule
          else if fp_Flag footprint =? 0 then searchBest brd fpList' (Some i)
          else (Some i, Some i)
      end
  end.

Definition pickFootprint (sv : AR_SERVICES) (p : AR_AUTOPLACER)
    : option nat * AR_AUTOPLACER :=
  let fpList := seq 0 (length (footprints p)) in
  let fpList := std_sort sv (byAddress (footprints p) sortFootprintsByComplexity) fpList in
  let p := fold_left (fun p kk => modify p kk (fun fp => SetFlag fp 0)) fpList p in
  let p :=
    fold_left
      (fun p kk =>
         modify p kk (fun fp => SetFlag fp (RatsnestForComponent sv (footprints p) kk)))
      fpList p in
  let fpList := std_sort sv (byAddress (footprints p) sortFootprintsByRatsnestSize) fpList in
  match searchBest (footprints p) fpList None with
  | (Some bestModule, _) => (Some bestModule, p)
  | (None, altModule) => (altModule, p)
  end.

(** The footprint at address [i]; [fp0] is what the same address held when
    the loop body was entered. *)
Definition footprintAt (p : AR_AUTOPLACER) (i : nat) (fp0 : MODULE) : MODULE :=
  nth i (footprints p) fp0.

(** [error = getOptimalFPPlacement( footprint )]: the value returned, and the
    placer with [m_curPosition] and [m_minCost] as the search leaves them. *)
Definition runSearch (p : AR_AUTOPLACER) (i : nat) (fp0 : MODULE) : Z * AR_AUTOPLACER :=
  let s := getOptimalFPPlacement (footprints p) (m_matrix p) i (footprintAt p i fp0) in
  (s_error s, set_minCost (set_curPosition p (s_lastPosOK s)) (s_min_cost s)).

(** The local variables of the loop body that the orientation trials share. *)
Record EVAL := mkEval {
  e_placer : AR_AUTOPLACER;
  e_error : Z;
  e_bestScore : PrimFloat.float;
  e_bestRotation : Z
}.

(** One orientation trial (lines 974-986, again at 997-1009 and 1018-1030). *)
Definition tryRotation (angle rotAllowed initialOrient : Z) (i : nat) (fp0 : MODULE)
    (e : EVAL) : EVAL :=
  let p := rotateFootprint (e_placer e) i angle true in
  let '(error, p) := runSearch p i fp0 in
  let p := set_minCost p (PrimFloat.mul (m_minCost p) (orientationPenalty rotAllowed)) in
  if PrimFloat.ltb (m_minCost p) (e_bestScore e)
  then mkEval p error (m_minCost p) angle
  else mkEval (rotateFootprint p i initialOrient false) error (e_bestScore e)
         (e_bestRotation e).

(** Lines 959-1036: the trials of one footprint, up to the label
    [end_of_tst]. *)
Definition evaluateOrientations (p : AR_AUTOPLACER) (i : nat) (fp0 : MODULE) : EVAL :=
  let initialOrient := fp_Orient fp0 in
  let '(error, p) := runSearch p i fp0 in
  let e := mkEval p error (m_minCost p) 0 in
  if error =? AR_ABORT_PLACEMENT then e
  else
    let rotAllowed := GetPlacementCost180 fp0 in
    let e := if negb (rotAllowed =? 0)
             then tryRotation 1800 rotAllowed initialOrient i fp0 e else e in
    if negb (rotAllowed =? 0) && (e_error e =? AR_ABORT_PLACEMENT) then e
    else
      let rotAllowed := GetPlacementCost90 fp0 in
      let e := if negb (rotAllowed =? 0)
               then tryRotation 900 rotAllowed initialOrient i fp0 e else e in
      if negb (rotAllowed =? 0) && (e_error e =? AR_ABORT_PLACEMENT) then e
      else
        if negb (rotAllowed =? 0)
        then tryRotation 2700 rotAllowed initialOrient i fp0 e else e.

(** Lines 1042-1055: the commit of the footprint at address [i]. *)
Definition commitPlacement (sv : AR_SERVICES) (e : EVAL) (i : nat) (fp0 : MODULE)
    : AR_AUTOPLACER :=
  let bestRotation := e_bestRotation e + fp_Orient fp0 in
  let p := e_placer e in
  let p := if negb (bestRotation =? fp_Orient (footprintAt p i fp0))
           then rotateFootprint p i bestRotation false else p in
  let p := placeFootprint p i (m_curPosition p) in
  let p := set_matrix p (genModuleOnRoutingMatrix sv (m_matrix p) (footprintAt p i fp0)) in
  modify p i (fun fp => SetNeedsPlaced (SetIsPlaced fp true) false).

(** The loop [while( ( footprint = pickFootprint() ) != nullptr )] (lines
    950-1072), at most [fuel] iterations: [Some (cancelled, placer)] when the
    loop is left, [None] when [fuel] iterations did not leave it. *)
Fixpoint placeLoop (sv : AR_SERVICES) (fuel : nat) (p : AR_AUTOPLACER) (cnt : nat)
    : option (bool * AR_AUTOPLACER) :=
  match fuel with
  | O => None
  | S fuel' =>
      match pickFootprint sv p with
      | (None, p) => Some (false, p)
      | (Some i, p) =>
          match nth_error (footprints p) i with
          | None => None
          | Some fp0 =>
              let e := evaluateOrientations p i fp0 in
              if e_error e =? AR_ABORT_PLACEMENT then Some (false, e_placer e)
              else
                let p := commitPlacement sv e i fp0 in
                match m_progressReporter p with
                | Some KeepRefreshing =>
                    if negb (KeepRefreshing cnt) then Some (true, p)
                    else placeLoop sv fuel' p (S cnt)
                | None => placeLoop sv fuel' p (S cnt)
                end
          end
      end
  end.

(** Lines 899-931: the worklist is flagged and the footprints that stay are
    stamped on the matrix. *)
Definition flagForPlacement (p : AR_AUTOPLACER) (l : list nat) : AR_AUTOPLACER :=
  fold_left
    (fun p i => set_commit (modify p i (fun fp => SetNeedsPlaced fp true)) (m_commit p ++ [i]))
    l p.

Definition prepareRun (sv : AR_SERVICES) (p : AR_AUTOPLACER) (aFootprints : list nat)
    (aPlaceOffboardModules : bool) : AR_AUTOPLACER :=
  let p := set_board p (set_Footprints (m_board p)
                          (map (fun fp => SetNeedsPlaced fp false) (footprints p))) in
  let offboardMods :=
    if aPlaceOffboardModules
    then map fst (filter (fun ifp => negb (Contains (m_BrdBox (m_matrix p)) (fp_Pos (snd ifp))))
                         (indexed (footprints p)))
    else [] in
  let p := flagForPlacement p aFootprints in
  let p := flagForPlacement p offboardMods in
  set_matrix p
    (fold_left
       (fun m fp => if fp_NeedsPlaced fp then m else genModuleOnRoutingMatrix sv m fp)
       (footprints p) (m_matrix p)).

(** [AutoplaceFootprints]: the result and the placer it leaves.  The loop
    gets one iteration per footprint of the board and one more. *)
Definition AutoplaceFootprints (sv : AR_SERVICES) (p : AR_AUTOPLACER)
    (aFootprints : list nat) (aPlaceOffboardModules : bool)
    : option (AR_RESULT * AR_AUTOPLACER) :=
  let memopos := m_curPosition p in
  let g := if m_gridSize p <? Millimeter2iu_quarter sv
           then Millimeter2iu_quarter sv else m_gridSize p in
  let p := set_matrix p (set_GridRouting (m_matrix p) g) in
  let '(built, p) := genPlacementRoutingMatrix sv p in
  if built =? 0 then Some (AR_FAILURE, p)
  else
    let p := prepareRun sv p aFootprints aPlaceOffboardModules in
    match placeLoop sv (S (length (footprints p))) p 0 with
    | None => None
    | Some (cancelled, p) =>
        let p := set_curPosition p memopos in
        let p := set_matrix p (UnInitRoutingMatrix sv (m_matrix p)) in
        Some (if cancelled then AR_CANCELLED else AR_COMPLETED, p)
    end.

(** ** Notions used to state the properties *)

(** The verdict of the first cell of [data], in order, that decides one. *)
Fixpoint firstVerdict (data : list Z) : option Z :=
  match data with
  | [] => None
  | d :: data' =>
      match cellVerdict d with
      | Some v => Some v
      | None => firstVerdict data'
      end
  end.

(** A cell that lets the scan of [testRectangle] go on: inside the board
    zone and not occupied. *)
Definition freeCell (d : Z) : Prop := hasZone d = true /\ hasModule d = false.

(** The flags [testRectangle] reads, in scan order. *)
Definition coveredData (m : AR_MATRIX) (aRect : EDA_RECT) (side : AR_SIDE) : list Z :=
  map (fun rc => GetCell m (fst rc) (snd rc) side) (coveredCells m aRect).

(** The trial positions of [getOptimalFPPlacement], in the order its loops
    visit them: [x] is the outer loop and [y] the inner one, both from
    [initialPos] by steps of the grid pitch, up to [xylimit] excluded. *)
Definition candidates (m : AR_MATRIX) (fp : MODULE) : list wxPoint :=
  flat_map
    (fun x => map (fun y => mkPoint x y)
                  (for_range (py (initialPos m fp)) (py (xylimit m fp)) (m_GridRouting m)))
    (for_range (px (initialPos m fp)) (px (xylimit m fp)) (m_GridRouting m)).

(** The order in which the trial positions are visited: by growing [x],
    and by growing [y] for the same [x]. *)
Definition columnMajor (a b : wxPoint) : Prop :=
  px a < px b \/ (px a = px b /\ py a < py b).

(** "The footprint can be put here" (line 651). *)
Definition legalAt (m : AR_MATRIX) (fp : MODULE) (pos : wxPoint) : bool :=
  keepOutCostAt m fp pos >=? 0.

(** [s] is what the search holds after the trial positions [l] when one of
    them is legal: the position kept has the least score of the legal
    positions of [l], and every legal position tried after it has a strictly
    greater score (of several positions with the least score, the last one
    tried is kept).  The scores are doubles, compared as the machine does. *)
Definition keepsLastMinimumWith (ratsnestCost : wxPoint -> PrimFloat.float) (m : AR_MATRIX)
    (fp : MODULE) (l : list wxPoint) (s : SEARCH) : Prop :=
  exists l1 best l2,
    l = l1 ++ best :: l2 /\
    legalAt m fp best = true /\
    s = mkSearch 0 best (scoreWith ratsnestCost m fp best) /\
    (forall q, In q l1 -> legalAt m fp q = true ->
               PrimFloat.leb (scoreWith ratsnestCost m fp best)
                             (scoreWith ratsnestCost m fp q) = true) /\
    (forall q, In q l2 -> legalAt m fp q = true ->
               PrimFloat.ltb (scoreWith ratsnestCost m fp best)
                             (scoreWith ratsnestCost m fp q) = true).

Definition keepsLastMinimum (brd : list MODULE) (m : AR_MATRIX) (i : nat) (fp : MODULE)
    (l : list wxPoint) (s : SEARCH) : Prop :=
  keepsLastMinimumWith (computePlacementRatsnestCost_double brd (m_BrdBox m) i fp) m fp l s.

(** A pad [q] that [nearestPad] compares with the reference pad [ref]: same
    net code, and a positive one (line 696). *)
Definition sameNet (ref q : PAD) : bool :=
  (pad_NetCode q =? pad_NetCode ref) && (0 <? pad_NetCode q).

(** The pads [nearestPad] compares with [ref]: the pads on the net of [ref]
    of every footprint other than the one at address [aRefFP] whose position
    lies in the box of the matrix (lines 688-692), in the order of the
    loops. *)
Definition neighbours (brd : list MODULE) (box : EDA_RECT) (aRefFP : nat) (ref : PAD)
    : list PAD :=
  flat_map
    (fun ifp =>
       if Nat.eqb (fst ifp) aRefFP || negb (Contains box (fp_Pos (snd ifp))) then []
       else filter (sameNet ref) (Pads (snd ifp)))
    (indexed brd).

(** The distance [nearestPad] measures from the reference pad, moved by the
    trial offset, to the pad [q] (line 699). *)
Definition padDistance (ref : PAD) (aOffset : wxPoint) (q : PAD) : Z :=
  EuclideanNorm (pt_sub (pt_sub (pad_Pos ref) aOffset) (pad_Pos q)).

(** Coordinates that fit a C++ [int]. *)
Definition intCoord (z : Z) : bool := (- 2 ^ 31 <=? z) && (z <? 2 ^ 31).
Definition intPoint (p : wxPoint) : bool := intCoord (px p) && intCoord (py p).
Definition intPads (fp : MODULE) : bool := forallb (fun q => intPoint (pad_Pos q)) (Pads fp).



(** The row of the matrix a scan line falls in (line 177). *)
Definition rowOf (m : AR_MATRIX) (refy : Z) : Z :=
  (refy - py (GetBrdCoordOrigin m)) ÷ m_GridRouting m.

(** The scan lines of [refys] whose intersections the loop of [fillMatrix]
    computes when no odd count stops it: those before the first one that
    falls below the last row of the matrix, less those that fall in row 0
    or above. *)
Fixpoint scannedRows (m : AR_MATRIX) (refys : list Z) : list Z :=
  match refys with
  | [] => []
  | refy :: refys' =>
      if rowOf m refy >=? m_Nrows m then []
      else if rowOf m refy <=? 0 then scannedRows m refys'
      else refy :: scannedRows m refys'
  end.

(** The scan line [refy] has an odd number of points in [x_coordinates];
    for an outline, it meets the outline in an odd number of points. *)
Definition oddRowWith (x_coords : Z -> list Z) (refy : Z) : bool :=
  Nat.odd (length (x_coords refy)).

Definition oddRow (outline : list wxPoint) (refy : Z) : bool :=
  oddRowWith (x_coordinates outline) refy.

(** The cells filled for the scan line [refy] (lines 249-267). *)
Definition fillRowWith (x_coords : Z -> list Z) (m : AR_MATRIX) (refy : Z) : AR_MATRIX :=
  fillPairs m (rowOf m refy) (m_GridRouting m) (px (GetBrdCoordOrigin m))
            (sortZ (x_coords refy)).

Definition fillRow (outline : list wxPoint) (m : AR_MATRIX) (refy : Z) : AR_MATRIX :=
  fillRowWith (x_coordinates outline) m refy.

(** The cells of the bottom side marked [CELL_IS_ZONE], and their number. *)
Definition zoneAt (m : AR_MATRIX) (rc : Z * Z) : bool :=
  hasZone (GetCell m (fst rc) (snd rc) AR_SIDE_BOTTOM).

Definition countZone (m : AR_MATRIX) : Z :=
  Z.of_nat (length (filter (zoneAt m)
                           (list_prod (for_range 0 (m_Nrows m) 1) (for_range 0 (m_Ncols m) 1)))).

(** The outline of a rectangle of width [W] and height [H] with corner
    [(x0, y0)]. *)
Definition rectOutline (x0 y0 W H : Z) : list wxPoint :=
  [mkPoint x0 y0; mkPoint (x0 + W) y0; mkPoint (x0 + W) (y0 + H); mkPoint x0 (y0 + H)].

(** Filling cells changes no dimension of the matrix: [m'] has the box, the
    pitch and the size of [m]. *)
Definition sameGrid (m m' : AR_MATRIX) : Prop :=
  m_BrdBox m' = m_BrdBox m /\ m_GridRouting m' = m_GridRouting m /\
  m_Nrows m' = m_Nrows m /\ m_Ncols m' = m_Ncols m.

(** [m'] is [m] but for cells of the bottom side, in the rows 1 to
    [m_Nrows - 1] and in columns below [m_Ncols], that now hold
    [CELL_IS_ZONE]. *)
Definition zoneWritten (m m' : AR_MATRIX) : Prop :=
  sameGrid m m' /\ m_RoutingLayersCount m' = m_RoutingLayersCount m /\
  m_DistSide m' = m_DistSide m /\
  forall s r c,
    m_BoardSide m' s r c = m_BoardSide m s r c \/
    (s = AR_SIDE_BOTTOM /\ 1 <= r < m_Nrows m /\ c < m_Ncols m /\
     m_BoardSide m' s r c = CELL_IS_ZONE).

(** The loop over the scan lines, on the scan lines it works on. *)
Fixpoint fillScannedWith (x_coords : Z -> list Z) (m : AR_MATRIX) (rows : list Z)
    : bool * AR_MATRIX :=
  match rows with
  | [] => (true, m)
  | refy :: rows' =>
      if oddRowWith x_coords refy then (false, m)
      else fillScannedWith x_coords (fillRowWith x_coords m refy) rows'
  end.

Definition fillScanned (outline : list wxPoint) (m : AR_MATRIX) (rows : list Z)
    : bool * AR_MATRIX :=
  fillScannedWith (x_coordinates outline) m rows.

(** The footprint at address [i] needs to be placed; its scratch counter,
    the number of its ratsnest edges, is not 0. *)
Definition toPlace (brd : list MODULE) (i : nat) : bool :=
  match nth_error brd i with Some fp => fp_NeedsPlaced fp | None => false end.

Definition hasEdges (brd : list MODULE) (i : nat) : bool :=
  match nth_error brd i with Some fp => negb (fp_Flag fp =? 0) | None => false end.

(** Two states of a footprint that differ at most by the scratch counter
    [fp_Flag]. *)
Definition upToFlag (fp fp' : MODULE) : Prop := SetFlag fp' 0 = SetFlag fp 0.

(** Two states of the placer that differ at most by the scratch counters of
    the footprints. *)
Definition samePlacer (p p' : AR_AUTOPLACER) : Prop :=
  Forall2 upToFlag (footprints p) (footprints p') /\
  GetBoardEdgesBoundingBox (m_board p') = GetBoardEdgesBoundingBox (m_board p) /\
  GetBoardPolygonOutlines (m_board p') = GetBoardPolygonOutlines (m_board p) /\
  m_matrix p' = m_matrix p /\ m_curPosition p' = m_curPosition p /\
  m_minCost p' = m_minCost p /\ m_gridSize p' = m_gridSize p /\
  m_progressReporter p' = m_progressReporter p /\ m_commit p' = m_commit p.

(** The footprints that still need to be placed. *)
Definition needsPlacedCount (l : list MODULE) : nat := length (filter fp_NeedsPlaced l).

(** The rotations the cost classes of a footprint allow: none, a quarter
    turn either way unless [CntRot90] is 0, a half turn unless [CntRot180]
    is 0. *)
Definition allowedRotation (fp : MODULE) (d : Z) : Prop :=
  d = 0 \/ (fp_CntRot90 fp <> 0 /\ (d = 900 \/ d = 2700)) \/ (fp_CntRot180 fp <> 0 /\ d = 1800).

(** [p'] is [p] but for the orientation of the footprint at address [i]
    (which was [fp0] in [p]) and for what the search leaves in
    [m_curPosition] and [m_minCost]. *)
Definition rotatedOnly (p : AR_AUTOPLACER) (i : nat) (fp0 : MODULE) (p' : AR_AUTOPLACER)
    : Prop :=
  (exists o, footprints p' = update (footprints p) i (fun _ => SetOrientation fp0 o)) /\
  GetBoardEdgesBoundingBox (m_board p') = GetBoardEdgesBoundingBox (m_board p) /\
  GetBoardPolygonOutlines (m_board p') = GetBoardPolygonOutlines (m_board p) /\
  m_matrix p' = m_matrix p /\ m_gridSize p' = m_gridSize p /\
  m_progressReporter p' = m_progressReporter p /\ m_commit p' = m_commit p.

(** The footprint the loop body commits: [fp0] turned by [rotation], moved
    to [pos], and flagged as placed. *)
Definition committed (fp0 : MODULE) (rotation : Z) (pos : wxPoint) : MODULE :=
  SetNeedsPlaced
    (SetIsPlaced (SetPosition (SetOrientation fp0 (rotation + fp_Orient fp0)) pos) true)
    false.

(** What holds of the local variables of the loop body between two
    orientation trials. *)
Definition evalInvariant (p : AR_AUTOPLACER) (i : nat) (fp0 : MODULE) (e : EVAL) : Prop :=
  rotatedOnly p i fp0 (e_placer e) /\
  (e_error e = 0 \/ e_error e = 1) /\
  (e_bestRotation e = 0 \/ e_bestRotation e = 900 \/ e_bestRotation e = 1800 \/
   e_bestRotation e = 2700).

(** What one run of the placement loop does to a footprint: nothing (but to
    its scratch counter), or, if it needed to be placed, it commits it once,
    turned by a rotation its cost classes allow. *)
Definition loopStep (fp fp' : MODULE) : Prop :=
  upToFlag fp fp' \/
  (fp_NeedsPlaced fp = true /\
   exists d pos, allowedRotation fp d /\ upToFlag (committed fp d pos) fp').

(** Two states of a footprint with the same position, orientation and
    [isPlaced] flag: they differ at most by [needsPlaced] and the scratch
    counter. *)
Definition samePose (fp fp' : MODULE) : Prop :=
  SetNeedsPlaced (SetFlag fp' 0) false = SetNeedsPlaced (SetFlag fp 0) false.

(** What a whole run does to a footprint. *)
Definition runStep (fp fp' : MODULE) : Prop :=
  samePose fp fp' \/
  exists d pos, allowedRotation fp d /\ samePose (committed fp d pos) fp'.

(** The box of the board edges has no width or no height. *)
Definition degenerateBoard (p : AR_AUTOPLACER) : Prop :=
  GetWidth (GetBoardEdgesBoundingBox (m_board p)) = 0 \/
  GetHeight (GetBoardEdgesBoundingBox (m_board p)) = 0.

(** The sum of a list of integers. *)
Definition sumZ (l : list Z) : Z := fold_right Z.add 0 l.

(** The cells whose cost [calculateKeepOutArea] adds up, in scan order: the
    clamped row and column range of [aRect] itself. *)
Definition keepOutCells (m : AR_MATRIX) (aRect : EDA_RECT) : list (Z * Z) :=
  let start := pt_sub (GetOrigin aRect) (GetOrigin (m_BrdBox m)) in
  let end_ := pt_sub (GetEnd aRect) (GetOrigin (m_BrdBox m)) in
  let '(row_min, row_max, col_min, col_max) := cellRange m start end_ in
  flat_map (fun row => map (fun col => (row, col)) (for_range col_min (col_max + 1) 1))
           (for_range row_min (row_max + 1) 1).

(** The footprint rectangle [getOptimalFPPlacement] tests at the trial
    position [pos]: the rectangle of the footprint, moved as if the footprint
    were at [pos] (lines 561-563 with the offset of line 647). *)
Definition trialRect (fp : MODULE) (pos : wxPoint) : EDA_RECT :=
  Move (GetFootprintRect fp) (pt_neg (pt_sub (fp_Pos fp) pos)).

(** [m'] is [m] but for cells of the bottom side, at rows and columns that
    satisfy [P], which now hold [CELL_IS_ZONE]. *)
Definition zoneWrittenAt (P : Z -> Z -> Prop) (m m' : AR_MATRIX) : Prop :=
  forall s r c,
    m_BoardSide m' s r c = m_BoardSide m s r c \/
    (s = AR_SIDE_BOTTOM /\ P r c /\ m_BoardSide m' s r c = CELL_IS_ZONE).

(** *** Doubles *)

(** A double that is a number and not negative: a zero, a positive number
    or +infinity ([0 <= x] holds of no NaN). *)
Definition nonnegDouble (x : PrimFloat.float) : bool := PrimFloat.leb 0%float x.

(** A positive number: not a zero, not an infinity, not a NaN. *)
Definition positiveDouble (x : PrimFloat.float) : bool :=
  match Prim2SF x with
  | S754_finite false _ _ => true
  | _ => false
  end.

(** The same on the specification of a double. *)
Definition SFnonneg (x : spec_float) : Prop :=
  match x with
  | S754_zero _ => True
  | S754_infinity s => s = false
  | S754_finite s _ _ => s = false
  | S754_nan => False
  end.

(** A double of sign [s]: a signed zero, number or infinity, not a NaN. *)
Definition SFsigned (s : bool) (x : spec_float) : Prop :=
  match x with
  | S754_zero s' => s' = s
  | S754_infinity s' => s' = s
  | S754_finite s' _ _ => s' = s
  | S754_nan => False
  end.

(** A key that orders the doubles other than NaN as the comparison of the
    machine does: first the class (-2 for -infinity, -1 for a negative
    number, 0 for a zero, 1 for a positive number, 2 for +infinity), then the
    exponent and the mantissa, negated for a negative number. *)
Definition SFkey (x : spec_float) : option (Z * Z * Z) :=
  match x with
  | S754_nan => None
  | S754_zero _ => Some (0, 0, 0)
  | S754_infinity s => Some (if s then -2 else 2, 0, 0)
  | S754_finite false m e => Some (1, e, Zpos m)
  | S754_finite true m e => Some (-1, - e, Zneg m)
  end.

Definition keyCompare (a b : Z * Z * Z) : comparison :=
  let '(a1, a2, a3) := a in
  let '(b1, b2, b3) := b in
  match a1 ?= b1 with
  | Eq => match a2 ?= b2 with Eq => a3 ?= b3 | c => c end
  | c => c
  end.

(** ** Concrete boards *)

(** A matrix of one row and two columns at pitch 10: cell (0,0) is inside the
    board zone and occupied by a module, cell (0,1) is outside the zone. *)
Definition edgeMatrix : AR_MATRIX :=
  mkMatrix (mkRect (mkPoint 0 0) (mkPoint 20 10)) 10 1 2 2
    (fun _ r c => if (r =? 0) && (c =? 0) then 130 else 0)
    (fun _ _ _ => 0).

(** A rectangle that covers both cells once inflated by half the pitch. *)
Definition edgeRect : EDA_RECT := mkRect (mkPoint 5 5) (mkPoint 10 0).

(** A square footprint of side 10 centred on its position, without pads. *)
Definition squareShape (pos : wxPoint) (orient : Z) : FP_GEOMETRY :=
  let r := mkRect (mkPoint (px pos - 5) (py pos - 5)) (mkPoint 10 10) in
  mkGeometry r r [].

Definition squareFp : MODULE :=
  mkModule (mkPoint 100 100) 0 F_Cu 0 0 true false 0 squareShape.

(** A matrix of 3 x 3 cells at pitch 10 over the box (0,0)-(25,25): every
    cell is inside the board zone, free, and costs nothing. *)
Definition openMatrix : AR_MATRIX :=
  mkMatrix (mkRect (mkPoint 0 0) (mkPoint 25 25)) 10 3 3 2
    (fun _ _ _ => CELL_IS_ZONE) (fun _ _ _ => 0).

(** A footprint made of one pad at its position, on the net [net]. *)
Definition onePadShape (net : Z) (pos : wxPoint) (orient : Z) : FP_GEOMETRY :=
  let r := mkRect (mkPoint (px pos - 5) (py pos - 5)) (mkPoint 10 10) in
  mkGeometry r r [mkPad pos net (fun l => layer_eqb l F_Cu) 0].

Definition onePadFp (x y net : Z) : MODULE :=
  mkModule (mkPoint x y) 0 F_Cu 0 0 false false 0 (onePadShape net).



Definition boardBox : EDA_RECT := mkRect (mkPoint 0 0) (mkPoint 100 100).





(** An initialised matrix of [rows] x [cols] cells at pitch 10 with origin
    (0,0): no flag is set. *)
Definition blankMatrix (rows cols : Z) : AR_MATRIX :=
  mkMatrix (mkRect (mkPoint 0 0) (mkPoint (10 * cols) (10 * rows))) 10 rows cols 2
    (fun _ _ _ => CELL_IS_EMPTY) (fun _ _ _ => 0).

(** *** Collaborators for the concrete runs *)

(** Modelled from the spec: the matrix operations for a board without
    drawings and the connectivity of footprints without nets.  The matrix
    takes the box of the board edges, "grid dimensions = ceil(boardWidth /
    pitch) x ceil(boardHeight / pitch)", and is cleared when initialised or
    released; stamping a rectangle marks the cells whose grid point it
    contains; pads without copper shape and a keep-out band without cost
    leave the matrix as it is; no footprint has a ratsnest edge; the unit
    conversion is the one of pcbnew, 10^6 internal units per mm. *)
Definition clearMatrix (m : AR_MATRIX) : AR_MATRIX :=
  mkMatrix (m_BrdBox m) (m_GridRouting m) (m_Nrows m) (m_Ncols m) (m_RoutingLayersCount m)
    (fun _ _ _ => CELL_IS_EMPTY) (fun _ _ _ => 0).

Definition specMatrixSize (m : AR_MATRIX) (bbox : EDA_RECT) : AR_MATRIX :=
  let g := m_GridRouting m in
  mkMatrix bbox g ((GetHeight bbox + g - 1) / g) ((GetWidth bbox + g - 1) / g)
    (m_RoutingLayersCount m) (m_BoardSide m) (m_DistSide m).

Definition stampRectangle (ox oy fx fy : Z) (mask : LSET) (color : Z) (m : AR_MATRIX)
    : AR_MATRIX :=
  mkMatrix (m_BrdBox m) (m_GridRouting m) (m_Nrows m) (m_Ncols m) (m_RoutingLayersCount m)
    (fun s r c =>
       let x := GetX (m_BrdBox m) + c * m_GridRouting m in
       let y := GetY (m_BrdBox m) + r * m_GridRouting m in
       let onSide := match s with AR_SIDE_TOP => fst mask | AR_SIDE_BOTTOM => snd mask end in
       if onSide && (ox <=? x) && (x <=? fx) && (oy <=? y) && (y <=? fy)
       then Z.lor (m_BoardSide m s r c) color else m_BoardSide m s r c)
    (m_DistSide m).

Fixpoint insertBy (before : nat -> nat -> bool) (x : nat) (l : list nat) : list nat :=
  match l with
  | [] => [x]
  | y :: l' => if before y x then y :: insertBy before x l' else x :: l
  end.

Definition sortBy (before : nat -> nat -> bool) (l : list nat) : list nat :=
  fold_right (insertBy before) [] l.

Definition bareServices : AR_SERVICES :=
  mkServices clearMatrix specMatrixSize clearMatrix (fun _ m => m)
    stampRectangle (fun _ _ _ m => m) (fun _ _ _ _ _ _ _ m => m)
    (fun _ _ => 0) sortBy 250000.

(** A placer at the default pitch of 1 mm, without progress reporter. *)
Definition placerOn (b : BOARD) : AR_AUTOPLACER :=
  mkPlacer b (mkMatrix (mkRect (mkPoint 0 0) (mkPoint 0 0)) 0 0 0 0
                (fun _ _ _ => 0) (fun _ _ _ => 0))
    (mkPoint 0 0) 0%float 1000000 None [].

(** A footprint without pads whose rectangle measures [w] x [h] at its
    orientation and every half turn from it, and [h] x [w] a quarter turn
    away; it lies off the board at (20 mm, 20 mm). *)
Definition boxShape (w h : Z) (pos : wxPoint) (orient : Z) : FP_GEOMETRY :=
  let '(w, h) := if Z.rem orient 1800 =? 0 then (w, h) else (h, w) in
  let r := mkRect (mkPoint (px pos - w / 2) (py pos - h / 2)) (mkPoint w h) in
  mkGeometry r r [].

Definition boxFp (w h rot90 rot180 : Z) : MODULE :=
  mkModule (mkPoint 20000000 20000000) 0 F_Cu rot90 rot180 false false 0 (boxShape w h).

(** A board of 4 mm x 4 mm with one footprint of 10 mm x 10 mm that may not
    be rotated. *)
Definition smallBoard : BOARD :=
  mkBoard [boxFp 10000000 10000000 0 0]
    (mkRect (mkPoint 0 0) (mkPoint 4000000 4000000))
    (rectOutline 0 0 4000000 4000000).

(** A board of 8 mm x 4 mm with one footprint of 6 mm x 1 mm whose half
    turn is forbidden (class 0) and whose quarter turn is free (class 10). *)
Definition wideBoard : BOARD :=
  mkBoard [boxFp 6000000 1000000 10 0]
    (mkRect (mkPoint 0 0) (mkPoint 8000000 4000000))
    (rectOutline 0 0 8000000 4000000).

(** A board whose edges have no height. *)
Definition flatBoard : BOARD :=
  mkBoard [boxFp 3000000 1000000 10 0]
    (mkRect (mkPoint 0 0) (mkPoint 8000000 0))
    (rectOutline 0 0 8000000 0).

(** The placer on [wideBoard] when the placement loop is entered: the matrix
    is built and the footprint flagged. *)
Definition widePrepared : AR_AUTOPLACER :=
  prepareRun bareServices
    (snd (genPlacementRoutingMatrix bareServices
            (set_matrix (placerOn wideBoard)
                        (set_GridRouting (m_matrix (placerOn wideBoard)) 1000000))))
    [0%nat] false.

(** The footprint of [wideBoard] as the loop picks it. *)
Definition wideFp : MODULE := SetNeedsPlaced (boxFp 6000000 1000000 10 0) true.

(** Three footprints with a pad on net 1 on a horizontal line inside
    [boardBox]: at (50,50), and at (60,50) and (40,50), both 10 units from
    the first. *)
Definition tieBoard : list MODULE := [onePadFp 50 50 1; onePadFp 60 50 1; onePadFp 40 50 1].

(** An outline with a slanted side, from (11,59) to (10,10), that the scan
    line y = 10 meets at its lower end. *)
Definition slantOutline : list wxPoint := [mkPoint 11 59; mkPoint 10 10; mkPoint 60 10].

(** What the segments could leave in [x_coordinates]: three points on the
    scan line 20 and two on every other one. *)
Definition oddAt20 (refy : Z) : list Z := if refy =? 20 then [0; 10; 25] else [0; 25].

(** * Properties *)

(** ** Loops *)

Lemma for_lt_fuel (step : Z) :
  0 < step ->
  forall fuel1 fuel2 i limit,
    (Z.to_nat (limit - i) <= fuel1)%nat ->
    (Z.to_nat (limit - i) <= fuel2)%nat ->
    for_lt fuel1 i limit step = for_lt fuel2 i limit step.
Proof.
  intros Hs fuel1; induction fuel1 as [|fuel1 IH]; intros fuel2 i limit H1 H2.
  - destruct fuel2 as [|fuel2]; [reflexivity|]. simpl.
    destruct (i <? limit) eqn:E; [|reflexivity].
    apply Z.ltb_lt in E. lia.
  - simpl. destruct (i <? limit) eqn:E.
    + pose proof (proj1 (Z.ltb_lt i limit) E) as E'.
      destruct fuel2 as [|fuel2]; [lia|].
      simpl. rewrite E. f_equal. apply IH; lia.
    + destruct fuel2 as [|fuel2]; [reflexivity|]. simpl. rewrite E. reflexivity.
Qed.

Lemma for_lt_enough (step : Z) :
  0 < step ->
  forall fuel i limit,
    (Z.to_nat (limit - i) <= fuel)%nat ->
    for_lt fuel i limit step = for_range i limit step.
Proof.
  intros Hs fuel i limit Hf. unfold for_range. apply for_lt_fuel; lia.
Qed.

Lemma for_range_nil (start limit step : Z) :
  limit <= start -> for_range start limit step = [].
Proof.
  intros H. unfold for_range.
  replace (Z.to_nat (limit - start)) with 0%nat by lia. reflexivity.
Qed.

Lemma for_range_cons (start limit step : Z) :
  0 < step -> start < limit ->
  for_range start limit step = start :: for_range (start + step) limit step.
Proof.
  intros Hs H. unfold for_range.
  destruct (Z.to_nat (limit - start)) as [|n] eqn:En; [lia|].
  simpl. rewrite (proj2 (Z.ltb_lt start limit) H). f_equal.
  apply for_lt_enough; lia.
Qed.

(** The loop visits exactly the values [start + k * step] below [limit]. *)
Lemma for_range_In (step : Z) :
  0 < step ->
  forall start limit v,
    In v (for_range start limit step) <->
    exists k, 0 <= k /\ v = start + k * step /\ v < limit.
Proof.
  intros Hs start limit.
  assert (En : (Z.to_nat (limit - start) <= Z.to_nat (limit - start))%nat) by lia.
  revert En. generalize (Z.to_nat (limit - start)) at 2. intros n.
  revert start; induction n as [|n IH]; intros start En v.
  - assert (Hle : limit <= start) by lia.
    rewrite for_range_nil by lia. split; [intros []|].
    intros (k & Hk & -> & Hv). assert (0 <= k * step) by nia. lia.
  - destruct (Z_lt_le_dec start limit) as [Hlt | Hle].
    2:{ rewrite for_range_nil by lia. split; [intros []|].
        intros (k & Hk & -> & Hv). assert (0 <= k * step) by nia. lia. }
    rewrite for_range_cons by lia. simpl.
    destruct (Z_lt_le_dec (start + step) limit) as [Hin | Hout].
    + rewrite IH by lia. split.
      * intros [<- | (k & Hk & -> & Hv)].
        -- exists 0. lia.
        -- exists (k + 1). split; [lia|]. split; [ring|lia].
      * intros (k & Hk & -> & Hv).
        destruct (Z.eq_dec k 0) as [-> | Hk0]; [left; ring|].
        right. exists (k - 1). split; [lia|]. split; [ring|lia].
    + rewrite for_range_nil by lia. split.
      * intros [<- | []]. exists 0. lia.
      * intros (k & Hk & -> & Hv).
        destruct (Z.eq_dec k 0) as [-> | Hk0]; [left; ring|].
        assert (step <= k * step) by nia. lia.
Qed.

Lemma for_range_In_1 (start limit v : Z) :
  In v (for_range start limit 1) <-> start <= v < limit.
Proof.
  rewrite for_range_In by lia. split.
  - intros (k & Hk & -> & Hv). lia.
  - intros H. exists (v - start). lia.
Qed.

(** ** Doubles

    The primitive operations are specified by the library ([Prim2SF] and
    the statements of [FloatAxioms]); what follows is derived from that
    specification. *)

(** *** The order of the doubles *)

Lemma SFcompare_key (x y : spec_float) :
  SFcompare x y =
  match SFkey x, SFkey y with
  | Some a, Some b => Some (keyCompare a b)
  | _, _ => None
  end.
Proof.
  destruct x as [sx | sx | | sx mx ex], y as [sy | sy | | sy my ey];
    try destruct sx; try destruct sy; try reflexivity.
  cbn -[Z.compare Z.opp]. rewrite Z.compare_opp, (Z.compare_antisym ex ey).
  destruct (ex ?= ey); reflexivity.
Qed.

Lemma keyCompare_spec (a1 a2 a3 b1 b2 b3 : Z) :
  match keyCompare (a1, a2, a3) (b1, b2, b3) with
  | Lt => a1 < b1 \/ (a1 = b1 /\ (a2 < b2 \/ (a2 = b2 /\ a3 < b3)))
  | Eq => a1 = b1 /\ a2 = b2 /\ a3 = b3
  | Gt => b1 < a1 \/ (a1 = b1 /\ (b2 < a2 \/ (a2 = b2 /\ b3 < a3)))
  end.
Proof.
  unfold keyCompare.
  destruct (Z.compare_spec a1 b1); [|lia|lia].
  destruct (Z.compare_spec a2 b2); [|lia|lia].
  destruct (Z.compare_spec a3 b3); lia.
Qed.

(** Brings the comparisons of doubles of the context and of the goal to
    their keys. *)
Ltac double_keys :=
  rewrite ?ltb_spec, ?leb_spec in *;
  unfold SFltb, SFleb in *;
  rewrite ?SFcompare_key in *;
  repeat match goal with
         | H : context [SFkey ?x] |- _ => destruct (SFkey x) as [[[? ?] ?]|]
         | |- context [SFkey ?x] => destruct (SFkey x) as [[[? ?] ?]|]
         end;
  try discriminate;
  repeat match goal with
         | H : context [keyCompare (?a1, ?a2, ?a3) (?b1, ?b2, ?b3)] |- _ =>
             let S := fresh "S" in
             pose proof (keyCompare_spec a1 a2 a3 b1 b2 b3) as S;
             destruct (keyCompare (a1, a2, a3) (b1, b2, b3))
         | |- context [keyCompare (?a1, ?a2, ?a3) (?b1, ?b2, ?b3)] =>
             let S := fresh "S" in
             pose proof (keyCompare_spec a1 a2 a3 b1 b2 b3) as S;
             destruct (keyCompare (a1, a2, a3) (b1, b2, b3))
         end;
  try discriminate; try reflexivity; try (exfalso; lia).

Lemma double_ltb_irrefl (x : float) : PrimFloat.ltb x x = false.
Proof. double_keys. Qed.

Lemma double_ltb_trans (x y z : float) :
  PrimFloat.ltb x y = true -> PrimFloat.ltb y z = true -> PrimFloat.ltb x z = true.
Proof. intros H1 H2. double_keys. Qed.

Lemma double_leb_trans (x y z : float) :
  PrimFloat.leb x y = true -> PrimFloat.leb y z = true -> PrimFloat.leb x z = true.
Proof. intros H1 H2. double_keys. Qed.

Lemma double_ltb_leb_trans (x y z : float) :
  PrimFloat.ltb x y = true -> PrimFloat.leb y z = true -> PrimFloat.ltb x z = true.
Proof. intros H1 H2. double_keys. Qed.

Lemma double_leb_ltb_trans (x y z : float) :
  PrimFloat.leb x y = true -> PrimFloat.ltb y z = true -> PrimFloat.ltb x z = true.
Proof. intros H1 H2. double_keys. Qed.

Lemma double_ltb_leb (x y : float) : PrimFloat.ltb x y = true -> PrimFloat.leb x y = true.
Proof. intros H. double_keys. Qed.

(** Two numbers that are not negative compare one way or the other. *)
Lemma double_leb_total (x y : float) :
  nonnegDouble x = true -> nonnegDouble y = true ->
  PrimFloat.leb x y = false -> PrimFloat.ltb y x = true.
Proof. unfold nonnegDouble. intros Hx Hy H. double_keys. Qed.

Lemma double_leb_refl (x : float) : nonnegDouble x = true -> PrimFloat.leb x x = true.
Proof. unfold nonnegDouble. intros Hx. double_keys. Qed.

Lemma nonnegDouble_not_negative (x : float) :
  nonnegDouble x = true -> PrimFloat.ltb x 0%float = false.
Proof. unfold nonnegDouble. intros Hx. double_keys. Qed.

Lemma nonnegDouble_above_negative (c x : float) :
  PrimFloat.ltb c 0%float = true -> nonnegDouble x = true -> PrimFloat.ltb c x = true.
Proof. unfold nonnegDouble. intros Hc Hx. exact (double_ltb_leb_trans c 0%float x Hc Hx). Qed.

(** *** Numbers that are not negative *)

Lemma nonnegDouble_spec (x : float) : nonnegDouble x = true <-> SFnonneg (Prim2SF x).
Proof.
  unfold nonnegDouble. rewrite leb_spec.
  change (Prim2SF 0%float) with (S754_zero false).
  destruct (Prim2SF x) as [s | s | | s m e]; try destruct s; simpl;
    split; intros H; try reflexivity; try discriminate; try exact I; try contradiction.
Qed.

Lemma SFsigned_nonneg (x : spec_float) : SFsigned false x -> SFnonneg x.
Proof. destruct x; simpl; auto. Qed.

Lemma shr_1_nonneg (mrs : shr_record) : 0 <= shr_m mrs -> 0 <= shr_m (shr_1 mrs).
Proof.
  destruct mrs as [m r s]. destruct m as [|p|p]; simpl; intros H; [lia| |lia].
  destruct p; simpl; lia.
Qed.

Lemma iter_shr_1_nonneg (p : positive) :
  forall mrs, 0 <= shr_m mrs -> 0 <= shr_m (SpecFloat.iter_pos shr_1 p mrs).
Proof.
  induction p as [p IH | p IH |]; intros mrs H; simpl.
  - apply IH, IH, shr_1_nonneg, H.
  - apply IH, IH, H.
  - apply shr_1_nonneg, H.
Qed.

Lemma shr_fexp_nonneg (m e : Z) (l : location) :
  0 <= m -> 0 <= shr_m (fst (shr_fexp prec emax m e l)).
Proof.
  intros H. unfold shr_fexp, shr.
  assert (H0 : 0 <= shr_m (shr_record_of_loc m l)) by (destruct l as [|[]]; exact H).
  destruct (fexp prec emax (Zdigits2 m + e) - e) as [|p|p]; simpl; try exact H0.
  apply iter_shr_1_nonneg, H0.
Qed.

(** Rounding keeps the sign and gives no NaN. *)
Lemma binary_round_aux_signed (sx : bool) (mx ex : Z) (lx : location) :
  0 <= mx -> SFsigned sx (binary_round_aux prec emax sx mx ex lx).
Proof.
  intros H. unfold binary_round_aux.
  pose proof (shr_fexp_nonneg mx ex lx H) as H1.
  destruct (shr_fexp prec emax mx ex lx) as [mrs' e']. simpl in H1.
  assert (H2 : 0 <= round_nearest_even (shr_m mrs') (loc_of_shr_record mrs')).
  { unfold round_nearest_even. destruct (loc_of_shr_record mrs') as [|[]];
      try destruct (Z.even (shr_m mrs')); lia. }
  pose proof (shr_fexp_nonneg _ e' loc_Exact H2) as H3.
  destruct (shr_fexp prec emax _ e' loc_Exact) as [mrs'' e'']. simpl in H3.
  destruct (shr_m mrs'') as [|p|p]; [reflexivity | | lia].
  destruct (e'' <=? emax - prec); reflexivity.
Qed.

Lemma binary_round_signed (sx : bool) (mx : positive) (ex : Z) :
  SFsigned sx (binary_round prec emax sx mx ex).
Proof.
  unfold binary_round. destruct (shl_align _ _ _) as [mz ez].
  apply binary_round_aux_signed. lia.
Qed.

Lemma SFadd_nonneg (x y : spec_float) :
  SFnonneg x -> SFnonneg y -> SFnonneg (SFadd prec emax x y).
Proof.
  destruct x as [sx | sx | | sx mx ex], y as [sy | sy | | sy my ey]; simpl;
    intros Hx Hy; subst; try exact I; try reflexivity; try contradiction.
  - destruct sx, sy; exact I.
  - apply SFsigned_nonneg.
    change (SFsigned false
              (binary_round prec emax false
                 (fst (shl_align mx ex (Z.min ex ey)) + fst (shl_align my ey (Z.min ex ey)))
                 (Z.min ex ey))).
    apply binary_round_signed.
Qed.

Lemma SFmul_nonneg (x : spec_float) (m : positive) (e : Z) :
  SFnonneg x -> SFnonneg (SFmul prec emax x (S754_finite false m e)).
Proof.
  destruct x as [sx | sx | | sx mx ex]; simpl; intros Hx; subst;
    try exact I; try reflexivity; try contradiction.
  apply SFsigned_nonneg, binary_round_aux_signed. lia.
Qed.

Lemma SFmul_self_nonneg (x : spec_float) :
  SFnonneg x -> SFnonneg (SFmul prec emax x x).
Proof.
  destruct x as [sx | sx | | sx mx ex]; simpl; intros Hx; subst;
    try exact I; try reflexivity; try contradiction.
  apply SFsigned_nonneg, binary_round_aux_signed. lia.
Qed.

Lemma SFsqrt_nonneg (x : spec_float) : SFnonneg x -> SFnonneg (SFsqrt prec emax x).
Proof.
  destruct x as [sx | sx | | sx mx ex]; simpl; intros Hx; subst;
    try exact I; try reflexivity; try contradiction.
  unfold SFsqrt_core_binary.
  set (m' := match _ - _ with Z0 => _ | Zpos _ => _ | Zneg _ => _ end).
  pose proof (Z.sqrtrem_spec m') as Hs. pose proof (Z.sqrt_nonneg m') as Hq.
  rewrite <- (Z.sqrtrem_sqrt m') in Hq.
  destruct (Z.sqrtrem m') as [q r]. simpl in Hq.
  apply SFsigned_nonneg, binary_round_aux_signed, Hq.
Qed.

(** Sums, products by a positive number, squares and square roots of
    numbers that are not negative are numbers that are not negative. *)
Lemma nonnegDouble_add (x y : float) :
  nonnegDouble x = true -> nonnegDouble y = true -> nonnegDouble (PrimFloat.add x y) = true.
Proof.
  rewrite !nonnegDouble_spec, add_spec. apply SFadd_nonneg.
Qed.

Lemma nonnegDouble_mul (x c : float) :
  nonnegDouble x = true -> positiveDouble c = true ->
  nonnegDouble (PrimFloat.mul x c) = true.
Proof.
  rewrite !nonnegDouble_spec, mul_spec. unfold positiveDouble.
  destruct (Prim2SF c) as [s | s | | s m e]; try discriminate.
  destruct s; [discriminate|]. intros Hx _. apply SFmul_nonneg, Hx.
Qed.

Lemma nonnegDouble_square (x : float) :
  nonnegDouble x = true -> nonnegDouble (PrimFloat.mul x x) = true.
Proof. rewrite !nonnegDouble_spec, mul_spec. apply SFmul_self_nonneg. Qed.

Lemma nonnegDouble_sqrt (x : float) :
  nonnegDouble x = true -> nonnegDouble (PrimFloat.sqrt x) = true.
Proof. rewrite !nonnegDouble_spec, sqrt_spec. apply SFsqrt_nonneg. Qed.

Lemma nonnegDouble_of_int (z : Z) : 0 <= z -> nonnegDouble (double_of_int z) = true.
Proof.
  intros H. rewrite nonnegDouble_spec. unfold double_of_int.
  rewrite (proj2 (Z.ltb_ge z 0) H), of_uint63_spec.
  pose proof (Uint63.to_Z_bounded (Uint63.of_Z z)) as Hb.
  destruct (Uint63.to_Z (Uint63.of_Z z)) as [|p|p]; [exact I | | lia].
  apply SFsigned_nonneg, binary_round_signed.
Qed.

(** *** The cost of the ratsnest is a number that is not negative *)

Lemma hypot_double_nonneg (x y : float) :
  nonnegDouble x = true -> nonnegDouble y = true -> nonnegDouble (hypot_double x y) = true.
Proof.
  intros Hx Hy. unfold hypot_double.
  apply nonnegDouble_sqrt, nonnegDouble_add; apply nonnegDouble_square; assumption.
Qed.

Lemma connCost_double_nonneg (a b : wxPoint) : nonnegDouble (connCost_double a b) = true.
Proof.
  unfold connCost_double. apply hypot_double_nonneg.
  - apply nonnegDouble_of_int. destruct (_ <? _); simpl; lia.
  - apply nonnegDouble_mul; [|reflexivity].
    apply nonnegDouble_of_int. destruct (_ <? _); simpl; lia.
Qed.

Lemma computePlacementRatsnestCost_double_nonneg (brd : list MODULE) (box : EDA_RECT)
    (i : nat) (fp : MODULE) (off : wxPoint) :
  nonnegDouble (computePlacementRatsnestCost_double brd box i fp off) = true.
Proof.
  unfold computePlacementRatsnestCost_double.
  assert (H : forall pads acc, nonnegDouble acc = true ->
    nonnegDouble
      (fold_left
         (fun curr_cost pad =>
            match nearestPad brd box i pad off with
            | None => curr_cost
            | Some nearest =>
                PrimFloat.add curr_cost
                              (connCost_double (pt_sub (pad_Pos pad) off) (pad_Pos nearest))
            end) pads acc) = true).
  { induction pads as [|pad pads IH]; intros acc Hacc; simpl; [assumption|].
    apply IH. destruct (nearestPad brd box i pad off) as [n|]; [|assumption].
    apply nonnegDouble_add; [assumption | apply connCost_double_nonneg]. }
  apply H. reflexivity.
Qed.

(** *** The penalties of the orientations *)

Lemma orientationPenalty_cases (rotAllowed : Z) :
  In (orientationPenalty rotAllowed) (1%float :: OrientationPenalty).
Proof.
  unfold orientationPenalty.
  destruct (nth_in_or_default (Z.to_nat rotAllowed) OrientationPenalty 1%float) as [H | ->];
    [right; exact H | left; reflexivity].
Qed.

(** Every penalty is a positive number, and -1 times a penalty is
    negative. *)
Lemma orientationPenalty_positive (rotAllowed : Z) :
  positiveDouble (orientationPenalty rotAllowed) = true /\
  PrimFloat.ltb (PrimFloat.mul (-1)%float (orientationPenalty rotAllowed)) 0%float = true.
Proof.
  assert (H : Forall (fun c => positiveDouble c = true /\
                               PrimFloat.ltb (PrimFloat.mul (-1)%float c) 0%float = true)
                     (1%float :: OrientationPenalty))
    by (repeat constructor).
  rewrite Forall_forall in H. apply H, orientationPenalty_cases.
Qed.

(** ** Candidate evaluator *)

Lemma cellVerdict_cases (d : Z) :
  (cellVerdict d = None /\ freeCell d) \/
  (cellVerdict d = Some AR_OUT_OF_BOARD /\ hasZone d = false) \/
  (cellVerdict d = Some AR_OCCUIPED_BY_MODULE /\ hasZone d = true /\ hasModule d = true).
Proof.
  unfold cellVerdict, freeCell, hasZone, hasModule.
  destruct (Z.land d CELL_IS_ZONE =? 0); simpl; [right; left; auto|].
  destruct (Z.land d CELL_IS_MODULE =? 0); simpl; [left; auto | right; right; auto].
Qed.

Lemma firstVerdict_app (a b : list Z) :
  firstVerdict (a ++ b) =
  match firstVerdict a with Some v => Some v | None => firstVerdict b end.
Proof.
  induction a as [|d a IH]; simpl; [reflexivity|].
  destruct (cellVerdict d); [reflexivity | exact IH].
Qed.

Lemma scanCols_firstVerdict (m : AR_MATRIX) (side : AR_SIDE) (row : Z) (cols : list Z) :
  scanCols m side row cols =
  firstVerdict (map (fun rc => GetCell m (fst rc) (snd rc) side)
                    (map (fun col => (row, col)) cols)).
Proof.
  induction cols as [|col cols IH]; simpl; [reflexivity|].
  destruct (cellVerdict (GetCell m row col side)); [reflexivity | exact IH].
Qed.

Lemma scanRows_firstVerdict (m : AR_MATRIX) (side : AR_SIDE) (rows cols : list Z) :
  scanRows m side rows cols =
  firstVerdict (map (fun rc => GetCell m (fst rc) (snd rc) side)
                    (flat_map (fun row => map (fun col => (row, col)) cols) rows)).
Proof.
  induction rows as [|row rows IH]; simpl; [reflexivity|].
  rewrite map_app, firstVerdict_app, <- scanCols_firstVerdict.
  destruct (scanCols m side row cols); [reflexivity | exact IH].
Qed.

Lemma testRectangle_firstVerdict (m : AR_MATRIX) (aRect : EDA_RECT) (side : AR_SIDE) :
  testRectangle m aRect side =
  match firstVerdict (coveredData m aRect side) with
  | Some v => v
  | None => AR_FREE_CELL
  end.
Proof.
  unfold testRectangle, coveredData, coveredCells.
  destruct (inflatedRange m aRect) as [[[row_min row_max] col_min] col_max].
  rewrite scanRows_firstVerdict. reflexivity.
Qed.

Lemma firstVerdict_None (data : list Z) :
  firstVerdict data = None <-> Forall freeCell data.
Proof.
  induction data as [|d data IH]; simpl.
  - split; [constructor | reflexivity].
  - destruct (cellVerdict_cases d) as [[E F] | [[E F] | [E [F G]]]]; rewrite E.
    + rewrite IH. split; [intros H; constructor; assumption | intros H; inversion H; assumption].
    + split; [discriminate|]. intros H; inversion H as [|? ? [Hz _] _]; congruence.
    + split; [discriminate|]. intros H; inversion H as [|? ? [_ Hm] _]; congruence.
Qed.

(** [firstVerdict] answers [v] exactly when the first cell that is not free
    decides [v]. *)
Lemma firstVerdict_Some (data : list Z) (v : Z) :
  firstVerdict data = Some v <->
  exists l1 d l2, data = l1 ++ d :: l2 /\ Forall freeCell l1 /\ cellVerdict d = Some v.
Proof.
  induction data as [|d data IH]; simpl.
  - split; [discriminate|]. intros (l1 & d & l2 & E & _). destruct l1; discriminate.
  - destruct (cellVerdict d) as [w|] eqn:E.
    + split.
      * intros H. exists [], d, data. repeat split; [constructor | congruence].
      * intros (l1 & d' & l2 & E' & Hf & Hv). destruct l1 as [|x l1]; simpl in E'.
        -- congruence.
        -- injection E' as -> _. inversion Hf as [|? ? Hx _]; subst.
           destruct (cellVerdict_cases x) as [[E1 _] | [[E1 F] | [E1 [_ F]]]];
             destruct Hx; congruence.
    + rewrite IH. split.
      * intros (l1 & d' & l2 & -> & Hf & Hv). exists (d :: l1), d', l2.
        repeat split; [|assumption]. constructor; [|assumption].
        destruct (cellVerdict_cases d) as [[_ F] | [[E1 _] | [E1 _]]]; congruence.
      * intros (l1 & d' & l2 & E' & Hf & Hv). destruct l1 as [|x l1]; simpl in E'.
        -- injection E' as -> _. congruence.
        -- injection E' as -> ->. exists l1, d', l2.
           repeat split; [inversion Hf|]; assumption.
Qed.

(** The range scanned is clamped to the grid: every covered cell is a cell
    of the matrix. *)
Lemma coveredCells_in_grid (m : AR_MATRIX) (aRect : EDA_RECT) :
  Forall (fun rc => 0 <= fst rc <= m_Nrows m - 1 /\ 0 <= snd rc <= m_Ncols m - 1)
         (coveredCells m aRect).
Proof.
  apply Forall_forall. intros [r c] H. unfold coveredCells in H.
  destruct (inflatedRange m aRect) as [[[row_min row_max] col_min] col_max] eqn:E.
  apply in_flat_map in H. destruct H as (row & Hr & Hc).
  apply in_map_iff in Hc. destruct Hc as (col & Hrc & Hc). injection Hrc as <- <-.
  apply for_range_In_1 in Hr. apply for_range_In_1 in Hc.
  unfold inflatedRange, cellRange in E. injection E as <- <- <- <-. simpl.
  repeat match goal with
         | H : context [if ?b then _ else _] |- _ => destruct b eqn:?
         end; lia.
Qed.

(** C5, as the code has it: [testRectangle] inflates the rectangle by half
    the grid pitch, scans the cells of the clamped row and column range row
    by row, and answers with the first cell that is not free: [outOfBoard]
    if that cell lacks [insideBoardZone], [occupiedByUnit] if it is inside
    the zone and occupied; it answers [legal] when every covered cell is
    inside the zone and unoccupied.  The covered cells are cells of the
    matrix. *)
Theorem testRectangle_first_cell_decides (m : AR_MATRIX) (aRect : EDA_RECT) (side : AR_SIDE) :
  Forall (fun rc => 0 <= fst rc <= m_Nrows m - 1 /\ 0 <= snd rc <= m_Ncols m - 1)
         (coveredCells m aRect) /\
  (testRectangle m aRect side = AR_FREE_CELL <->
   Forall freeCell (coveredData m aRect side)) /\
  (testRectangle m aRect side = AR_OUT_OF_BOARD <->
   exists l1 d l2, coveredData m aRect side = l1 ++ d :: l2 /\
                   Forall freeCell l1 /\ hasZone d = false) /\
  (testRectangle m aRect side = AR_OCCUIPED_BY_MODULE <->
   exists l1 d l2, coveredData m aRect side = l1 ++ d :: l2 /\
                   Forall freeCell l1 /\ hasZone d = true /\ hasModule d = true).
Proof.
  rewrite testRectangle_firstVerdict.
  assert (Hv : forall v, firstVerdict (coveredData m aRect side) = Some v ->
                         v = AR_OUT_OF_BOARD \/ v = AR_OCCUIPED_BY_MODULE).
  { intros v H. apply firstVerdict_Some in H. destruct H as (l1 & d & l2 & _ & _ & H).
    destruct (cellVerdict_cases d) as [[E _] | [[E _] | [E _]]]; rewrite E in H;
      [discriminate | left | right]; congruence. }
  split; [apply coveredCells_in_grid|].
  split; [|split].
  - rewrite <- firstVerdict_None.
    destruct (firstVerdict (coveredData m aRect side)) as [v|] eqn:E.
    + destruct (Hv v eq_refl) as [-> | ->]; split; discriminate.
    + split; reflexivity.
  - split.
    + intros H. destruct (firstVerdict (coveredData m aRect side)) as [v|] eqn:E;
        [|discriminate].
      subst v. apply firstVerdict_Some in E. destruct E as (l1 & d & l2 & E1 & Hf & Hd).
      exists l1, d, l2. repeat split; try assumption.
      destruct (cellVerdict_cases d) as [[E _] | [[E F] | [E _]]]; rewrite E in Hd;
        [discriminate | assumption | discriminate].
    + intros (l1 & d & l2 & E1 & Hf & Hd).
      assert (E : firstVerdict (coveredData m aRect side) = Some AR_OUT_OF_BOARD).
      { apply firstVerdict_Some. exists l1, d, l2. repeat split; try assumption.
        destruct (cellVerdict_cases d) as [[_ [F _]] | [[E _] | [_ [F _]]]]; congruence. }
      rewrite E. reflexivity.
  - split.
    + intros H. destruct (firstVerdict (coveredData m aRect side)) as [v|] eqn:E;
        [|discriminate].
      subst v. apply firstVerdict_Some in E. destruct E as (l1 & d & l2 & E1 & Hf & Hd).
      exists l1, d, l2. repeat split; try assumption;
      destruct (cellVerdict_cases d) as [[E _] | [[E F] | [E [F G]]]]; rewrite E in Hd;
        try discriminate; assumption.
    + intros (l1 & d & l2 & E1 & Hf & Hz & Hm).
      assert (E : firstVerdict (coveredData m aRect side) = Some AR_OCCUIPED_BY_MODULE).
      { apply firstVerdict_Some. exists l1, d, l2. repeat split; try assumption.
        destruct (cellVerdict_cases d) as [[_ [_ F]] | [[_ F] | [E _]]]; congruence. }
      rewrite E. reflexivity.
Qed.

(** C5, as the specification words it, fails on [edgeMatrix]: the first cell
    scanned is occupied and the second lies outside the board zone, so the
    code answers [occupiedByUnit] where "outOfBoard if any cell lacks
    insideBoardZone" asks for [outOfBoard]. *)
Lemma testRectangle_not_zone_first :
  coveredData edgeMatrix edgeRect AR_SIDE_TOP = [130; 0] /\
  testRectangle edgeMatrix edgeRect AR_SIDE_TOP = AR_OCCUIPED_BY_MODULE /\
  testRectangle_spec edgeMatrix edgeRect AR_SIDE_TOP = AR_OUT_OF_BOARD.
Proof. vm_compute. repeat split; reflexivity. Qed.

(** ** Placement search *)

Lemma fold_left_flat_map {A B S : Type} (f : S -> B -> S) (g : A -> list B)
    (l : list A) (s : S) :
  fold_left f (flat_map g l) s = fold_left (fun s a => fold_left f (g a) s) l s.
Proof.
  revert s; induction l as [|a l IH]; intros s; simpl; [reflexivity|].
  rewrite fold_left_app. apply IH.
Qed.

(** An invariant of a fold that speaks of the elements folded so far. *)
Lemma fold_left_prefix_invariant {A S : Type} (f : S -> A -> S) (P : S -> list A -> Prop)
    (s0 : S) :
  P s0 [] ->
  (forall s l a, P s l -> P (f s a) (l ++ [a])) ->
  forall l, P (fold_left f l s0) l.
Proof.
  intros H0 Hstep l. induction l as [|a l IH] using rev_ind; [exact H0|].
  rewrite fold_left_app. simpl. apply Hstep, IH.
Qed.

Lemma fold_left_over_map {A B S : Type} (f : S -> B -> S) (g : A -> B) (l : list A) (s : S) :
  fold_left f (map g l) s = fold_left (fun s a => f s (g a)) l s.
Proof.
  revert s; induction l as [|a l IH]; intros s; simpl; [reflexivity | apply IH].
Qed.

Lemma fold_left_pointwise {A S : Type} (f g : S -> A -> S) (l : list A) (s : S) :
  (forall s a, f s a = g s a) -> fold_left f l s = fold_left g l s.
Proof.
  intros H. revert s; induction l as [|a l IH]; intros s; simpl; [reflexivity|].
  rewrite H. apply IH.
Qed.

Lemma searchLoopsWith_candidates (ratsnestCost : wxPoint -> PrimFloat.float)
    (m : AR_MATRIX) (fp : MODULE) (s : SEARCH) :
  searchLoopsWith ratsnestCost m fp s
  = fold_left (tryPositionWith ratsnestCost m fp) (candidates m fp) s.
Proof.
  unfold searchLoopsWith, candidates. rewrite fold_left_flat_map.
  apply fold_left_pointwise. intros s' x. rewrite fold_left_over_map. reflexivity.
Qed.

Lemma scoreWith_nonneg (ratsnestCost : wxPoint -> PrimFloat.float) (m : AR_MATRIX)
    (fp : MODULE) (pos : wxPoint) :
  (forall off, nonnegDouble (ratsnestCost off) = true) ->
  legalAt m fp pos = true -> nonnegDouble (scoreWith ratsnestCost m fp pos) = true.
Proof.
  unfold legalAt, scoreWith. intros Hc H. apply Z.geb_le in H.
  apply nonnegDouble_add; [apply Hc | apply nonnegDouble_of_int, H].
Qed.

Lemma scoreAt_nonneg (brd : list MODULE) (m : AR_MATRIX) (i : nat) (fp : MODULE)
    (pos : wxPoint) :
  legalAt m fp pos = true -> nonnegDouble (scoreAt brd m i fp pos) = true.
Proof.
  apply scoreWith_nonneg. intros off. apply computePlacementRatsnestCost_double_nonneg.
Qed.

Lemma tryPosition_illegal (ratsnestCost : wxPoint -> PrimFloat.float) (m : AR_MATRIX)
    (fp : MODULE) (s : SEARCH) (pos : wxPoint) :
  legalAt m fp pos = false -> tryPositionWith ratsnestCost m fp s pos = s.
Proof. unfold tryPositionWith, legalAt. intros ->. reflexivity. Qed.

Lemma tryPosition_replace (ratsnestCost : wxPoint -> PrimFloat.float) (m : AR_MATRIX)
    (fp : MODULE) (s : SEARCH) (pos : wxPoint) :
  legalAt m fp pos = true ->
  PrimFloat.leb (scoreWith ratsnestCost m fp pos) (s_min_cost s) = true \/
  PrimFloat.ltb (s_min_cost s) 0%float = true ->
  tryPositionWith ratsnestCost m fp s pos = mkSearch 0 pos (scoreWith ratsnestCost m fp pos).
Proof.
  unfold tryPositionWith, legalAt. intros -> [H | H]; rewrite H;
    [reflexivity | rewrite orb_true_r; reflexivity].
Qed.

Lemma tryPosition_keep (ratsnestCost : wxPoint -> PrimFloat.float) (m : AR_MATRIX)
    (fp : MODULE) (s : SEARCH) (pos : wxPoint) :
  legalAt m fp pos = true ->
  PrimFloat.leb (scoreWith ratsnestCost m fp pos) (s_min_cost s) = false ->
  PrimFloat.ltb (s_min_cost s) 0%float = false ->
  tryPositionWith ratsnestCost m fp s pos = mkSearch 0 (s_lastPosOK s) (s_min_cost s).
Proof. unfold tryPositionWith, legalAt. intros -> -> ->. reflexivity. Qed.

(** What the search holds after any number of trial positions, when the
    ratsnest cost is a number and is not negative. *)
Lemma search_outcome (ratsnestCost : wxPoint -> PrimFloat.float) (m : AR_MATRIX)
    (fp : MODULE) (l : list wxPoint) :
  (forall off, nonnegDouble (ratsnestCost off) = true) ->
  let s0 := mkSearch 1 (GetOrigin (m_BrdBox m)) (-1)%float in
  let s := fold_left (tryPositionWith ratsnestCost m fp) l s0 in
  (existsb (legalAt m fp) l = false /\ s = s0) \/
  (existsb (legalAt m fp) l = true /\ keepsLastMinimumWith ratsnestCost m fp l s).
Proof.
  intros Hc s0 s. subst s.
  apply (fold_left_prefix_invariant (tryPositionWith ratsnestCost m fp)
           (fun s l => (existsb (legalAt m fp) l = false /\ s = s0) \/
                       (existsb (legalAt m fp) l = true /\
                        keepsLastMinimumWith ratsnestCost m fp l s))).
  - left. split; reflexivity.
  - intros s l' a H. rewrite existsb_app. simpl. rewrite orb_false_r.
    destruct (legalAt m fp a) eqn:La.
    + right. rewrite orb_true_r. split; [reflexivity|].
      pose proof (scoreWith_nonneg ratsnestCost m fp a Hc La) as Ha.
      destruct H as [[Hnone ->] | [_ (l1 & best & l2 & -> & Lb & -> & H1 & H2)]].
      * rewrite tryPosition_replace by (try assumption; right; reflexivity).
        exists l', a, []. repeat split; try assumption; try reflexivity.
        -- intros q Hq Lq. exfalso.
           assert (existsb (legalAt m fp) l' = true)
             by (apply existsb_exists; exists q; split; assumption).
           congruence.
        -- intros q [].
      * pose proof (scoreWith_nonneg ratsnestCost m fp best Hc Lb) as Hb.
        destruct (PrimFloat.leb (scoreWith ratsnestCost m fp a)
                                (scoreWith ratsnestCost m fp best)) eqn:Hle.
        -- rewrite tryPosition_replace by (try assumption; left; exact Hle).
           exists (l1 ++ best :: l2), a, []. repeat split; try assumption; try reflexivity.
           ++ intros q Hq Lq. apply in_app_or in Hq. destruct Hq as [Hq | [<- | Hq]].
              ** exact (double_leb_trans _ _ _ Hle (H1 q Hq Lq)).
              ** exact Hle.
              ** exact (double_ltb_leb _ _ (double_leb_ltb_trans _ _ _ Hle (H2 q Hq Lq))).
           ++ intros q [].
        -- rewrite tryPosition_keep
             by (try assumption; apply nonnegDouble_not_negative; exact Hb).
           simpl.
           exists l1, best, (l2 ++ [a]). repeat split; try assumption.
           ++ rewrite <- app_assoc. reflexivity.
           ++ intros q Hq Lq. apply in_app_or in Hq. destruct Hq as [Hq | [<- | []]].
              ** exact (H2 q Hq Lq).
              ** apply double_leb_total; assumption.
    + rewrite orb_false_r. rewrite tryPosition_illegal by assumption.
      destruct H as [[Hnone ->] | [Hsome (l1 & best & l2 & -> & Lb & -> & H1 & H2)]].
      * left. split; [assumption | reflexivity].
      * right. split; [assumption|].
        exists l1, best, (l2 ++ [a]). repeat split; try assumption.
        -- rewrite <- app_assoc. reflexivity.
        -- intros q Hq Lq. apply in_app_or in Hq. destruct Hq as [Hq | [<- | []]].
           ++ exact (H2 q Hq Lq).
           ++ congruence.
Qed.

Lemma getOptimalFPPlacementWith_outcome (ratsnestCost : wxPoint -> PrimFloat.float)
    (m : AR_MATRIX) (fp : MODULE) :
  (forall off, nonnegDouble (ratsnestCost off) = true) ->
  let s0 := mkSearch 1 (GetOrigin (m_BrdBox m)) (-1)%float in
  let s := getOptimalFPPlacementWith ratsnestCost m fp in
  (existsb (legalAt m fp) (candidates m fp) = false /\ s = s0) \/
  (existsb (legalAt m fp) (candidates m fp) = true /\
   keepsLastMinimumWith ratsnestCost m fp (candidates m fp) s).
Proof.
  intros Hc. unfold getOptimalFPPlacementWith. rewrite searchLoopsWith_candidates.
  apply search_outcome, Hc.
Qed.

Lemma getOptimalFPPlacement_outcome (brd : list MODULE) (m : AR_MATRIX) (i : nat)
    (fp : MODULE) :
  let s0 := mkSearch 1 (GetOrigin (m_BrdBox m)) (-1)%float in
  let s := getOptimalFPPlacement brd m i fp in
  (existsb (legalAt m fp) (candidates m fp) = false /\ s = s0) \/
  (existsb (legalAt m fp) (candidates m fp) = true /\
   keepsLastMinimum brd m i fp (candidates m fp) s).
Proof.
  apply getOptimalFPPlacementWith_outcome. intros off.
  apply computePlacementRatsnestCost_double_nonneg.
Qed.

(** C10: [getOptimalFPPlacement] returns 0 if at least one trial position
    is legal and 1 otherwise; when it returns 1 it leaves the origin of the
    board box in [m_curPosition] and the negative value -1 in [m_minCost];
    it never returns [AR_ABORT_PLACEMENT]. *)
Theorem getOptimalFPPlacement_error_code (brd : list MODULE) (m : AR_MATRIX) (i : nat)
    (fp : MODULE) :
  let s := getOptimalFPPlacement brd m i fp in
  s_error s = (if existsb (legalAt m fp) (candidates m fp) then 0 else 1) /\
  (s_error s = 1 ->
   s_lastPosOK s = GetOrigin (m_BrdBox m) /\ s_min_cost s = (-1)%float /\
   PrimFloat.ltb (s_min_cost s) 0%float = true) /\
  s_error s <> AR_ABORT_PLACEMENT.
Proof.
  intros s. subst s.
  destruct (getOptimalFPPlacement_outcome brd m i fp)
    as [[E ->] | [E (l1 & best & l2 & _ & _ & -> & _)]]; rewrite E; simpl.
  - repeat split; try reflexivity; try discriminate.
  - repeat split; try discriminate.
Qed.

(** *** The positions the search tries *)

Lemma candidates_In (m : AR_MATRIX) (fp : MODULE) (pos : wxPoint) :
  0 < m_GridRouting m ->
  In pos (candidates m fp) <->
  exists kx ky,
    0 <= kx /\ 0 <= ky /\
    pos = mkPoint (px (initialPos m fp) + kx * m_GridRouting m)
                  (py (initialPos m fp) + ky * m_GridRouting m) /\
    px pos < px (xylimit m fp) /\ py pos < py (xylimit m fp).
Proof.
  intros Hg. unfold candidates. rewrite in_flat_map. split.
  - intros (x & Hx & Hy). apply in_map_iff in Hy. destruct Hy as (y & <- & Hy).
    apply (for_range_In _ Hg) in Hx. apply (for_range_In _ Hg) in Hy.
    destruct Hx as (kx & Hkx & -> & Hlx). destruct Hy as (ky & Hky & -> & Hly).
    exists kx, ky. repeat split; assumption.
  - intros (kx & ky & Hkx & Hky & -> & Hlx & Hly). simpl in Hlx, Hly.
    exists (px (initialPos m fp) + kx * m_GridRouting m). split.
    + apply (for_range_In _ Hg). exists kx. repeat split; assumption.
    + apply in_map_iff. exists (py (initialPos m fp) + ky * m_GridRouting m).
      split; [reflexivity|]. apply (for_range_In _ Hg). exists ky. repeat split; assumption.
Qed.

(** The limit of the loops, read on the footprint rectangle: a position is
    below the limit when the rectangle, moved there, ends strictly before
    the right and bottom edges of the box. *)
Lemma xylimit_trialRect (m : AR_MATRIX) (fp : MODULE) (pos : wxPoint) :
  (px pos < px (xylimit m fp) <-> GetRight (trialRect fp pos) < GetRight (m_BrdBox m)) /\
  (py pos < py (xylimit m fp) <-> GetBottom (trialRect fp pos) < GetBottom (m_BrdBox m)).
Proof.
  unfold xylimit, trialRect.
  repeat unfold Move, GetRight, GetBottom, GetX, GetY, GetWidth, GetHeight, GetEnd, GetOrigin,
    pt_sub, pt_add, pt_neg. cbn [px py m_Pos m_Size]. lia.
Qed.

(** The first position, read on the footprint rectangle: moved there, the
    rectangle begins at the left and top edges of the box, less what the
    snapping to a multiple of the pitch takes off. *)
Lemma initialPos_trialRect (m : AR_MATRIX) (fp : MODULE) :
  0 < m_GridRouting m ->
  let r := trialRect fp (initialPos m fp) in
  let g := m_GridRouting m in
  Z.rem (px (initialPos m fp)) g = 0 /\ Z.rem (py (initialPos m fp)) g = 0 /\
  GetX (m_BrdBox m) - g < GetX r < GetX (m_BrdBox m) + g /\
  GetY (m_BrdBox m) - g < GetY r < GetY (m_BrdBox m) + g.
Proof.
  intros Hg r g. subst r g.
  assert (Hrem : forall a, Z.rem (a - Z.rem a (m_GridRouting m)) (m_GridRouting m) = 0).
  { intros a. rewrite (Z.rem_eq a (m_GridRouting m)) by lia.
    replace (a - (a - m_GridRouting m * (a ÷ m_GridRouting m)))
      with ((a ÷ m_GridRouting m) * m_GridRouting m) by ring.
    apply Z.rem_mul. lia. }
  split; [unfold initialPos; cbn [px]; apply Hrem|].
  split; [unfold initialPos; cbn [py]; apply Hrem|].
  unfold trialRect, initialPos.
  repeat unfold Move, GetRight, GetBottom, GetX, GetY, GetWidth, GetHeight, GetEnd, GetOrigin,
    pt_sub, pt_add, pt_neg. cbn [px py m_Pos m_Size].
  set (ax := px (m_Pos (m_BrdBox m)) - (px (m_Pos (GetFootprintRect fp)) + - px (fp_Pos fp))).
  set (ay := py (m_Pos (m_BrdBox m)) - (py (m_Pos (GetFootprintRect fp)) + - py (fp_Pos fp))).
  pose proof (Z.rem_bound_abs ax (m_GridRouting m) ltac:(lia)) as Hx.
  pose proof (Z.rem_bound_abs ay (m_GridRouting m) ltac:(lia)) as Hy.
  subst ax ay. lia.
Qed.

Lemma StronglySorted_app {A : Type} (R : A -> A -> Prop) (l1 l2 : list A) :
  StronglySorted R l1 -> StronglySorted R l2 ->
  (forall x y, In x l1 -> In y l2 -> R x y) ->
  StronglySorted R (l1 ++ l2).
Proof.
  intros H1 H2 H. induction H1 as [|a l1 Hs IH Ha]; simpl; [exact H2|].
  constructor.
  - apply IH. intros x y Hx Hy. apply H; [right; exact Hx | exact Hy].
  - apply Forall_app. split; [exact Ha|].
    apply Forall_forall. intros y Hy. apply H; [left; reflexivity | exact Hy].
Qed.

Lemma for_range_sorted (step : Z) :
  0 < step -> forall start limit, StronglySorted Z.lt (for_range start limit step).
Proof.
  intros Hs start limit.
  assert (En : (Z.to_nat (limit - start) <= Z.to_nat (limit - start))%nat) by lia.
  revert En. generalize (Z.to_nat (limit - start)) at 2. intros n.
  revert start; induction n as [|n IH]; intros start En.
  - rewrite for_range_nil by lia. constructor.
  - destruct (Z_lt_le_dec start limit) as [Hlt | Hle];
      [|rewrite for_range_nil by lia; constructor].
    rewrite for_range_cons by lia. constructor; [apply IH; lia|].
    apply Forall_forall. intros v Hv. apply (for_range_In _ Hs) in Hv.
    destruct Hv as (k & Hk & -> & _). nia.
Qed.

(** The positions are tried column by column: [x] grows from one column to
    the next, and [y] grows within a column. *)
Lemma candidates_sorted (m : AR_MATRIX) (fp : MODULE) :
  0 < m_GridRouting m -> StronglySorted columnMajor (candidates m fp).
Proof.
  intros Hg. unfold candidates.
  set (ys := for_range (py (initialPos m fp)) (py (xylimit m fp)) (m_GridRouting m)).
  pose proof (for_range_sorted _ Hg (py (initialPos m fp)) (py (xylimit m fp))) as Hys.
  fold ys in Hys.
  pose proof (for_range_sorted _ Hg (px (initialPos m fp)) (px (xylimit m fp))) as Hxs.
  induction Hxs as [|x xs Hs IH Hx]; simpl; [constructor|].
  apply StronglySorted_app; [| exact IH |].
  - clear - Hys. induction Hys as [|y ys' Hs IH Hy]; simpl; constructor; [exact IH|].
    apply Forall_forall. intros q Hq. apply in_map_iff in Hq.
    destruct Hq as (y' & <- & Hy'). right. simpl. split; [reflexivity|].
    rewrite Forall_forall in Hy. exact (Hy y' Hy').
  - intros a b Ha Hb. apply in_map_iff in Ha. destruct Ha as (y & <- & _).
    apply in_flat_map in Hb. destruct Hb as (x' & Hx' & Hb).
    apply in_map_iff in Hb. destruct Hb as (y' & <- & _).
    left. simpl. rewrite Forall_forall in Hx. exact (Hx x' Hx').
Qed.

(** C2, as the code has it.  The positions tried are the first position
    plus multiples of the pitch on both axes, as long as the footprint
    rectangle ends strictly before the right and bottom edges of the box
    (the position that puts it flush with an edge is not tried); the first
    position is a multiple of the pitch that puts the rectangle within one
    pitch of the left and top edges of the box, outside of it or inside.
    They are tried column by column, [x] in the outer loop.  Whatever
    [computePlacementRatsnestCost] answers, as long as it is a number and is
    not negative, the search keeps a legal position of least score, the
    double [curr_cost + keepOutCost] as the machine computes and compares
    it; of several positions with the least score it keeps the last one
    tried.  [getOptimalFPPlacement] is this search on the ratsnest cost of
    the code, which is such a number. *)
Theorem getOptimalFPPlacement_keeps_last_minimum
    (ratsnestCost : wxPoint -> PrimFloat.float) (m : AR_MATRIX) (fp : MODULE) :
  0 < m_GridRouting m ->
  (forall off, nonnegDouble (ratsnestCost off) = true) ->
  let g := m_GridRouting m in
  let first := initialPos m fp in
  (forall pos,
     In pos (candidates m fp) <->
     exists kx ky,
       0 <= kx /\ 0 <= ky /\ pos = mkPoint (px first + kx * g) (py first + ky * g) /\
       GetRight (trialRect fp pos) < GetRight (m_BrdBox m) /\
       GetBottom (trialRect fp pos) < GetBottom (m_BrdBox m)) /\
  (Z.rem (px first) g = 0 /\ Z.rem (py first) g = 0 /\
   GetX (m_BrdBox m) - g < GetX (trialRect fp first) < GetX (m_BrdBox m) + g /\
   GetY (m_BrdBox m) - g < GetY (trialRect fp first) < GetY (m_BrdBox m) + g) /\
  StronglySorted columnMajor (candidates m fp) /\
  getOptimalFPPlacementWith ratsnestCost m fp =
    fold_left (tryPositionWith ratsnestCost m fp) (candidates m fp)
              (mkSearch 1 (GetOrigin (m_BrdBox m)) (-1)%float) /\
  (existsb (legalAt m fp) (candidates m fp) = true ->
   keepsLastMinimumWith ratsnestCost m fp (candidates m fp)
                        (getOptimalFPPlacementWith ratsnestCost m fp)) /\
  (forall brd i,
     getOptimalFPPlacement brd m i fp =
       getOptimalFPPlacementWith
         (computePlacementRatsnestCost_double brd (m_BrdBox m) i fp) m fp /\
     forall off,
       nonnegDouble (computePlacementRatsnestCost_double brd (m_BrdBox m) i fp off) = true).
Proof.
  intros Hg Hc g first. split; [|split; [|split; [|split; [|split]]]].
  - intros pos. rewrite (candidates_In m fp pos Hg).
    destruct (xylimit_trialRect m fp pos) as [Hx Hy].
    split; intros (kx & ky & Hkx & Hky & E & H1 & H2); exists kx, ky;
      (split; [exact Hkx|]); (split; [exact Hky|]); (split; [exact E|]);
      (split; [apply Hx, H1 | apply Hy, H2]).
  - exact (initialPos_trialRect m fp Hg).
  - exact (candidates_sorted m fp Hg).
  - unfold getOptimalFPPlacementWith. apply searchLoopsWith_candidates.
  - intros E. destruct (getOptimalFPPlacementWith_outcome ratsnestCost m fp Hc)
      as [[E' _] | [_ H]]; [congruence | exact H].
  - intros brd i. split; [reflexivity|].
    intros off. apply computePlacementRatsnestCost_double_nonneg.
Qed.

(** On [openMatrix] the search for the square footprint keeps such a
    position. *)
Lemma getOptimalFPPlacement_keeps_last_minimum_on_openMatrix :
  keepsLastMinimum [squareFp] openMatrix 0 squareFp (candidates openMatrix squareFp)
                   (getOptimalFPPlacement [squareFp] openMatrix 0 squareFp).
Proof.
  exact (proj1 (proj2 (proj2 (proj2 (proj2
           (getOptimalFPPlacement_keeps_last_minimum
              (computePlacementRatsnestCost_double [squareFp] (m_BrdBox openMatrix) 0 squareFp)
              openMatrix squareFp eq_refl
              (computePlacementRatsnestCost_double_nonneg [squareFp] (m_BrdBox openMatrix)
                 0 squareFp)))))) eq_refl).
Defined.

(** C2, as the specification words it, fails on [openMatrix], a box of 25 x
    25 at pitch 10 with the square footprint of side 10 centred on its
    position.  The positions that keep the rectangle in the box are those
    from 5 to 20, of which 10 and 20 are multiples of the pitch; the search
    tries 0, where the rectangle begins 5 units outside the box, and 10, and
    not 20, where the rectangle is flush with the edge.  The four trial
    positions are tried in the order (0,0), (0,10), (10,0), (10,10), [y]
    varying first; all are legal with the same score 0, and the search keeps
    the last one, (10,10), not the first one found. *)
Lemma getOptimalFPPlacement_tie_keeps_last :
  candidates openMatrix squareFp =
    [mkPoint 0 0; mkPoint 0 10; mkPoint 10 0; mkPoint 10 10] /\
  GetX (trialRect squareFp (mkPoint 0 0)) = -5 /\
  GetRight (trialRect squareFp (mkPoint 20 20)) = GetRight (m_BrdBox openMatrix) /\
  forallb (legalAt openMatrix squareFp) (candidates openMatrix squareFp) = true /\
  scoreAt [squareFp] openMatrix 0 squareFp (mkPoint 0 0) = 0%float /\
  scoreAt [squareFp] openMatrix 0 squareFp (mkPoint 10 10) = 0%float /\
  s_lastPosOK (getOptimalFPPlacement [squareFp] openMatrix 0 squareFp) = mkPoint 10 10.
Proof. vm_compute. repeat split; reflexivity. Qed.

(** ** Ratsnest cost estimator *)

Lemma nearestPad_pad_filter (ref : PAD) (off : wxPoint) (pads : list PAD)
    (acc : option PAD * Z) :
  fold_left (nearestPad_pad ref off) pads acc =
  fold_left (fun acc q => if padDistance ref off q <? snd acc
                          then (Some q, padDistance ref off q) else acc)
            (filter (sameNet ref) pads) acc.
Proof.
  revert acc; induction pads as [|q pads IH]; intros acc; simpl; [reflexivity|].
  unfold nearestPad_pad at 2, sameNet.
  destruct (pad_NetCode q =? pad_NetCode ref) eqn:E1; simpl.
  - rewrite Z.leb_antisym. destruct (0 <? pad_NetCode q) eqn:E2; simpl; apply IH.
  - apply IH.
Qed.

Lemma nearestPad_neighbours (brd : list MODULE) (box : EDA_RECT) (i : nat) (ref : PAD)
    (off : wxPoint) :
  nearestPad brd box i ref off =
  fst (fold_left (fun acc q => if padDistance ref off q <? snd acc
                               then (Some q, padDistance ref off q) else acc)
                 (neighbours brd box i ref) (None, INT64_MAX)).
Proof.
  unfold nearestPad, neighbours. f_equal.
  generalize (@None PAD, INT64_MAX). generalize (indexed brd).
  induction l as [|[j fp] l IH]; intros acc; simpl; [reflexivity|].
  rewrite fold_left_app. rewrite <- IH. f_equal.
  unfold nearestPad_fp. simpl.
  destruct (Nat.eqb j i); simpl; [reflexivity|].
  destruct (Contains box (fp_Pos fp)); simpl; [|reflexivity].
  apply nearestPad_pad_filter.
Qed.


Lemma indexed_from_In {A : Type} (l : list A) (s j : nat) (x : A) :
  In (j, x) (combine (seq s (length l)) l) <->
  (s <= j)%nat /\ nth_error l (j - s) = Some x.
Proof.
  revert s; induction l as [|a l IH]; intros s; simpl.
  - split; [intros [] | intros [_ H]]. destruct (j - s)%nat; discriminate.
  - rewrite IH. split.
    + intros [E | [H1 H2]].
      * injection E as <- <-. rewrite Nat.sub_diag. split; [lia | reflexivity].
      * split; [lia|]. replace (j - s)%nat with (S (j - S s)) by lia. exact H2.
    + intros [H1 H2]. destruct (Nat.eq_dec s j) as [<- | Hne].
      * rewrite Nat.sub_diag in H2. left. simpl in H2. congruence.
      * right. split; [lia|]. replace (j - s)%nat with (S (j - S s)) in H2 by lia. exact H2.
Qed.

Lemma indexed_In {A : Type} (l : list A) (j : nat) (x : A) :
  In (j, x) (indexed l) <-> nth_error l j = Some x.
Proof.
  unfold indexed. rewrite indexed_from_In, Nat.sub_0_r. split; [tauto|].
  intros H; split; [lia | exact H].
Qed.

(** The neighbours of a pad: the pads of its net, a positive one, on the
    other footprints whose position lies in the box. *)
Lemma neighbours_In (brd : list MODULE) (box : EDA_RECT) (i : nat) (ref q : PAD) :
  In q (neighbours brd box i ref) <->
  exists j fp, nth_error brd j = Some fp /\ j <> i /\ Contains box (fp_Pos fp) = true /\
               In q (Pads fp) /\ pad_NetCode q = pad_NetCode ref /\ 0 < pad_NetCode q.
Proof.
  unfold neighbours. rewrite in_flat_map. split.
  - intros ([j fp] & Hj & Hq). simpl in Hq. apply indexed_In in Hj.
    destruct (Nat.eqb j i) eqn:E1; simpl in Hq; [destruct Hq|].
    destruct (Contains box (fp_Pos fp)) eqn:E2; simpl in Hq; [|destruct Hq].
    apply filter_In in Hq. destruct Hq as [Hq Hs]. unfold sameNet in Hs.
    apply andb_true_iff in Hs. destruct Hs as [Hs1 Hs2].
    apply Z.eqb_eq in Hs1. apply Z.ltb_lt in Hs2. apply Nat.eqb_neq in E1.
    exists j, fp. repeat split; assumption.
  - intros (j & fp & Hj & Hne & Hc & Hq & Hn & Hp). exists (j, fp).
    split; [apply indexed_In; exact Hj|]. simpl.
    rewrite (proj2 (Nat.eqb_neq j i) Hne), Hc. simpl. apply filter_In. split; [exact Hq|].
    unfold sameNet. rewrite (proj2 (Z.eqb_eq _ _) Hn), (proj2 (Z.ltb_lt _ _) Hp). reflexivity.
Qed.

Lemma intCoord_bounds (z : Z) : intCoord z = true -> - 2 ^ 31 <= z < 2 ^ 31.
Proof.
  unfold intCoord. intros H. apply andb_true_iff in H. destruct H as [H1 H2].
  apply Z.leb_le in H1. apply Z.ltb_lt in H2. lia.
Qed.

(** Between points with [int] coordinates the distance stays below the
    initial value [INT64_MAX] of [nearestDist]. *)
Lemma padDistance_bound (ref : PAD) (off : wxPoint) (q : PAD) :
  intPoint (pad_Pos ref) = true -> intPoint off = true -> intPoint (pad_Pos q) = true ->
  padDistance ref off q < INT64_MAX.
Proof.
  unfold intPoint. intros H1 H2 H3.
  apply andb_true_iff in H1, H2, H3.
  destruct H1 as [H1x H1y], H2 as [H2x H2y], H3 as [H3x H3y].
  apply intCoord_bounds in H1x, H1y, H2x, H2y, H3x, H3y.
  unfold padDistance, EuclideanNorm, pt_sub. simpl.
  set (dx := px (pad_Pos ref) - px off - px (pad_Pos q)).
  set (dy := py (pad_Pos ref) - py off - py (pad_Pos q)).
  assert (Hdx : - 2 ^ 33 < dx < 2 ^ 33) by (subst dx; lia).
  assert (Hdy : - 2 ^ 33 < dy < 2 ^ 33) by (subst dy; lia).
  assert (Hsq : 0 <= dx * dx + dy * dy < 2 ^ 34 * 2 ^ 34) by nia.
  assert (Hs : Z.sqrt (dx * dx + dy * dy) < 2 ^ 34).
  { apply Z.sqrt_lt_square; lia. }
  unfold INT64_MAX. lia.
Qed.

Lemma intPads_In (brd : list MODULE) (j : nat) (fp : MODULE) (q : PAD) :
  forallb intPads brd = true -> nth_error brd j = Some fp -> In q (Pads fp) ->
  intPoint (pad_Pos q) = true.
Proof.
  intros Hb Hj Hq. rewrite forallb_forall in Hb.
  specialize (Hb fp (nth_error_In _ _ Hj)). unfold intPads in Hb.
  rewrite forallb_forall in Hb. exact (Hb q Hq).
Qed.

















(** ** Rasterizer *)

Lemma insertSorted_length (x : Z) (l : list Z) :
  length (insertSorted x l) = S (length l).
Proof.
  induction l as [|y l IH]; simpl; [reflexivity|].
  destruct (x <=? y); simpl; [reflexivity | rewrite IH; reflexivity].
Qed.

Lemma sortZ_length (l : list Z) : length (sortZ l) = length l.
Proof.
  induction l as [|x l IH]; simpl; [reflexivity|].
  rewrite insertSorted_length, IH. reflexivity.
Qed.

Lemma sameGrid_refl (m : AR_MATRIX) : sameGrid m m.
Proof. repeat split. Qed.

Lemma sameGrid_trans (m1 m2 m3 : AR_MATRIX) :
  sameGrid m1 m2 -> sameGrid m2 m3 -> sameGrid m1 m3.
Proof.
  intros (A1 & A2 & A3 & A4) (B1 & B2 & B3 & B4).
  repeat split; congruence.
Qed.

Lemma fillCells_sameGrid (idy step s e : Z) (idxs : list Z) (m : AR_MATRIX) :
  sameGrid m (fillCells m idy step s e idxs).
Proof.
  revert m; induction idxs as [|idx idxs IH]; intros m; simpl; [apply sameGrid_refl|].
  destruct (idx * step >? e); [apply sameGrid_refl|].
  destruct (idx * step >=? s).
  - eapply sameGrid_trans; [|apply IH]. repeat split.
  - apply IH.
Qed.

Lemma fillPairs_sameGrid (idy step ox : Z) (xs : list Z) :
  forall m, sameGrid m (fillPairs m idy step ox xs).
Proof.
  assert (H : forall m, sameGrid m (fillPairs m idy step ox xs) /\
                        forall x, sameGrid m (fillPairs m idy step ox (x :: xs))).
  { induction xs as [|x1 xs IH]; intros m.
    - split; [|intros x]; apply sameGrid_refl.
    - split; [apply IH|]. intros x0. simpl.
      eapply sameGrid_trans; [apply fillCells_sameGrid | apply IH]. }
  intros m. apply H.
Qed.

Lemma fillRowWith_sameGrid (x_coords : Z -> list Z) (m : AR_MATRIX) (refy : Z) :
  sameGrid m (fillRowWith x_coords m refy).
Proof. apply fillPairs_sameGrid. Qed.

Lemma fillRow_sameGrid (outline : list wxPoint) (m : AR_MATRIX) (refy : Z) :
  sameGrid m (fillRow outline m refy).
Proof. apply fillRowWith_sameGrid. Qed.

Lemma scannedRows_sameGrid (m m' : AR_MATRIX) (refys : list Z) :
  sameGrid m m' -> scannedRows m' refys = scannedRows m refys.
Proof.
  intros (A1 & A2 & A3 & A4).
  induction refys as [|refy refys IH]; simpl; [reflexivity|].
  unfold rowOf, GetBrdCoordOrigin. rewrite A1, A2, A3, IH. reflexivity.
Qed.

Lemma fillRowsWith_scanned (x_coords : Z -> list Z) (refys : list Z) :
  forall m, fillRowsWith x_coords m refys = fillScannedWith x_coords m (scannedRows m refys).
Proof.
  induction refys as [|refy refys IH]; intros m; simpl; [reflexivity|].
  fold (rowOf m refy).
  destruct (rowOf m refy >=? m_Nrows m); [reflexivity|].
  destruct (rowOf m refy <=? 0); [apply IH|].
  simpl. unfold oddRowWith. rewrite sortZ_length.
  destruct (Nat.odd (length (x_coords refy))); [reflexivity|].
  rewrite IH. fold (fillRowWith x_coords m refy).
  rewrite (scannedRows_sameGrid m _ refys (fillRowWith_sameGrid x_coords m refy)).
  reflexivity.
Qed.

Lemma fillRows_scanned (outline : list wxPoint) (refys : list Z) :
  forall m, fillRows outline m refys = fillScanned outline m (scannedRows m refys).
Proof. intros m. apply fillRowsWith_scanned. Qed.

Lemma fillScannedWith_outcome (x_coords : Z -> list Z) (rows : list Z) :
  forall m,
    (existsb (oddRowWith x_coords) rows = false /\
     fillScannedWith x_coords m rows = (true, fold_left (fillRowWith x_coords) rows m)) \/
    (exists l1 refy l2,
       rows = l1 ++ refy :: l2 /\ existsb (oddRowWith x_coords) l1 = false /\
       oddRowWith x_coords refy = true /\
       fillScannedWith x_coords m rows = (false, fold_left (fillRowWith x_coords) l1 m)).
Proof.
  induction rows as [|refy rows IH]; intros m; simpl.
  - left. split; reflexivity.
  - destruct (oddRowWith x_coords refy) eqn:E; simpl.
    + right. exists [], refy, rows. repeat split; assumption.
    + destruct (IH (fillRowWith x_coords m refy))
        as [[H1 H2] | (l1 & r & l2 & -> & H1 & H2 & H3)].
      * left. split; assumption.
      * right. exists (refy :: l1), r, l2. simpl. rewrite E. repeat split; assumption.
Qed.

Lemma fillScanned_outcome (outline : list wxPoint) (rows : list Z) :
  forall m,
    (existsb (oddRow outline) rows = false /\
     fillScanned outline m rows = (true, fold_left (fillRow outline) rows m)) \/
    (exists l1 refy l2,
       rows = l1 ++ refy :: l2 /\ existsb (oddRow outline) l1 = false /\
       oddRow outline refy = true /\
       fillScanned outline m rows = (false, fold_left (fillRow outline) l1 m)).
Proof. intros m. apply fillScannedWith_outcome. Qed.

(** A segment whose ends have the same ordinate gives no intersection. *)
Lemma intersection_horizontal (outline : list wxPoint) (refy : Z) (v : nat) :
  py (CPoint outline v) = py (CPoint outline (v + 1)) ->
  intersection outline refy v = None.
Proof.
  intros H. unfold intersection. rewrite <- H.
  destruct (py (CPoint outline v) >? refy) eqn:E1; simpl; [reflexivity|].
  destruct (py (CPoint outline v) <=? refy) eqn:E2; simpl; [reflexivity|].
  rewrite Z.gtb_ltb in E1. apply Z.ltb_ge in E1. apply Z.leb_gt in E2. lia.
Qed.

(** C9.  The loop over the scan lines, whatever number of points the
    examination of the segments leaves in [x_coordinates] for each scan
    line: it returns [success = false] if and only if a scan line it works
    on has an odd number of points; it then stops, the matrix holding the
    rows filled before that scan line and no other; when every scan line it
    works on has an even number of points it returns [success = true], every
    row filled.  [fillMatrix] is this loop on the intersections of the scan
    lines with the segments of the outline, to which horizontal and
    degenerate segments give no point. *)
Theorem fillMatrix_success (m : AR_MATRIX) (x_coords : Z -> list Z) (refys : list Z) :
  let rows := scannedRows m refys in
  (fst (fillRowsWith x_coords m refys) = false <->
   exists refy, In refy rows /\ oddRowWith x_coords refy = true) /\
  (forall l1 refy l2,
     rows = l1 ++ refy :: l2 -> existsb (oddRowWith x_coords) l1 = false ->
     oddRowWith x_coords refy = true ->
     fillRowsWith x_coords m refys = (false, fold_left (fillRowWith x_coords) l1 m)) /\
  (existsb (oddRowWith x_coords) rows = false ->
   fillRowsWith x_coords m refys = (true, fold_left (fillRowWith x_coords) rows m)) /\
  (forall outline,
     fillMatrix m outline = fillRowsWith (x_coordinates outline) m (scanLines m outline)) /\
  (forall outline refy v,
     py (CPoint outline v) = py (CPoint outline (v + 1)) ->
     intersection outline refy v = None).
Proof.
  intros rows. rewrite fillRowsWith_scanned. fold rows.
  assert (Htail : (forall outline,
             fillMatrix m outline
             = fillRowsWith (x_coordinates outline) m (scanLines m outline)) /\
          (forall outline refy v,
             py (CPoint outline v) = py (CPoint outline (v + 1)) ->
             intersection outline refy v = None))
    by (split; [reflexivity | apply intersection_horizontal]).
  destruct (fillScannedWith_outcome x_coords rows m)
    as [[H1 H2] | (l1 & r & l2 & E & H1 & H2 & H3)].
  - rewrite H2. simpl. split; [|split; [|split]].
    + split; [discriminate|]. intros (refy & Hin & Hodd).
      assert (existsb (oddRowWith x_coords) rows = true)
        by (apply existsb_exists; exists refy; split; assumption).
      congruence.
    + intros l1 refy l2 E _ Hodd.
      assert (existsb (oddRowWith x_coords) rows = true).
      { apply existsb_exists. exists refy. split; [|assumption].
        rewrite E. apply in_or_app. right; left; reflexivity. }
      congruence.
    + reflexivity.
    + exact Htail.
  - rewrite H3. simpl. split; [|split; [|split]].
    + split; [|reflexivity]. intros _. exists r. split; [|assumption].
      rewrite E. apply in_or_app. right; left; reflexivity.
    + intros l1' refy' l2' E' Hev Hodd.
      assert (l1' = l1); [|subst; reflexivity].
      rewrite E in E'. clear - E' H1 H2 Hev Hodd.
      revert l1' E' Hev. induction l1 as [|a l1 IH]; intros l1' E' Hev.
      * destruct l1' as [|b l1']; [reflexivity|]. simpl in *. injection E' as <- _.
        rewrite H2 in Hev. discriminate.
      * destruct l1' as [|b l1']; simpl in *.
        -- injection E' as <- _. rewrite Hodd in H1. discriminate.
        -- injection E' as <- E'. apply orb_false_iff in H1, Hev.
           f_equal. apply IH; tauto.
    + intros Hev. exfalso. rewrite E, existsb_app in Hev. simpl in Hev.
      rewrite H2, orb_true_r in Hev. discriminate.
    + exact Htail.
Qed.

(** On a blank matrix of 4 x 4 cells at pitch 10, with three points on the
    scan line 20 and two on the others: the loop fills row 1, stops at the
    scan line 20 and returns [success = false]. *)
Lemma fillMatrix_success_on_odd_scan_line :
  fillRowsWith oddAt20 (blankMatrix 4 4) [0; 10; 20; 30] =
  (false, fold_left (fillRowWith oddAt20) [10] (blankMatrix 4 4)).
Proof.
  exact (proj1 (proj2 (fillMatrix_success (blankMatrix 4 4) oddAt20 [0; 10; 20; 30]))
           [10] 20 [30] eq_refl eq_refl eq_refl).
Defined.

(** *** A rectangular outline *)

(** A vertical segment meets a scan line at its own abscissa: its inverse
    slope is a zero, and so is the product. *)
Lemma vertical_offset (n dy : Z) :
  int_of_double (PrimFloat.mul (double_of_int n)
                   (PrimFloat.div (double_of_int 0) (double_of_int dy))) = 0.
Proof.
  unfold int_of_double. rewrite mul_spec, div_spec.
  change (Prim2SF (double_of_int 0)) with (S754_zero false).
  destruct (Prim2SF (double_of_int dy)) as [sy | sy | | sy my ey];
    destruct (Prim2SF (double_of_int n)) as [sn | sn | | sn mn en]; reflexivity.
Qed.

Lemma x_coordinates_rect (x0 y0 W H refy : Z) :
  y0 <= refy < y0 + H ->
  x_coordinates (rectOutline x0 y0 W H) refy = [x0 + W; x0].
Proof.
  intros Hr. unfold x_coordinates, intersection, rectOutline, CPoint. simpl.
  replace (y0 >? refy) with false by (symmetry; rewrite Z.gtb_ltb; apply Z.ltb_ge; lia).
  replace (y0 <=? refy) with true by (symmetry; apply Z.leb_le; lia).
  replace (y0 + H >? refy) with true by (symmetry; rewrite Z.gtb_ltb; apply Z.ltb_lt; lia).
  replace (y0 + H <=? refy) with false by (symmetry; apply Z.leb_gt; lia).
  simpl.
  replace (y0 + H - y0 =? 0) with false by (symmetry; apply Z.eqb_neq; lia).
  replace (y0 - (y0 + H) =? 0) with false by (symmetry; apply Z.eqb_neq; lia).
  rewrite !Z.sub_diag, !vertical_offset. reflexivity.
Qed.

Lemma sortZ_rect (x0 W : Z) : 0 <= W -> sortZ [x0 + W; x0] = [x0; x0 + W].
Proof.
  intros HW. simpl.
  destruct (x0 + W <=? x0) eqn:E; [|reflexivity].
  apply Z.leb_le in E. replace W with 0 by lia. rewrite Z.add_0_r. reflexivity.
Qed.

Ltac split_all := repeat split; try assumption; try reflexivity; try lia; try nia.

(** The cells [fillCells] sets: those of row [idy] from column [a] on whose
    abscissa lies between the two ends of the segment, both included. *)
Lemma fillCells_cells (idy step s e N : Z) :
  0 < step ->
  forall (k : nat) (a : Z) (m : AR_MATRIX) (r c : Z) (side : AR_SIDE),
    (Z.to_nat (N - a) <= k)%nat ->
    let m' := fillCells m idy step s e (for_range a N 1) in
    (side = AR_SIDE_BOTTOM /\ r = idy /\ a <= c < N /\ s <= c * step <= e ->
     GetCell m' r c side = CELL_IS_ZONE) /\
    (~ (side = AR_SIDE_BOTTOM /\ r = idy /\ a <= c < N /\ s <= c * step <= e) ->
     GetCell m' r c side = GetCell m r c side).
Proof.
  intros Hs k. induction k as [|k IH]; intros a m r c side Hk m'; subst m'.
  - rewrite for_range_nil by lia. simpl. split; [intros (_ & _ & H & _); lia | reflexivity].
  - destruct (Z_lt_le_dec a N) as [Ha | Ha].
    2:{ rewrite for_range_nil by lia. simpl.
        split; [intros (_ & _ & H & _); lia | reflexivity]. }
    rewrite for_range_cons by lia. simpl.
    destruct (a * step >? e) eqn:E1.
    + rewrite Z.gtb_ltb in E1. apply Z.ltb_lt in E1.
      split; [|reflexivity]. intros (_ & _ & H1 & H2). nia.
    + rewrite Z.gtb_ltb in E1. apply Z.ltb_ge in E1.
      destruct (IH (a + 1)
                  (if a * step >=? s then SetCell m idy a AR_SIDE_BOTTOM CELL_IS_ZONE else m)
                  r c side ltac:(lia)) as [IH1 IH2].
      destruct (Z.eq_dec c a) as [-> | Hc].
      * split.
        -- intros (-> & -> & H1 & H2). rewrite IH2 by lia.
           replace (a * step >=? s) with true by (symmetry; apply Z.geb_le; lia).
           unfold GetCell, SetCell. simpl. rewrite !Z.eqb_refl. reflexivity.
        -- intros Hn. rewrite IH2 by lia.
           destruct (a * step >=? s) eqn:E2; [|reflexivity].
           apply Z.geb_le in E2. unfold GetCell, SetCell. simpl.
           destruct side; simpl; [reflexivity|].
           destruct (r =? idy) eqn:E3; simpl; [|reflexivity].
           apply Z.eqb_eq in E3. exfalso. apply Hn. split_all.
      * split.
        -- intros (Hside & Hr & H1 & H2). apply IH1. split_all.
        -- intros Hn. rewrite IH2 by (intros (A & B & C & D); apply Hn; split_all).
           destruct (a * step >=? s); [|reflexivity].
           unfold GetCell, SetCell. simpl.
           replace (c =? a) with false by (symmetry; apply Z.eqb_neq; exact Hc).
           rewrite andb_false_r. reflexivity.
Qed.

(** One scan line of a rectangle whose corner is the origin of the matrix:
    the row gets the columns from 0 to [W / step], both included. *)
Lemma fillRow_rect (x0 y0 W H refy : Z) (m : AR_MATRIX) (r c : Z) (side : AR_SIDE) :
  0 <= W -> 0 < m_GridRouting m -> px (GetBrdCoordOrigin m) = x0 ->
  y0 <= refy < y0 + H ->
  let m' := fillRow (rectOutline x0 y0 W H) m refy in
  let P := side = AR_SIDE_BOTTOM /\ r = rowOf m refy /\ 0 <= c < m_Ncols m /\
           c * m_GridRouting m <= W in
  (P -> GetCell m' r c side = CELL_IS_ZONE) /\
  (~ P -> GetCell m' r c side = GetCell m r c side).
Proof.
  intros HW Hg Hx Hr m' P. subst m' P. unfold fillRow, fillRowWith.
  rewrite x_coordinates_rect by assumption. rewrite sortZ_rect by assumption.
  rewrite Hx. simpl fillPairs. rewrite Z.sub_diag.
  replace (x0 + W - x0) with W by ring. rewrite Z.quot_0_l by lia.
  destruct (fillCells_cells (rowOf m refy) (m_GridRouting m) 0 W (m_Ncols m) Hg
              (Z.to_nat (m_Ncols m - 0)) 0 m r c side (le_n _)) as [H1 H2].
  split.
  - intros (A & B & C & D). apply H1. split_all.
  - intros Hn. apply H2. intros (A & B & C & D). apply Hn. split_all.
Qed.

Lemma BBox_rect (x0 y0 W H : Z) :
  0 <= W -> 0 <= H ->
  GetY (BBox (rectOutline x0 y0 W H)) = y0 /\
  GetBottom (BBox (rectOutline x0 y0 W H)) = y0 + H.
Proof.
  intros HW HH. unfold GetBottom, GetY, GetHeight, BBox, rectOutline, minOf, maxOf. simpl.
  lia.
Qed.

Lemma rowOf_grid (m : AR_MATRIX) (y0 k : Z) :
  0 < m_GridRouting m -> py (GetBrdCoordOrigin m) = y0 ->
  rowOf m (y0 + k * m_GridRouting m) = k.
Proof.
  intros Hg Hy. unfold rowOf. rewrite Hy.
  replace (y0 + k * m_GridRouting m - y0) with (k * m_GridRouting m) by ring.
  apply Z.quot_mul. lia.
Qed.

(** The scan lines of the rectangle the loop works on: those of the rows 1
    to the last row of the matrix, as long as they lie above the bottom of
    the rectangle. *)
Lemma scannedRows_rect (m : AR_MATRIX) (y0 H : Z) :
  0 < m_GridRouting m -> py (GetBrdCoordOrigin m) = y0 ->
  forall (n : nat) (k0 refy : Z),
    0 <= k0 -> (Z.to_nat (H - k0 * m_GridRouting m) <= n)%nat ->
    (In refy (scannedRows m (for_range (y0 + k0 * m_GridRouting m) (y0 + H)
                                       (m_GridRouting m))) <->
     exists k, k0 <= k /\ refy = y0 + k * m_GridRouting m /\
               1 <= k < m_Nrows m /\ k * m_GridRouting m < H).
Proof.
  intros Hg Hy n. induction n as [|n IH]; intros k0 refy Hk0 Hn.
  - rewrite for_range_nil by lia. simpl. split; [intros []|].
    intros (k & H1 & _ & _ & H2). nia.
  - destruct (Z_lt_le_dec (k0 * m_GridRouting m) H) as [Hlt | Hge].
    2:{ rewrite for_range_nil by lia. simpl. split; [intros []|].
        intros (k & H1 & _ & _ & H2). nia. }
    rewrite for_range_cons by lia. simpl.
    rewrite rowOf_grid by assumption.
    replace (y0 + k0 * m_GridRouting m + m_GridRouting m)
      with (y0 + (k0 + 1) * m_GridRouting m) by ring.
    destruct (k0 >=? m_Nrows m) eqn:E1.
    + apply Z.geb_le in E1. split; [intros []|]. intros (k & H1 & _ & H2 & _). lia.
    + rewrite Z.geb_leb in E1. apply Z.leb_gt in E1.
      destruct (k0 <=? 0) eqn:E2.
      * apply Z.leb_le in E2. rewrite IH by nia. split.
        -- intros (k & H1 & H2 & H3 & H4). exists k. split_all.
        -- intros (k & H1 & H2 & H3 & H4). exists k. split_all.
      * apply Z.leb_gt in E2. simpl. rewrite IH by nia. split.
        -- intros [<- | (k & H1 & H2 & H3 & H4)].
           ++ exists k0. split_all.
           ++ exists k. split_all.
        -- intros (k & H1 & H2 & H3 & H4).
           destruct (Z.eq_dec k k0) as [-> | Hne]; [left; symmetry; exact H2|].
           right. exists k. split_all.
Qed.

(** The rows filled for a list of scan lines of the rectangle. *)
Lemma fold_fillRow_rect (x0 y0 W H : Z) (rows : list Z) :
  0 <= W ->
  forall (m : AR_MATRIX) (r c : Z) (side : AR_SIDE),
    0 < m_GridRouting m -> px (GetBrdCoordOrigin m) = x0 ->
    (forall refy, In refy rows -> y0 <= refy < y0 + H) ->
    let m' := fold_left (fillRow (rectOutline x0 y0 W H)) rows m in
    let P := side = AR_SIDE_BOTTOM /\ 0 <= c < m_Ncols m /\ c * m_GridRouting m <= W /\
             exists refy, In refy rows /\ r = rowOf m refy in
    (P -> GetCell m' r c side = CELL_IS_ZONE) /\
    (~ P -> GetCell m' r c side = GetCell m r c side).
Proof.
  intros HW. induction rows as [|refy rows IH]; intros m r c side Hg Hx Hin m' P;
    subst m' P; simpl.
  - split; [intros (_ & _ & _ & (refy & [] & _)) | reflexivity].
  - pose proof (fillRow_sameGrid (rectOutline x0 y0 W H) m refy) as (S1 & S2 & S3 & S4).
    set (m1 := fillRow (rectOutline x0 y0 W H) m refy) in *.
    assert (Hrow : forall y, rowOf m1 y = rowOf m y)
      by (intros y; unfold rowOf, GetBrdCoordOrigin; rewrite S1, S2; reflexivity).
    destruct (IH m1 r c side) as [IH1 IH2].
    { rewrite S2; exact Hg. }
    { unfold GetBrdCoordOrigin. rewrite S1. exact Hx. }
    { intros y Hy. apply Hin. right; exact Hy. }
    rewrite S2, S4 in IH1, IH2.
    destruct (fillRow_rect x0 y0 W H refy m r c side HW Hg Hx (Hin refy (or_introl eq_refl)))
      as [F1 F2]. fold m1 in F1, F2.
    destruct (classic (side = AR_SIDE_BOTTOM /\ 0 <= c < m_Ncols m /\
                       c * m_GridRouting m <= W)) as [(A & B & C) | HnQ].
    2:{ split; [intros (A & B & C & _); exfalso; apply HnQ; split_all|].
        intros _. rewrite IH2 by (intros (A & B & C & _); apply HnQ; split_all).
        apply F2. intros (A & _ & B & C). apply HnQ. split_all. }
    destruct (classic (exists y, In y rows /\ r = rowOf m y)) as [Hex | Hnex].
    + split.
      * intros _. apply IH1. split_all.
        destruct Hex as (y & Hy & ->). exists y. split; [exact Hy | symmetry; apply Hrow].
      * intros Hn. exfalso. apply Hn. split_all.
        destruct Hex as (y & Hy & Hr). exists y. split; [right; exact Hy | exact Hr].
    + assert (E : GetCell (fold_left (fillRow (rectOutline x0 y0 W H)) rows m1) r c side
                  = GetCell m1 r c side).
      { apply IH2. intros (_ & _ & _ & (y & Hy & Hr)). apply Hnex.
        exists y. split; [exact Hy | rewrite Hr; apply Hrow]. }
      rewrite E. split.
      * intros (_ & _ & _ & (y & [<- | Hy] & Hr)).
        -- apply F1. split_all.
        -- exfalso. apply Hnex. exists y. split; assumption.
      * intros Hn. apply F2. intros (_ & Hr & _). apply Hn. split_all.
        exists refy. split; [left; reflexivity | exact Hr].
Qed.

(** *** Counting cells *)

Lemma filter_list_prod_length {A B : Type} (p : A -> bool) (q : B -> bool)
    (la : list A) (lb : list B) :
  length (filter (fun ab => p (fst ab) && q (snd ab)) (list_prod la lb)) =
  (length (filter p la) * length (filter q lb))%nat.
Proof.
  induction la as [|a la IH]; simpl; [reflexivity|].
  rewrite filter_app, length_app, IH.
  assert (E : length (filter (fun ab => p (fst ab) && q (snd ab))
                             (map (fun y => (a, y)) lb)) =
              if p a then length (filter q lb) else 0%nat).
  { clear IH. induction lb as [|b lb IHb]; simpl; [destruct (p a); reflexivity|].
    destruct (p a) eqn:Ea; simpl.
    - destruct (q b); simpl; rewrite IHb; reflexivity.
    - exact IHb. }
  rewrite E. destruct (p a); simpl; lia.
Qed.

(** The number of values between [lo] and [hi] a loop from [a] to [N]
    visits. *)
Lemma count_range (lo hi N : Z) :
  forall (n : nat) (a : Z),
    (Z.to_nat (N - a) <= n)%nat ->
    length (filter (fun r => (lo <=? r) && (r <=? hi)) (for_range a N 1)) =
    Z.to_nat (Z.min (hi + 1) N - Z.max lo a).
Proof.
  induction n as [|n IH]; intros a Hn.
  - rewrite for_range_nil by lia. simpl. lia.
  - destruct (Z_lt_le_dec a N) as [Ha | Ha].
    2:{ rewrite for_range_nil by lia. simpl. lia. }
    rewrite for_range_cons by lia. simpl.
    specialize (IH (a + 1) ltac:(lia)).
    destruct (lo <=? a) eqn:E1; simpl.
    + apply Z.leb_le in E1. destruct (a <=? hi) eqn:E2; simpl; rewrite IH.
      * apply Z.leb_le in E2. lia.
      * apply Z.leb_gt in E2. lia.
    + apply Z.leb_gt in E1. rewrite IH. lia.
Qed.

Lemma mul_le_div (c P W : Z) : 0 < P -> (c * P <= W <-> c <= W / P).
Proof.
  intros HP. split; intros H.
  - apply Z.div_le_lower_bound; lia.
  - pose proof (Z.mul_div_le W P HP). nia.
Qed.

Lemma mul_lt_ceil (r P H : Z) : 0 < P -> (r * P < H <-> r <= (H + P - 1) / P - 1).
Proof.
  intros HP.
  assert (E : r <= (H + P - 1) / P - 1 <-> r + 1 <= (H + P - 1) / P) by lia.
  rewrite E, <- mul_le_div by assumption. lia.
Qed.

Lemma fold_fillRow_sameGrid (outline : list wxPoint) (rows : list Z) :
  forall m, sameGrid m (fold_left (fillRow outline) rows m).
Proof.
  induction rows as [|refy rows IH]; intros m; simpl; [apply sameGrid_refl|].
  eapply sameGrid_trans; [apply fillRow_sameGrid | apply IH].
Qed.

(** C7, as the code has it: for a rectangular outline of width [W] and
    height [H] whose corner is the origin of a matrix of pitch [P] without
    zone marks, the scan-line fill succeeds and marks the cells of the rows
    [r] with [1 <= r] and [r * P < H] (row 0 is left out) and of the columns
    [c] with [0 <= c] and [c * P <= W] (both ends of a segment are filled),
    within the matrix: [min (floor (W / P) + 1) Ncols] columns in each of
    [min (ceil (H / P)) Nrows - 1] rows. *)
Theorem fillMatrix_rectangle_count (m : AR_MATRIX) (x0 y0 W H : Z) :
  0 < W -> 0 < H -> 0 < m_GridRouting m ->
  GetBrdCoordOrigin m = mkPoint x0 y0 ->
  1 <= m_Nrows m -> 0 <= m_Ncols m ->
  (forall r c, hasZone (GetCell m r c AR_SIDE_BOTTOM) = false) ->
  let P := m_GridRouting m in
  let m' := snd (fillMatrix m (rectOutline x0 y0 W H)) in
  fst (fillMatrix m (rectOutline x0 y0 W H)) = true /\
  (forall r c, zoneAt m' (r, c) = true <->
               1 <= r < m_Nrows m /\ r * P < H /\ 0 <= c < m_Ncols m /\ c * P <= W) /\
  countZone m' =
    Z.min (W / P + 1) (m_Ncols m) * (Z.min ((H + P - 1) / P) (m_Nrows m) - 1).
Proof.
  intros HW HH HP Ho Hr Hc Hblank P m'.
  assert (Hx : px (GetBrdCoordOrigin m) = x0) by (rewrite Ho; reflexivity).
  assert (Hy : py (GetBrdCoordOrigin m) = y0) by (rewrite Ho; reflexivity).
  set (outline := rectOutline x0 y0 W H) in *.
  set (rows := scannedRows m (scanLines m outline)).
  assert (Hrows : forall refy, In refy rows <->
            exists k, 0 <= k /\ refy = y0 + k * P /\ 1 <= k < m_Nrows m /\ k * P < H).
  { intros refy. subst rows. unfold scanLines, outline.
    destruct (BBox_rect x0 y0 W H) as [-> ->]; try lia.
    replace y0 with (y0 + 0 * m_GridRouting m) at 1 by ring.
    apply (scannedRows_rect m y0 H HP Hy (Z.to_nat (H - 0 * m_GridRouting m))); lia. }
  assert (Hin : forall refy, In refy rows -> y0 <= refy < y0 + H).
  { intros refy Hrefy. apply Hrows in Hrefy. destruct Hrefy as (k & A & -> & B & C). nia. }
  assert (Heven : existsb (oddRow outline) rows = false).
  { destruct (existsb (oddRow outline) rows) eqn:E; [|reflexivity].
    apply existsb_exists in E. destruct E as (refy & Hrefy & Hodd).
    unfold oddRow, oddRowWith, outline in Hodd. rewrite x_coordinates_rect in Hodd by (apply Hin, Hrefy).
    discriminate. }
  assert (Hfill : fillMatrix m outline = (true, fold_left (fillRow outline) rows m)).
  { unfold fillMatrix. rewrite fillRows_scanned. fold rows.
    destruct (fillScanned_outcome outline rows m)
      as [[_ E] | (l1 & r & l2 & E & _ & Hodd & _)]; [exact E|].
    exfalso. rewrite E, existsb_app in Heven. simpl in Heven.
    rewrite Hodd, orb_true_r in Heven. discriminate. }
  assert (Hcells : forall r c, zoneAt m' (r, c) = true <->
            1 <= r < m_Nrows m /\ r * P < H /\ 0 <= c < m_Ncols m /\ c * P <= W).
  { intros r c. subst m'. rewrite Hfill. simpl snd. unfold zoneAt. simpl fst. simpl snd.
    destruct (fold_fillRow_rect x0 y0 W H rows ltac:(lia) m r c AR_SIDE_BOTTOM HP Hx Hin)
      as [F1 F2].
    fold outline in F1, F2. split.
    - intros Hz.
      destruct (classic (AR_SIDE_BOTTOM = AR_SIDE_BOTTOM /\ 0 <= c < m_Ncols m /\
                         c * m_GridRouting m <= W /\
                         exists refy, In refy rows /\ r = rowOf m refy))
        as [(_ & A & B & (refy & Hrefy & Hrow)) | Hn].
      + apply Hrows in Hrefy. destruct Hrefy as (k & K1 & -> & K2 & K3).
        rewrite rowOf_grid in Hrow by assumption. subst r. split_all.
      + rewrite (F2 Hn), Hblank in Hz. discriminate.
    - intros (A & B & C & D). rewrite F1; [reflexivity|]. split_all.
      exists (y0 + r * P). split.
      + apply Hrows. exists r. split_all.
      + symmetry. apply rowOf_grid; assumption. }
  split; [rewrite Hfill; reflexivity|]. split; [exact Hcells|].
  unfold countZone.
  assert (Hgrid : sameGrid m m').
  { subst m'. rewrite Hfill. simpl. apply fold_fillRow_sameGrid. }
  destruct Hgrid as (_ & _ & -> & ->).
  rewrite (filter_ext_in (zoneAt m')
             (fun rc => ((1 <=? fst rc) && (fst rc <=? (H + P - 1) / P - 1)) &&
                        ((0 <=? snd rc) && (snd rc <=? W / P)))).
  - rewrite (filter_list_prod_length
               (fun r => (1 <=? r) && (r <=? (H + P - 1) / P - 1))
               (fun c => (0 <=? c) && (c <=? W / P))).
    rewrite (count_range 1 ((H + P - 1) / P - 1) (m_Nrows m) (Z.to_nat (m_Nrows m - 0)) 0)
      by lia.
    rewrite (count_range 0 (W / P) (m_Ncols m) (Z.to_nat (m_Ncols m - 0)) 0) by lia.
    assert (1 <= (H + P - 1) / P) by (apply Z.div_le_lower_bound; lia).
    assert (0 <= W / P) by (apply Z.div_pos; lia).
    rewrite Nat2Z.inj_mul, !Z2Nat.id by lia. lia.
  - intros [r c] Hrc. apply in_prod_iff in Hrc. destruct Hrc as [Hr' Hc'].
    apply for_range_In_1 in Hr', Hc'. simpl fst. simpl snd.
    destruct (zoneAt m' (r, c)) eqn:E.
    + apply Hcells in E. destruct E as (A & B & C & D).
      apply mul_lt_ceil in B; [|assumption]. apply mul_le_div in D; [|assumption].
      symmetry. rewrite !andb_true_iff, !Z.leb_le. lia.
    + symmetry. apply not_true_is_false. intros Ht.
      rewrite !andb_true_iff, !Z.leb_le in Ht.
      assert (zoneAt m' (r, c) = true); [|congruence].
      apply Hcells. destruct Ht as [[A B] [C D]].
      apply mul_lt_ceil in B; [|assumption]. apply mul_le_div in D; [|assumption].
      split_all.
Qed.

(** A rectangle of 25 x 25 at pitch 10 on a matrix of 4 x 4 cells: 3 columns
    in each of 2 rows. *)
Lemma fillMatrix_rectangle_25 :
  countZone (snd (fillMatrix (blankMatrix 4 4) (rectOutline 0 0 25 25))) = 6.
Proof.
  exact (proj2 (proj2 (fillMatrix_rectangle_count (blankMatrix 4 4) 0 0 25 25
                         eq_refl eq_refl eq_refl eq_refl
                         ltac:(discriminate) ltac:(discriminate)
                         (fun r c => eq_refl)))).
Defined.

(** C7, as the specification words it, fails for a rectangle of 20 x 20 at
    pitch 10: [floor (20 / 10) * floor (20 / 10)] is 4, and the fill marks 2
    cells on a matrix of 2 x 2 cells (the size section 4.1 gives) and 3
    cells on a larger one, all of them in row 1. *)
Lemma fillMatrix_rectangle_not_floor_product :
  (20 / 10) * (20 / 10) = 4 /\
  countZone (snd (fillMatrix (blankMatrix 2 2) (rectOutline 0 0 20 20))) = 2 /\
  countZone (snd (fillMatrix (blankMatrix 4 4) (rectOutline 0 0 20 20))) = 3 /\
  filter (zoneAt (snd (fillMatrix (blankMatrix 4 4) (rectOutline 0 0 20 20))))
         (list_prod [0; 1; 2; 3] [0; 1; 2; 3]) = [(1, 0); (1, 1); (1, 2)].
Proof. vm_compute. repeat split; reflexivity. Qed.

(** ** Orchestrator *)

Lemma update_length (l : list MODULE) (i : nat) (f : MODULE -> MODULE) :
  length (update l i f) = length l.
Proof.
  revert i; induction l as [|x l IH]; intros [|i]; simpl; try reflexivity.
  rewrite IH. reflexivity.
Qed.

Lemma nth_error_update (l : list MODULE) (i j : nat) (f : MODULE -> MODULE) :
  nth_error (update l i f) j =
  if Nat.eqb j i then option_map f (nth_error l j) else nth_error l j.
Proof.
  revert i j; induction l as [|x l IH]; intros i j.
  - replace (nth_error (update [] i f) j) with (@None MODULE)
      by (destruct i, j; reflexivity).
    replace (nth_error [] j) with (@None MODULE) by (destruct j; reflexivity).
    destruct (Nat.eqb j i); reflexivity.
  - destruct i as [|i], j as [|j]; simpl; try reflexivity. apply IH.
Qed.

Lemma update_update (l : list MODULE) (i : nat) (f g : MODULE -> MODULE) :
  update (update l i f) i g = update l i (fun fp => g (f fp)).
Proof.
  revert i; induction l as [|x l IH]; intros [|i]; simpl; try reflexivity.
  rewrite IH. reflexivity.
Qed.

Lemma update_ext (l : list MODULE) (i : nat) (f g : MODULE -> MODULE) :
  (forall fp, nth_error l i = Some fp -> f fp = g fp) -> update l i f = update l i g.
Proof.
  revert i; induction l as [|x l IH]; intros [|i] H; simpl; try reflexivity.
  - rewrite (H x eq_refl). reflexivity.
  - rewrite (IH i H). reflexivity.
Qed.

Lemma upToFlag_refl (fp : MODULE) : upToFlag fp fp.
Proof. reflexivity. Qed.

Lemma upToFlag_trans (a b c : MODULE) : upToFlag a b -> upToFlag b c -> upToFlag a c.
Proof. unfold upToFlag. congruence. Qed.

Lemma upToFlag_SetFlag (fp : MODULE) (f : Z) : upToFlag fp (SetFlag fp f).
Proof. reflexivity. Qed.

Lemma upToFlag_fields (fp fp' : MODULE) :
  upToFlag fp fp' ->
  fp_Pos fp' = fp_Pos fp /\ fp_Orient fp' = fp_Orient fp /\
  fp_NeedsPlaced fp' = fp_NeedsPlaced fp /\ fp_IsPlaced fp' = fp_IsPlaced fp /\
  fp_CntRot90 fp' = fp_CntRot90 fp /\ fp_CntRot180 fp' = fp_CntRot180 fp.
Proof.
  unfold upToFlag, SetFlag. intros H. injection H as H1 H2 H3 H4 H5 H6 H7 H8.
  repeat split; assumption.
Qed.

Lemma Forall2_upToFlag_refl (l : list MODULE) : Forall2 upToFlag l l.
Proof. induction l; constructor; [apply upToFlag_refl | assumption]. Qed.

Lemma Forall2_upToFlag_trans (a b c : list MODULE) :
  Forall2 upToFlag a b -> Forall2 upToFlag b c -> Forall2 upToFlag a c.
Proof.
  intros H; revert c; induction H as [|x y a b Hxy _ IH]; intros c Hc;
    inversion Hc; subst; constructor.
  - eapply upToFlag_trans; eassumption.
  - apply IH; assumption.
Qed.

Lemma Forall2_upToFlag_update (l : list MODULE) (i : nat) (f : Z) :
  Forall2 upToFlag l (update l i (fun fp => SetFlag fp f)).
Proof.
  revert i; induction l as [|x l IH]; intros i; [destruct i; constructor|].
  destruct i as [|i]; simpl; constructor.
  - reflexivity.
  - apply Forall2_upToFlag_refl.
  - apply upToFlag_refl.
  - apply IH.
Qed.

Lemma samePlacer_refl (p : AR_AUTOPLACER) : samePlacer p p.
Proof. unfold samePlacer. repeat split. apply Forall2_upToFlag_refl. Qed.

Lemma samePlacer_trans (a b c : AR_AUTOPLACER) :
  samePlacer a b -> samePlacer b c -> samePlacer a c.
Proof.
  unfold samePlacer.
  intros (A1 & A2 & A3 & A4 & A5 & A6 & A7 & A8 & A9)
         (B1 & B2 & B3 & B4 & B5 & B6 & B7 & B8 & B9).
  repeat split; try congruence. eapply Forall2_upToFlag_trans; eassumption.
Qed.

Lemma samePlacer_SetFlag (p : AR_AUTOPLACER) (kk : nat) (f : Z) :
  samePlacer p (modify p kk (fun fp => SetFlag fp f)).
Proof.
  unfold samePlacer, modify, footprints. simpl. repeat split.
  apply Forall2_upToFlag_update.
Qed.

Lemma fold_SetFlag_samePlacer (g : AR_AUTOPLACER -> nat -> Z) (fpList : list nat) :
  forall p,
    samePlacer p (fold_left (fun p kk => modify p kk (fun fp => SetFlag fp (g p kk))) fpList p).
Proof.
  induction fpList as [|kk fpList IH]; intros p; simpl; [apply samePlacer_refl|].
  eapply samePlacer_trans; [apply samePlacer_SetFlag | apply IH].
Qed.

(** [searchBest] answers with the address of a footprint that needs to be
    placed, if with any. *)
Lemma searchBest_needsPlaced (brd : list MODULE) (fpList : list nat) :
  forall alt,
    (forall a, alt = Some a -> exists fp, nth_error brd a = Some fp /\ fp_NeedsPlaced fp = true) ->
    (forall b, fst (searchBest brd fpList alt) = Some b ->
               exists fp, nth_error brd b = Some fp /\ fp_NeedsPlaced fp = true) /\
    (forall a, snd (searchBest brd fpList alt) = Some a ->
               exists fp, nth_error brd a = Some fp /\ fp_NeedsPlaced fp = true).
Proof.
  induction fpList as [|i fpList IH]; intros alt Halt; simpl.
  - split; [discriminate | exact Halt].
  - destruct (nth_error brd i) as [fp|] eqn:E; [|apply IH; exact Halt].
    destruct (fp_NeedsPlaced fp) eqn:N; simpl; [|apply IH; exact Halt].
    destruct (fp_Flag fp =? 0).
    + apply IH. intros a Ha. injection Ha as <-. exists fp. split; assumption.
    + simpl. split; intros b Hb; injection Hb as <-; exists fp; split; assumption.
Qed.

(** [pickFootprint] changes the scratch counters only, and what it picks
    needs to be placed. *)
Lemma pickFootprint_outcome (sv : AR_SERVICES) (p : AR_AUTOPLACER) :
  samePlacer p (snd (pickFootprint sv p)) /\
  forall i, fst (pickFootprint sv p) = Some i ->
            exists fp, nth_error (footprints (snd (pickFootprint sv p))) i = Some fp /\
                       fp_NeedsPlaced fp = true.
Proof.
  unfold pickFootprint.
  set (l1 := std_sort sv _ _).
  set (p1 := fold_left (fun p kk => modify p kk (fun fp => SetFlag fp 0)) l1 p).
  set (p2 := fold_left _ l1 p1).
  set (l2 := std_sort sv _ l1).
  assert (S1 : samePlacer p p1)
    by (apply (fold_SetFlag_samePlacer (fun _ _ => 0))).
  assert (S2 : samePlacer p1 p2)
    by (apply (fold_SetFlag_samePlacer
                 (fun p kk => RatsnestForComponent sv (footprints p) kk))).
  destruct (searchBest_needsPlaced (footprints p2) l2 None ltac:(discriminate)) as [B A].
  destruct (searchBest (footprints p2) l2 None) as [[b|] alt] eqn:E; simpl in *.
  - split; [eapply samePlacer_trans; eassumption|]. intros i Hi. apply B. exact Hi.
  - split; [eapply samePlacer_trans; eassumption|]. intros i Hi. apply A. exact Hi.
Qed.

Lemma SetOrientation_same (fp : MODULE) : SetOrientation fp (fp_Orient fp) = fp.
Proof. destruct fp; reflexivity. Qed.

Lemma update_same (l : list MODULE) (i : nat) (fp0 : MODULE) :
  nth_error l i = Some fp0 -> update l i (fun _ => fp0) = l.
Proof.
  revert i; induction l as [|x l IH]; intros [|i] H; simpl in *; try discriminate.
  - injection H as ->. reflexivity.
  - rewrite (IH i H). reflexivity.
Qed.

Lemma nth_update_same (l : list MODULE) (i : nat) (f : MODULE -> MODULE) (d : MODULE) :
  (i < length l)%nat -> nth i (update l i f) d = f (nth i l d).
Proof.
  revert i; induction l as [|x l IH]; intros [|i] H; simpl in *; try lia.
  - reflexivity.
  - apply IH. lia.
Qed.

Lemma rotatedOnly_refl (p : AR_AUTOPLACER) (i : nat) (fp0 : MODULE) :
  nth_error (footprints p) i = Some fp0 -> rotatedOnly p i fp0 p.
Proof.
  intros H. unfold rotatedOnly. repeat split.
  exists (fp_Orient fp0). rewrite SetOrientation_same, update_same by assumption.
  reflexivity.
Qed.

Lemma rotatedOnly_rotate (p : AR_AUTOPLACER) (i : nat) (fp0 : MODULE) (p' : AR_AUTOPLACER)
    (angle : Z) (incremental : bool) :
  nth_error (footprints p) i = Some fp0 ->
  rotatedOnly p i fp0 p' -> rotatedOnly p i fp0 (rotateFootprint p' i angle incremental).
Proof.
  intros Hi ((o & Ho) & A & B & C & D & E & F).
  unfold rotatedOnly, rotateFootprint, modify, footprints in *. simpl.
  repeat split; try assumption.
  rewrite Ho, update_update.
  exists (if incremental then o + angle else angle).
  apply update_ext. intros fp _. destruct incremental; reflexivity.
Qed.

Lemma rotatedOnly_search (p : AR_AUTOPLACER) (i : nat) (fp0 : MODULE) (p' : AR_AUTOPLACER)
    (c : wxPoint) (cost : PrimFloat.float) :
  rotatedOnly p i fp0 p' -> rotatedOnly p i fp0 (set_minCost (set_curPosition p' c) cost).
Proof. intros H. exact H. Qed.

Lemma runSearch_error (p : AR_AUTOPLACER) (i : nat) (fp0 : MODULE) :
  fst (runSearch p i fp0) = 0 \/ fst (runSearch p i fp0) = 1.
Proof.
  unfold runSearch. simpl.
  destruct (getOptimalFPPlacement_outcome (footprints p) (m_matrix p) i (footprintAt p i fp0))
    as [[_ ->] | [_ (l1 & best & l2 & _ & _ & -> & _)]]; simpl; [right | left]; reflexivity.
Qed.

Lemma tryRotation_invariant (p : AR_AUTOPLACER) (i : nat) (fp0 : MODULE) (e : EVAL)
    (angle rotAllowed : Z) :
  nth_error (footprints p) i = Some fp0 ->
  evalInvariant p i fp0 e ->
  let e' := tryRotation angle rotAllowed (fp_Orient fp0) i fp0 e in
  rotatedOnly p i fp0 (e_placer e') /\
  (e_error e' = 0 \/ e_error e' = 1) /\
  (e_bestRotation e' = e_bestRotation e \/ e_bestRotation e' = angle).
Proof.
  intros Hi (Hr & He & Hb) e'. subst e'. unfold tryRotation.
  pose proof (runSearch_error (rotateFootprint (e_placer e) i angle true) i fp0) as Herr.
  pose proof (rotatedOnly_rotate p i fp0 (e_placer e) angle true Hi Hr) as Hr1.
  destruct (runSearch (rotateFootprint (e_placer e) i angle true) i fp0) as [error p1] eqn:E.
  assert (Hp1 : rotatedOnly p i fp0 p1).
  { unfold runSearch in E. injection E as _ <-. exact Hr1. }
  simpl in Herr.
  destruct (PrimFloat.ltb (m_minCost (set_minCost p1 _)) (e_bestScore e)); simpl.
  - split; [exact Hp1|]. split; [exact Herr | right; reflexivity].
  - split; [|split; [exact Herr | left; reflexivity]].
    apply (rotatedOnly_rotate p i fp0 (set_minCost p1 _) (fp_Orient fp0) false Hi). exact Hp1.
Qed.

Lemma not_abort (x : Z) : x = 0 \/ x = 1 -> (x =? AR_ABORT_PLACEMENT) = false.
Proof. intros [-> | ->]; reflexivity. Qed.

(** The trials of one footprint: they turn this footprint only, they never
    end on the abort code, and the rotation they settle on is one its cost
    classes allow. *)
Lemma evaluateOrientations_outcome (p : AR_AUTOPLACER) (i : nat) (fp0 : MODULE) :
  nth_error (footprints p) i = Some fp0 ->
  let e := evaluateOrientations p i fp0 in
  rotatedOnly p i fp0 (e_placer e) /\
  (e_error e = 0 \/ e_error e = 1) /\
  allowedRotation fp0 (e_bestRotation e).
Proof.
  intros Hi e. subst e. unfold evaluateOrientations.
  pose proof (runSearch_error p i fp0) as Herr.
  destruct (runSearch p i fp0) as [error p1] eqn:E. simpl in Herr.
  assert (Hp1 : rotatedOnly p i fp0 p1).
  { unfold runSearch in E. injection E as _ <-.
    apply rotatedOnly_search, rotatedOnly_refl, Hi. }
  rewrite (not_abort error Herr).
  set (e0 := mkEval p1 error (m_minCost p1) 0).
  assert (I0 : evalInvariant p i fp0 e0)
    by (split; [exact Hp1 | split; [exact Herr | left; reflexivity]]).
  assert (B0 : e_bestRotation e0 = 0) by reflexivity.
  unfold GetPlacementCost180, GetPlacementCost90.
  (* the half turn *)
  set (e1 := if negb (fp_CntRot180 fp0 =? 0)
             then tryRotation 1800 (fp_CntRot180 fp0) (fp_Orient fp0) i fp0 e0 else e0).
  assert (I1 : evalInvariant p i fp0 e1 /\
               (e_bestRotation e1 = 0 \/ (fp_CntRot180 fp0 <> 0 /\ e_bestRotation e1 = 1800))).
  { subst e1. destruct (fp_CntRot180 fp0 =? 0) eqn:C; simpl.
    - split; [exact I0 | left; reflexivity].
    - apply Z.eqb_neq in C.
      destruct (tryRotation_invariant p i fp0 e0 1800 (fp_CntRot180 fp0) Hi I0)
        as (A1 & A2 & A3).
      split.
      + split; [exact A1 | split; [exact A2|]]. destruct A3 as [-> | ->]; auto.
      + destruct A3 as [-> | ->]; auto. }
  destruct I1 as [I1 B1].
  assert (N1 : negb (fp_CntRot180 fp0 =? 0) && (e_error e1 =? AR_ABORT_PLACEMENT) = false).
  { destruct I1 as (_ & He & _). rewrite (not_abort _ He). apply andb_false_r. }
  rewrite N1.
  (* the quarter turn *)
  set (e2 := if negb (fp_CntRot90 fp0 =? 0)
             then tryRotation 900 (fp_CntRot90 fp0) (fp_Orient fp0) i fp0 e1 else e1).
  assert (I2 : evalInvariant p i fp0 e2 /\
               (e_bestRotation e2 = e_bestRotation e1 \/
                (fp_CntRot90 fp0 <> 0 /\ e_bestRotation e2 = 900))).
  { subst e2. destruct (fp_CntRot90 fp0 =? 0) eqn:C; simpl.
    - split; [exact I1 | left; reflexivity].
    - apply Z.eqb_neq in C.
      destruct (tryRotation_invariant p i fp0 e1 900 (fp_CntRot90 fp0) Hi I1)
        as (A1 & A2 & A3).
      split.
      + split; [exact A1 | split; [exact A2|]].
        destruct I1 as (_ & _ & Hb). destruct A3 as [-> | ->]; auto.
      + destruct A3 as [-> | ->]; auto. }
  destruct I2 as [I2 B2].
  assert (N2 : negb (fp_CntRot90 fp0 =? 0) && (e_error e2 =? AR_ABORT_PLACEMENT) = false).
  { destruct I2 as (_ & He & _). rewrite (not_abort _ He). apply andb_false_r. }
  rewrite N2.
  (* the three-quarter turn *)
  destruct (fp_CntRot90 fp0 =? 0) eqn:C; cbn [negb].
  - destruct I2 as (A1 & A2 & _). split; [exact A1 | split; [exact A2|]].
    apply Z.eqb_eq in C. unfold allowedRotation.
    destruct B2 as [-> | [B2 _]]; [|contradiction].
    destruct B1 as [-> | [B1 ->]]; auto.
  - apply Z.eqb_neq in C.
    destruct (tryRotation_invariant p i fp0 e2 2700 (fp_CntRot90 fp0) Hi I2)
      as (A1 & A2 & A3).
    split; [exact A1 | split; [exact A2|]]. unfold allowedRotation.
    destruct A3 as [-> | ->]; [|auto].
    destruct B2 as [-> | [_ ->]]; [|auto].
    destruct B1 as [-> | [B1 ->]]; auto.
Qed.

(** The commit of the loop body: the footprint picked, and no other, is
    turned by the rotation found, moved to [m_curPosition] and flagged as
    placed. *)
Lemma commitPlacement_outcome (sv : AR_SERVICES) (p : AR_AUTOPLACER) (i : nat)
    (fp0 : MODULE) (e : EVAL) :
  nth_error (footprints p) i = Some fp0 ->
  rotatedOnly p i fp0 (e_placer e) ->
  let p' := commitPlacement sv e i fp0 in
  footprints p' =
    update (footprints p) i
           (fun _ => committed fp0 (e_bestRotation e) (m_curPosition (e_placer e))) /\
  m_progressReporter p' = m_progressReporter p /\ m_commit p' = m_commit p.
Proof.
  intros Hi ((o & Ho) & _ & _ & _ & _ & Hrep & Hcom) p'. subst p'.
  assert (Hlen : (i < length (footprints p))%nat)
    by (apply nth_error_Some; rewrite Hi; discriminate).
  unfold commitPlacement, footprintAt.
  set (best := e_bestRotation e + fp_Orient fp0).
  assert (Hrot : exists pr,
    (if negb (best =? fp_Orient (nth i (footprints (e_placer e)) fp0))
     then rotateFootprint (e_placer e) i best false else e_placer e) = pr /\
    footprints pr = update (footprints p) i (fun _ => SetOrientation fp0 best) /\
    m_curPosition pr = m_curPosition (e_placer e) /\
    m_progressReporter pr = m_progressReporter p /\ m_commit pr = m_commit p).
  { eexists. split; [reflexivity|].
    rewrite Ho, nth_update_same by exact Hlen. simpl fp_Orient.
    destruct (best =? o) eqn:E; simpl.
    - apply Z.eqb_eq in E. subst o. rewrite Ho. repeat split; assumption.
    - unfold rotateFootprint, modify, footprints in *. simpl.
      rewrite Ho, update_update. repeat split; assumption. }
  destruct Hrot as (pr & -> & Hf & Hc & Hr & Hm).
  unfold placeFootprint, modify, footprints in *. simpl.
  rewrite Hf, !update_update, Hc. repeat split; assumption.
Qed.

Lemma Forall2_update_at {R : MODULE -> MODULE -> Prop} (l : list MODULE) (i : nat)
    (x y : MODULE) :
  (forall z, R z z) -> nth_error l i = Some x -> R x y ->
  Forall2 R l (update l i (fun _ => y)).
Proof.
  intros Hrefl. revert i; induction l as [|a l IH]; intros [|i] Hi Hxy; simpl in *;
    try discriminate.
  - injection Hi as ->. constructor; [exact Hxy|].
    clear - Hrefl. induction l as [|b l IHl]; [constructor|].
    constructor; [apply Hrefl | exact IHl].
  - constructor; [apply Hrefl | apply IH; assumption].
Qed.

Lemma loopStep_refl (fp : MODULE) : loopStep fp fp.
Proof. left. apply upToFlag_refl. Qed.

Lemma committed_upToFlag (a b : MODULE) (d : Z) (pos : wxPoint) :
  upToFlag a b -> upToFlag (committed a d pos) (committed b d pos).
Proof.
  unfold upToFlag, committed, SetFlag, SetNeedsPlaced, SetIsPlaced, SetPosition,
    SetOrientation. simpl. intros H. injection H as H1 H2 H3 H4 H5 H6 H7 H8. congruence.
Qed.

Lemma allowedRotation_upToFlag (a b : MODULE) (d : Z) :
  upToFlag a b -> allowedRotation b d -> allowedRotation a d.
Proof.
  intros H. destruct (upToFlag_fields a b H) as (_ & _ & _ & _ & H90 & H180).
  unfold allowedRotation. rewrite H90, H180. tauto.
Qed.

Lemma loopStep_trans (a b c : MODULE) : loopStep a b -> loopStep b c -> loopStep a c.
Proof.
  intros [Hab | (Na & d & pos & Hd & Hab)] [Hbc | (Nb & d' & pos' & Hd' & Hbc)].
  - left. eapply upToFlag_trans; eassumption.
  - right. destruct (upToFlag_fields a b Hab) as (_ & _ & N & _). split; [congruence|].
    exists d', pos'. split; [eapply allowedRotation_upToFlag; eassumption|].
    eapply upToFlag_trans; [apply committed_upToFlag; exact Hab | exact Hbc].
  - right. split; [exact Na|]. exists d, pos. split; [exact Hd|].
    eapply upToFlag_trans; eassumption.
  - exfalso. destruct (upToFlag_fields _ _ Hab) as (_ & _ & N & _).
    simpl in N. congruence.
Qed.

Lemma Forall2_loopStep_trans (a b c : list MODULE) :
  Forall2 loopStep a b -> Forall2 loopStep b c -> Forall2 loopStep a c.
Proof.
  intros H; revert c; induction H as [|x y a b Hxy _ IH]; intros c Hc;
    inversion Hc; subst; constructor.
  - eapply loopStep_trans; eassumption.
  - apply IH; assumption.
Qed.

Lemma Forall2_upToFlag_loopStep (a b : list MODULE) :
  Forall2 upToFlag a b -> Forall2 loopStep a b.
Proof. induction 1; constructor; [left|]; assumption. Qed.

Lemma needsPlacedCount_update (l : list MODULE) (i : nat) (x y : MODULE) :
  nth_error l i = Some x -> fp_NeedsPlaced x = true -> fp_NeedsPlaced y = false ->
  S (needsPlacedCount (update l i (fun _ => y))) = needsPlacedCount l.
Proof.
  intros Hi Hx Hy. unfold needsPlacedCount. revert i Hi.
  induction l as [|a l IH]; intros [|i] Hi; simpl in *; try discriminate.
  - injection Hi as ->. rewrite Hx, Hy. reflexivity.
  - destruct (fp_NeedsPlaced a); simpl; rewrite <- (IH i Hi); reflexivity.
Qed.

(** One iteration of the loop, from the footprint picked to its commit. *)
Lemma iteration_outcome (sv : AR_SERVICES) (p : AR_AUTOPLACER) (i : nat) (fp0 : MODULE) :
  nth_error (footprints p) i = Some fp0 -> fp_NeedsPlaced fp0 = true ->
  let e := evaluateOrientations p i fp0 in
  let p' := commitPlacement sv e i fp0 in
  (e_error e =? AR_ABORT_PLACEMENT) = false /\
  Forall2 loopStep (footprints p) (footprints p') /\
  S (needsPlacedCount (footprints p')) = needsPlacedCount (footprints p) /\
  m_progressReporter p' = m_progressReporter p.
Proof.
  intros Hi Hn e p'.
  destruct (evaluateOrientations_outcome p i fp0 Hi) as (Hr & He & Hb). fold e in Hr, He, Hb.
  destruct (commitPlacement_outcome sv p i fp0 e Hi Hr) as (Hf & Hrep & _). fold p' in Hf, Hrep.
  split; [apply not_abort, He|]. rewrite Hf. split; [|split; [|exact Hrep]].
  - apply (Forall2_update_at (footprints p) i fp0); [apply loopStep_refl | exact Hi|].
    right. split; [exact Hn|]. exists (e_bestRotation e), (m_curPosition (e_placer e)).
    split; [exact Hb | apply upToFlag_refl].
  - apply (needsPlacedCount_update (footprints p) i fp0); [exact Hi | exact Hn | reflexivity].
Qed.

Lemma needsPlacedCount_upToFlag (a b : list MODULE) :
  Forall2 upToFlag a b -> needsPlacedCount b = needsPlacedCount a.
Proof.
  unfold needsPlacedCount. induction 1 as [|x y a b Hxy _ IH]; simpl; [reflexivity|].
  destruct (upToFlag_fields x y Hxy) as (_ & _ & -> & _).
  destruct (fp_NeedsPlaced x); simpl; rewrite IH; reflexivity.
Qed.

(** The loop is left after at most one iteration per footprint to place; it
    commits footprints that needed to be placed and leaves the others as
    they were; it is left cancelled only on the word of the progress
    reporter. *)
Lemma placeLoop_outcome (sv : AR_SERVICES) (fuel : nat) :
  forall (p : AR_AUTOPLACER) (cnt : nat),
    (needsPlacedCount (footprints p) < fuel)%nat ->
    exists cancelled p',
      placeLoop sv fuel p cnt = Some (cancelled, p') /\
      Forall2 loopStep (footprints p) (footprints p') /\
      (cancelled = true -> m_progressReporter p <> None).
Proof.
  induction fuel as [|fuel IH]; intros p cnt Hfuel; [lia|].
  cbn [placeLoop]. destruct (pickFootprint_outcome sv p) as [Hsame Hpick].
  destruct (pickFootprint sv p) as [[i|] p1] eqn:E; simpl in Hsame, Hpick.
  2:{ exists false, p1. split; [reflexivity|]. split; [|discriminate].
      apply Forall2_upToFlag_loopStep, Hsame. }
  destruct (Hpick i eq_refl) as (fp0 & Hi & Hn). rewrite Hi.
  destruct (iteration_outcome sv p1 i fp0 Hi Hn) as (Hab & Hstep & Hcount & Hrep).
  cbv zeta. rewrite Hab.
  assert (Hstep' : Forall2 loopStep (footprints p)
                     (footprints (commitPlacement sv (evaluateOrientations p1 i fp0) i fp0))).
  { eapply Forall2_loopStep_trans; [apply Forall2_upToFlag_loopStep, Hsame | exact Hstep]. }
  assert (Hrep' : m_progressReporter (commitPlacement sv (evaluateOrientations p1 i fp0) i fp0)
                  = m_progressReporter p).
  { rewrite Hrep. apply Hsame. }
  assert (Hc1 : needsPlacedCount (footprints p1) = needsPlacedCount (footprints p))
    by (apply needsPlacedCount_upToFlag, Hsame).
  assert (Hnext : exists cancelled p',
            placeLoop sv fuel (commitPlacement sv (evaluateOrientations p1 i fp0) i fp0) (S cnt)
            = Some (cancelled, p') /\
            Forall2 loopStep (footprints p) (footprints p') /\
            (cancelled = true -> m_progressReporter p <> None)).
  { destruct (IH (commitPlacement sv (evaluateOrientations p1 i fp0) i fp0) (S cnt))
      as (c & p' & E1 & E2 & E3); [lia|].
    exists c, p'. split; [exact E1|]. split.
    - eapply Forall2_loopStep_trans; eassumption.
    - intros Hc. rewrite <- Hrep'. exact (E3 Hc). }
  destruct (m_progressReporter (commitPlacement sv (evaluateOrientations p1 i fp0) i fp0))
    as [keep|].
  - destruct (keep cnt); simpl; [exact Hnext|].
    eexists true, _. split; [reflexivity|]. split; [exact Hstep'|].
    intros _. congruence.
  - exact Hnext.
Qed.

Lemma samePose_refl (fp : MODULE) : samePose fp fp.
Proof. reflexivity. Qed.

Lemma samePose_trans (a b c : MODULE) : samePose a b -> samePose b c -> samePose a c.
Proof. unfold samePose. congruence. Qed.

Lemma samePose_fields (fp fp' : MODULE) :
  samePose fp fp' ->
  fp_Pos fp' = fp_Pos fp /\ fp_Orient fp' = fp_Orient fp /\
  fp_IsPlaced fp' = fp_IsPlaced fp /\
  fp_CntRot90 fp' = fp_CntRot90 fp /\ fp_CntRot180 fp' = fp_CntRot180 fp.
Proof.
  unfold samePose, SetNeedsPlaced, SetFlag. simpl. intros H.
  injection H as H1 H2 H3 H4 H5 H6 H7. repeat split; assumption.
Qed.

Lemma upToFlag_samePose (a b : MODULE) : upToFlag a b -> samePose a b.
Proof. unfold upToFlag, samePose. intros ->. reflexivity. Qed.

Lemma samePose_SetNeedsPlaced (fp : MODULE) (b : bool) : samePose fp (SetNeedsPlaced fp b).
Proof. reflexivity. Qed.

Lemma Forall2_samePose_refl (l : list MODULE) : Forall2 samePose l l.
Proof. induction l; constructor; [apply samePose_refl | assumption]. Qed.

Lemma Forall2_samePose_trans (a b c : list MODULE) :
  Forall2 samePose a b -> Forall2 samePose b c -> Forall2 samePose a c.
Proof.
  intros H; revert c; induction H as [|x y a b Hxy _ IH]; intros c Hc;
    inversion Hc; subst; constructor.
  - eapply samePose_trans; eassumption.
  - apply IH; assumption.
Qed.

Lemma Forall2_samePose_update (l : list MODULE) (i : nat) (b : bool) :
  Forall2 samePose l (update l i (fun fp => SetNeedsPlaced fp b)).
Proof.
  revert i; induction l as [|x l IH]; intros i; [destruct i; constructor|].
  destruct i as [|i]; simpl; constructor.
  - reflexivity.
  - apply Forall2_samePose_refl.
  - apply samePose_refl.
  - apply IH.
Qed.

Lemma flagForPlacement_outcome (l : list nat) :
  forall p,
    Forall2 samePose (footprints p) (footprints (flagForPlacement p l)) /\
    m_progressReporter (flagForPlacement p l) = m_progressReporter p /\
    m_matrix (flagForPlacement p l) = m_matrix p.
Proof.
  unfold flagForPlacement.
  induction l as [|i l IH]; intros p; simpl.
  - split; [apply Forall2_samePose_refl | split; reflexivity].
  - destruct (IH (set_commit (modify p i (fun fp => SetNeedsPlaced fp true))
                             (m_commit p ++ [i]))) as (A & B & C).
    split; [|split; [rewrite B | rewrite C]; reflexivity].
    eapply Forall2_samePose_trans; [|exact A].
    unfold set_commit, modify, footprints. simpl. apply Forall2_samePose_update.
Qed.

Lemma prepareRun_outcome (sv : AR_SERVICES) (p : AR_AUTOPLACER) (aFootprints : list nat)
    (aPlaceOffboardModules : bool) :
  Forall2 samePose (footprints p)
          (footprints (prepareRun sv p aFootprints aPlaceOffboardModules)) /\
  m_progressReporter (prepareRun sv p aFootprints aPlaceOffboardModules)
  = m_progressReporter p.
Proof.
  unfold prepareRun.
  set (p0 := set_board p _).
  set (off := if aPlaceOffboardModules then _ else _).
  destruct (flagForPlacement_outcome aFootprints p0) as (A1 & B1 & _).
  destruct (flagForPlacement_outcome off (flagForPlacement p0 aFootprints)) as (A2 & B2 & _).
  split.
  - apply (Forall2_samePose_trans _ (footprints p0));
      [|exact (Forall2_samePose_trans _ _ _ A1 A2)].
    subst p0. unfold footprints, set_board, set_Footprints. simpl.
    clear. induction (Footprints (m_board p)) as [|x l IH]; simpl; constructor;
      [apply samePose_SetNeedsPlaced | exact IH].
  - exact (eq_trans B2 B1).
Qed.

Lemma genPlacementRoutingMatrix_outcome (sv : AR_SERVICES) (p : AR_AUTOPLACER) :
  let r := genPlacementRoutingMatrix sv p in
  m_board (snd r) = m_board p /\ m_commit (snd r) = m_commit p /\
  m_progressReporter (snd r) = m_progressReporter p /\
  ((degenerateBoard p /\ fst r = 0) \/ (~ degenerateBoard p /\ fst r = 1)).
Proof.
  unfold genPlacementRoutingMatrix, degenerateBoard. simpl.
  destruct (GetWidth (GetBoardEdgesBoundingBox (m_board p)) =? 0) eqn:Ew; simpl.
  - apply Z.eqb_eq in Ew. repeat split. left. split; [left; exact Ew | reflexivity].
  - apply Z.eqb_neq in Ew.
    destruct (GetHeight (GetBoardEdgesBoundingBox (m_board p)) =? 0) eqn:Eh; simpl.
    + apply Z.eqb_eq in Eh. repeat split. left. split; [right; exact Eh | reflexivity].
    + apply Z.eqb_neq in Eh. repeat split. right. split; [tauto | reflexivity].
Qed.

Lemma needsPlacedCount_le (l : list MODULE) : (needsPlacedCount l <= length l)%nat.
Proof. apply filter_length_le. Qed.

Lemma runStep_compose (a b c : MODULE) : samePose a b -> loopStep b c -> runStep a c.
Proof.
  intros Hab [Hbc | (_ & d & pos & Hd & Hbc)].
  - left. eapply samePose_trans; [exact Hab | apply upToFlag_samePose, Hbc].
  - right. exists d, pos.
    destruct (samePose_fields a b Hab) as (_ & _ & _ & H90 & H180).
    split.
    + unfold allowedRotation in *. rewrite <- H90, <- H180. exact Hd.
    + eapply samePose_trans; [|apply upToFlag_samePose, Hbc].
      destruct (samePose_fields a b Hab) as (H1 & H2 & H3 & _).
      unfold samePose in *. unfold committed, SetNeedsPlaced, SetFlag, SetIsPlaced,
        SetPosition, SetOrientation in *. simpl in *.
      injection Hab as E1 E2 E3 E4 E5 E6 E7. congruence.
Qed.

Lemma Forall2_runStep_compose (a b c : list MODULE) :
  Forall2 samePose a b -> Forall2 loopStep b c -> Forall2 runStep a c.
Proof.
  intros H; revert c; induction H as [|x y a b Hxy _ IH]; intros c Hc;
    inversion Hc; subst; constructor.
  - eapply runStep_compose; eassumption.
  - apply IH; assumption.
Qed.

(** The run as a whole: it always ends; on a degenerate board with
    [AR_FAILURE] and the footprints untouched; otherwise completed or
    cancelled, each footprint of the board being left where it was or
    committed once, turned by a rotation its cost classes allow. *)
Lemma AutoplaceFootprints_outcome (sv : AR_SERVICES) (p : AR_AUTOPLACER)
    (aFootprints : list nat) (aPlaceOffboardModules : bool) :
  exists r p',
    AutoplaceFootprints sv p aFootprints aPlaceOffboardModules = Some (r, p') /\
    ((degenerateBoard p /\ r = AR_FAILURE /\ m_board p' = m_board p /\
      m_commit p' = m_commit p) \/
     (~ degenerateBoard p /\ (r = AR_COMPLETED \/ r = AR_CANCELLED) /\
      (r = AR_CANCELLED -> m_progressReporter p <> None) /\
      Forall2 runStep (footprints p) (footprints p'))).
Proof.
  unfold AutoplaceFootprints.
  set (g := if m_gridSize p <? Millimeter2iu_quarter sv then _ else _).
  set (p0 := set_matrix p (set_GridRouting (m_matrix p) g)).
  destruct (genPlacementRoutingMatrix_outcome sv p0) as (Hb & Hc & Hr & Hd).
  destruct (genPlacementRoutingMatrix sv p0) as [built p1]. simpl in Hb, Hc, Hr, Hd.
  destruct Hd as [[Hd ->] | [Hd ->]].
  - change (0 =? 0) with true. cbv iota.
    eexists _, _. split; [reflexivity|]. left. repeat split; assumption.
  - change (1 =? 0) with false. cbv iota.
    destruct (prepareRun_outcome sv p1 aFootprints aPlaceOffboardModules) as (Hp & Hrep).
    set (p2 := prepareRun sv p1 aFootprints aPlaceOffboardModules) in *.
    destruct (placeLoop_outcome sv (S (length (footprints p2))) p2 0)
      as (cancelled & p3 & E & Hstep & Hcan).
    { pose proof (needsPlacedCount_le (footprints p2)). lia. }
    rewrite E. eexists _, _. split; [reflexivity|]. right.
    split; [exact Hd|]. split; [destruct cancelled; auto|]. split.
    + destruct cancelled; [|discriminate]. intros _.
      specialize (Hcan eq_refl). rewrite Hrep, Hr in Hcan. exact Hcan.
    + change (footprints (set_matrix ?q ?m)) with (footprints q).
      change (footprints (set_curPosition ?q ?m)) with (footprints q).
      eapply Forall2_runStep_compose; [|exact Hstep].
      unfold footprints at 1. rewrite <- Hb. exact Hp.
Qed.

(** C6: on a board whose edges bounding box has no width or no height,
    [AutoplaceFootprints] ends at once with [AR_FAILURE], and the board it
    leaves has the footprints it found: no position, orientation or flag is
    modified, and nothing is recorded in the commit. *)
Theorem AutoplaceFootprints_degenerate_board (sv : AR_SERVICES) (p : AR_AUTOPLACER)
    (aFootprints : list nat) (aPlaceOffboardModules : bool) :
  degenerateBoard p ->
  exists p',
    AutoplaceFootprints sv p aFootprints aPlaceOffboardModules = Some (AR_FAILURE, p') /\
    footprints p' = footprints p /\ m_commit p' = m_commit p.
Proof.
  intros Hd.
  destruct (AutoplaceFootprints_outcome sv p aFootprints aPlaceOffboardModules)
    as (r & p' & E & [(_ & -> & Hb & Hc) | (Hn & _)]); [|contradiction].
  exists p'. split; [exact E|]. split; [unfold footprints; rewrite Hb; reflexivity | exact Hc].
Qed.

(** On [flatBoard], whose edges have no height, the run fails and the
    footprint stays where it was. *)
Lemma AutoplaceFootprints_on_flatBoard :
  exists p',
    AutoplaceFootprints bareServices (placerOn flatBoard) [0%nat] true = Some (AR_FAILURE, p') /\
    footprints p' = [boxFp 3000000 1000000 10 0] /\ m_commit p' = [].
Proof.
  exact (AutoplaceFootprints_degenerate_board bareServices (placerOn flatBoard) [0%nat] true
           (or_intror eq_refl)).
Defined.

Lemma Forall2_nth_error {A B : Type} (R : A -> B -> Prop) (l : list A) (l' : list B)
    (j : nat) (x : A) :
  Forall2 R l l' -> nth_error l j = Some x ->
  exists y, nth_error l' j = Some y /\ R x y.
Proof.
  intros H; revert j; induction H as [|a b l l' Hab _ IH]; intros [|j] Hj; simpl in *;
    try discriminate.
  - injection Hj as <-. exists b. split; [reflexivity | exact Hab].
  - apply IH, Hj.
Qed.

(** The loop leaves as they are the footprints that do not need to be
    placed, whatever the number of iterations. *)
Lemma placeLoop_steps (sv : AR_SERVICES) (fuel : nat) :
  forall (p : AR_AUTOPLACER) (cnt : nat) (cancelled : bool) (p' : AR_AUTOPLACER),
    placeLoop sv fuel p cnt = Some (cancelled, p') ->
    Forall2 loopStep (footprints p) (footprints p').
Proof.
  induction fuel as [|fuel IH]; intros p cnt cancelled p' E; [discriminate|].
  cbn [placeLoop] in E. destruct (pickFootprint_outcome sv p) as [Hsame Hpick].
  destruct (pickFootprint sv p) as [[i|] p1]; simpl in Hsame, Hpick.
  2:{ injection E as _ <-. apply Forall2_upToFlag_loopStep, Hsame. }
  destruct (Hpick i eq_refl) as (fp0 & Hi & Hn). rewrite Hi in E.
  destruct (iteration_outcome sv p1 i fp0 Hi Hn) as (Hab & Hstep & _ & _).
  cbv zeta in E. rewrite Hab in E.
  assert (Hstep' : Forall2 loopStep (footprints p)
                     (footprints (commitPlacement sv (evaluateOrientations p1 i fp0) i fp0))).
  { eapply Forall2_loopStep_trans; [apply Forall2_upToFlag_loopStep, Hsame | exact Hstep]. }
  destruct (m_progressReporter (commitPlacement sv (evaluateOrientations p1 i fp0) i fp0))
    as [keep|].
  - destruct (keep cnt); simpl in E.
    + eapply Forall2_loopStep_trans; [exact Hstep' | eapply IH; exact E].
    + injection E as _ <-. exact Hstep'.
  - eapply Forall2_loopStep_trans; [exact Hstep' | eapply IH; exact E].
Qed.

(** A search that finds no legal position leaves the origin of the board
    box in [m_curPosition]. *)
Lemma runSearch_no_legal (p : AR_AUTOPLACER) (i : nat) (fp0 : MODULE) :
  existsb (legalAt (m_matrix p) (footprintAt p i fp0))
          (candidates (m_matrix p) (footprintAt p i fp0)) = false ->
  runSearch p i fp0 =
  (1, set_minCost (set_curPosition p (GetOrigin (m_BrdBox (m_matrix p)))) (-1)%float).
Proof.
  intros H. unfold runSearch.
  destruct (getOptimalFPPlacement_outcome (footprints p) (m_matrix p) i (footprintAt p i fp0))
    as [[_ ->] | [E _]]; [reflexivity | congruence].
Qed.

Lemma footprintAt_nth_error (p : AR_AUTOPLACER) (i : nat) (fp0 : MODULE) :
  nth_error (footprints p) i = Some fp0 -> footprintAt p i fp0 = fp0.
Proof. intros H. unfold footprintAt. apply nth_error_nth, H. Qed.

(** C1, as the code has it: a footprint without legal placement does not
    abort the run.  The trials of a footprint never end on the abort code
    (the search answers 0 or 1), so the loop body always goes on to commit
    the footprint it picked: it marks it placed at the position the last
    search left in [m_curPosition], which is the origin of the board box
    when rotation is forbidden and no position is legal.  The run ends with
    [AR_FAILURE] on a degenerate board only, otherwise completed or
    cancelled; and the loop leaves position, orientation and [isPlaced] of
    the footprints that do not need to be placed, those committed earlier
    among them. *)
Theorem AutoplaceFootprints_commits_without_abort (sv : AR_SERVICES) (p : AR_AUTOPLACER)
    (aFootprints : list nat) (aPlaceOffboardModules : bool) :
  (forall i fp0,
     nth_error (footprints p) i = Some fp0 ->
     let e := evaluateOrientations p i fp0 in
     e_error e <> AR_ABORT_PLACEMENT /\
     footprints (commitPlacement sv e i fp0) =
       update (footprints p) i
              (fun _ => committed fp0 (e_bestRotation e) (m_curPosition (e_placer e))) /\
     (fp_CntRot180 fp0 = 0 -> fp_CntRot90 fp0 = 0 ->
      existsb (legalAt (m_matrix p) fp0) (candidates (m_matrix p) fp0) = false ->
      e_bestRotation e = 0 /\
      m_curPosition (e_placer e) = GetOrigin (m_BrdBox (m_matrix p)))) /\
  (exists r p',
     AutoplaceFootprints sv p aFootprints aPlaceOffboardModules = Some (r, p') /\
     (r = AR_FAILURE <-> degenerateBoard p) /\
     (r = AR_FAILURE \/ r = AR_COMPLETED \/ r = AR_CANCELLED)) /\
  (forall fuel q cnt cancelled q' j fp,
     placeLoop sv fuel q cnt = Some (cancelled, q') ->
     nth_error (footprints q) j = Some fp -> fp_NeedsPlaced fp = false ->
     exists fp', nth_error (footprints q') j = Some fp' /\
                 fp_Pos fp' = fp_Pos fp /\ fp_Orient fp' = fp_Orient fp /\
                 fp_IsPlaced fp' = fp_IsPlaced fp).
Proof.
  split; [|split].
  - intros i fp0 Hi e.
    destruct (evaluateOrientations_outcome p i fp0 Hi) as (Hr & He & _). fold e in Hr, He.
    destruct (commitPlacement_outcome sv p i fp0 e Hi Hr) as (Hf & _).
    split; [destruct He as [-> | ->]; discriminate|]. split; [exact Hf|].
    intros H180 H90 Hnone. subst e. unfold evaluateOrientations.
    rewrite <- (footprintAt_nth_error p i fp0 Hi) in Hnone at 1 2.
    rewrite (runSearch_no_legal p i fp0 Hnone).
    unfold GetPlacementCost180, GetPlacementCost90. rewrite H180, H90. simpl.
    split; reflexivity.
  - destruct (AutoplaceFootprints_outcome sv p aFootprints aPlaceOffboardModules)
      as (r & p' & E & [(Hd & -> & _) | (Hn & Hr & _)]).
    + exists AR_FAILURE, p'. split; [exact E|]. split; [tauto | left; reflexivity].
    + exists r, p'. split; [exact E|]. split; [|tauto].
      split; [|contradiction]. intros ->. destruct Hr; discriminate.
  - intros fuel q cnt cancelled q' j fp E Hj Hn.
    pose proof (placeLoop_steps sv fuel q cnt cancelled q' E) as Hsteps.
    destruct (Forall2_nth_error loopStep _ _ j fp Hsteps Hj) as (fp' & Hj' & Hstep).
    exists fp'. split; [exact Hj'|].
    destruct Hstep as [Hflag | (Hneeds & _)]; [|congruence].
    destruct (upToFlag_fields fp fp' Hflag) as (A & B & _ & C & _). auto.
Qed.

(** C1, as the specification words it, fails on [smallBoard]: the footprint
    measures 10 mm x 10 mm on a board of 4 mm x 4 mm and may not be rotated;
    it has no trial position at all, yet the run ends completed, the
    footprint marked placed at the origin of the board box. *)
Lemma AutoplaceFootprints_commits_oversized_footprint :
  map (fun fp => (GetWidth (GetFootprintRect fp), GetHeight (GetFootprintRect fp)))
      (Footprints smallBoard) = [(10000000, 10000000)] /\
  option_map fst (AutoplaceFootprints bareServices (placerOn smallBoard) [0%nat] false)
  = Some AR_COMPLETED /\
  option_map (fun r => map (fun fp => (fp_Pos fp, fp_IsPlaced fp, fp_NeedsPlaced fp))
                           (footprints (snd r)))
             (AutoplaceFootprints bareServices (placerOn smallBoard) [0%nat] false)
  = Some [(mkPoint 0 0, true, false)].
Proof. vm_compute. repeat split; reflexivity. Qed.

(** C3, as the code has it: a run leaves a footprint whose 180-degree cost
    class is 0 at its original orientation or a quarter turn away from it
    (90 or 270 degrees), never a half turn away; and at its original
    orientation when its 90-degree cost class is 0 as well. *)
Theorem AutoplaceFootprints_half_turn_forbidden (sv : AR_SERVICES) (p : AR_AUTOPLACER)
    (aFootprints : list nat) (aPlaceOffboardModules : bool) (r : AR_RESULT)
    (p' : AR_AUTOPLACER) (j : nat) (fp0 fp' : MODULE) :
  AutoplaceFootprints sv p aFootprints aPlaceOffboardModules = Some (r, p') ->
  nth_error (footprints p) j = Some fp0 ->
  nth_error (footprints p') j = Some fp' ->
  fp_CntRot180 fp0 = 0 ->
  (fp_Orient fp' = fp_Orient fp0 \/ fp_Orient fp' = 900 + fp_Orient fp0 \/
   fp_Orient fp' = 2700 + fp_Orient fp0) /\
  (fp_CntRot90 fp0 = 0 -> fp_Orient fp' = fp_Orient fp0).
Proof.
  intros E Hj Hj' H180.
  destruct (AutoplaceFootprints_outcome sv p aFootprints aPlaceOffboardModules)
    as (r0 & p0' & E0 & Hcases).
  rewrite E in E0. injection E0 as <- <-.
  destruct Hcases as [(_ & _ & Hb & _) | (_ & _ & _ & Hsteps)].
  - unfold footprints in Hj, Hj'. rewrite Hb in Hj'. rewrite Hj in Hj'.
    injection Hj' as <-. split; auto.
  - destruct (Forall2_nth_error runStep _ _ j fp0 Hsteps Hj) as (y & Hy & Hstep).
    rewrite Hj' in Hy. injection Hy as <-.
    destruct Hstep as [Hsame | (d & pos & Hd & Hsame)].
    + destruct (samePose_fields fp0 fp' Hsame) as (_ & -> & _). split; auto.
    + destruct (samePose_fields _ fp' Hsame) as (_ & -> & _). simpl.
      unfold allowedRotation in Hd.
      destruct Hd as [-> | [(H90 & [-> | ->]) | (H & _)]]; try contradiction;
        split; auto; intros; try contradiction; reflexivity.
Qed.

(** *** A trial that finds no legal position *)

Lemma runSearch_legal (p : AR_AUTOPLACER) (i : nat) (fp0 : MODULE) :
  existsb (legalAt (m_matrix p) (footprintAt p i fp0))
          (candidates (m_matrix p) (footprintAt p i fp0)) = true ->
  fst (runSearch p i fp0) = 0 /\ nonnegDouble (m_minCost (snd (runSearch p i fp0))) = true.
Proof.
  intros H. unfold runSearch.
  destruct (getOptimalFPPlacement_outcome (footprints p) (m_matrix p) i (footprintAt p i fp0))
    as [[E _] | [_ (l1 & best & l2 & _ & Lb & -> & _)]]; [congruence|].
  simpl. split; [reflexivity|]. apply scoreAt_nonneg, Lb.
Qed.

Lemma footprintAt_rotate (p : AR_AUTOPLACER) (i : nat) (fp0 : MODULE) (angle : Z)
    (incremental : bool) :
  (i < length (footprints p))%nat ->
  footprintAt (rotateFootprint p i angle incremental) i fp0 =
  SetOrientation (footprintAt p i fp0)
    (if incremental then fp_Orient (footprintAt p i fp0) + angle else angle).
Proof.
  intros H. unfold footprintAt, rotateFootprint, modify, footprints in *. simpl.
  apply nth_update_same, H.
Qed.

(** A trial whose search finds no legal position is taken for the best so
    far: its cost, -1 times the penalty, is below any cost of a legal
    position. *)
Lemma tryRotation_failing_search (angle rotAllowed initialOrient : Z) (i : nat)
    (fp0 : MODULE) (e : EVAL) :
  let pr := rotateFootprint (e_placer e) i angle true in
  existsb (legalAt (m_matrix pr) (footprintAt pr i fp0))
          (candidates (m_matrix pr) (footprintAt pr i fp0)) = false ->
  nonnegDouble (e_bestScore e) = true ->
  let e' := tryRotation angle rotAllowed initialOrient i fp0 e in
  e_error e' = 1 /\ e_bestRotation e' = angle /\
  PrimFloat.ltb (e_bestScore e') 0%float = true /\
  footprints (e_placer e') = footprints pr /\ m_matrix (e_placer e') = m_matrix pr.
Proof.
  intros pr Hnone Hbest e'. subst e'. unfold tryRotation. fold pr.
  rewrite (runSearch_no_legal pr i fp0 Hnone).
  destruct (orientationPenalty_positive rotAllowed) as [_ Hpen].
  simpl m_minCost.
  rewrite (nonnegDouble_above_negative _ _ Hpen Hbest).
  simpl. repeat split. exact Hpen.
Qed.

(** After such a trial, a trial that finds a legal position is not better. *)
Lemma tryRotation_after_failure (angle rotAllowed initialOrient : Z) (i : nat)
    (fp0 : MODULE) (e : EVAL) :
  let pr := rotateFootprint (e_placer e) i angle true in
  existsb (legalAt (m_matrix pr) (footprintAt pr i fp0))
          (candidates (m_matrix pr) (footprintAt pr i fp0)) = true ->
  PrimFloat.ltb (e_bestScore e) 0%float = true ->
  e_bestRotation (tryRotation angle rotAllowed initialOrient i fp0 e) = e_bestRotation e.
Proof.
  intros pr Hsome Hbest. unfold tryRotation. fold pr.
  destruct (runSearch_legal pr i fp0 Hsome) as [_ Hcost].
  destruct (runSearch pr i fp0) as [error p1]. simpl in Hcost.
  destruct (orientationPenalty_positive rotAllowed) as [Hpen _].
  simpl m_minCost.
  pose proof (nonnegDouble_mul _ _ Hcost Hpen) as Hnn.
  destruct (PrimFloat.ltb (PrimFloat.mul (m_minCost p1) (orientationPenalty rotAllowed))
                          (e_bestScore e)) eqn:Hlt; [|reflexivity].
  exfalso. pose proof (double_ltb_trans _ _ _ Hlt Hbest) as Hneg.
  rewrite (nonnegDouble_not_negative _ Hnn) in Hneg. discriminate.
Qed.

(** When the footprint fits at its orientation but nowhere a quarter turn
    away, and its quarter turn is not forbidden, the trials settle on the
    quarter turn. *)
Lemma evaluateOrientations_quarter_turn (p : AR_AUTOPLACER) (i : nat) (fp0 : MODULE) :
  nth_error (footprints p) i = Some fp0 ->
  fp_CntRot180 fp0 = 0 -> fp_CntRot90 fp0 <> 0 ->
  existsb (legalAt (m_matrix p) fp0) (candidates (m_matrix p) fp0) = true ->
  existsb (legalAt (m_matrix p) (SetOrientation fp0 (fp_Orient fp0 + 900)))
          (candidates (m_matrix p) (SetOrientation fp0 (fp_Orient fp0 + 900))) = false ->
  existsb (legalAt (m_matrix p) (SetOrientation fp0 (fp_Orient fp0 + 900 + 2700)))
          (candidates (m_matrix p) (SetOrientation fp0 (fp_Orient fp0 + 900 + 2700))) = true ->
  e_bestRotation (evaluateOrientations p i fp0) = 900.
Proof.
  intros Hi H180 H90 L0 L90 L270.
  assert (Hlen : (i < length (footprints p))%nat)
    by (apply nth_error_Some; rewrite Hi; discriminate).
  unfold evaluateOrientations.
  rewrite <- (footprintAt_nth_error p i fp0 Hi) in L0 at 1 2.
  destruct (runSearch_legal p i fp0 L0) as [Herr Hcost].
  assert (Hp1 : footprints (snd (runSearch p i fp0)) = footprints p /\
                m_matrix (snd (runSearch p i fp0)) = m_matrix p) by (split; reflexivity).
  destruct (runSearch p i fp0) as [error p1]. simpl in Herr, Hcost, Hp1.
  destruct Hp1 as [Hf1 Hm1]. subst error. simpl (0 =? AR_ABORT_PLACEMENT).
  unfold GetPlacementCost180, GetPlacementCost90. rewrite H180. simpl.
  rewrite (proj2 (Z.eqb_neq _ _) H90). simpl negb. cbv iota.
  set (e0 := mkEval p1 0 (m_minCost p1) 0).
  assert (A1 : footprintAt (rotateFootprint (e_placer e0) i 900 true) i fp0
               = SetOrientation fp0 (fp_Orient fp0 + 900)).
  { rewrite footprintAt_rotate by (simpl; rewrite Hf1; exact Hlen).
    unfold footprintAt. simpl e_placer. rewrite Hf1, (nth_error_nth _ _ _ Hi). reflexivity. }
  destruct (tryRotation_failing_search 900 (fp_CntRot90 fp0) (fp_Orient fp0) i fp0 e0)
    as (E1 & E2 & E3 & E4 & E5).
  { rewrite A1. change (m_matrix (rotateFootprint (e_placer e0) i 900 true)) with (m_matrix p1).
    rewrite Hm1. exact L90. }
  { exact Hcost. }
  set (e2 := tryRotation 900 (fp_CntRot90 fp0) (fp_Orient fp0) i fp0 e0) in *.
  rewrite E1. simpl (1 =? AR_ABORT_PLACEMENT). simpl andb. cbv iota.
  rewrite tryRotation_after_failure; [exact E2 | | exact E3].
  assert (A2 : footprintAt (rotateFootprint (e_placer e2) i 2700 true) i fp0
               = SetOrientation fp0 (fp_Orient fp0 + 900 + 2700)).
  { rewrite footprintAt_rotate.
    - unfold footprintAt at 1 2. rewrite E4. fold (footprintAt (rotateFootprint (e_placer e0) i 900 true) i fp0).
      rewrite A1. reflexivity.
    - rewrite E4. unfold rotateFootprint, modify, footprints. simpl.
      rewrite update_length. fold (footprints p1). rewrite Hf1. exact Hlen. }
  rewrite A2. change (m_matrix (rotateFootprint (e_placer e2) i 2700 true))
    with (m_matrix (e_placer e2)).
  rewrite E5. change (m_matrix (rotateFootprint (e_placer e0) i 900 true)) with (m_matrix p1).
  rewrite Hm1. exact L270.
Qed.

Lemma pickFootprint_none (sv : AR_SERVICES) (p : AR_AUTOPLACER) :
  needsPlacedCount (footprints p) = 0%nat -> fst (pickFootprint sv p) = None.
Proof.
  intros H. destruct (pickFootprint_outcome sv p) as [Hsame Hpick].
  destruct (fst (pickFootprint sv p)) as [i|]; [|reflexivity].
  destruct (Hpick i eq_refl) as (fp & Hi & Hn). exfalso.
  assert (Hc : needsPlacedCount (footprints (snd (pickFootprint sv p))) = 0%nat)
    by (rewrite (needsPlacedCount_upToFlag _ _ (proj1 Hsame)); exact H).
  unfold needsPlacedCount in Hc. apply length_zero_iff_nil in Hc.
  assert (Hin : In fp (filter fp_NeedsPlaced (footprints (snd (pickFootprint sv p)))))
    by (apply filter_In; split; [eapply nth_error_In; exact Hi | exact Hn]).
  rewrite Hc in Hin. destruct Hin.
Qed.

(** *** The run on [wideBoard] *)

Lemma wideBoard_run_unfold :
  AutoplaceFootprints bareServices (placerOn wideBoard) [0%nat] false =
  match placeLoop bareServices 2 widePrepared 0 with
  | None => None
  | Some (cancelled, p) =>
      Some (if cancelled then AR_CANCELLED else AR_COMPLETED,
            set_matrix (set_curPosition p (mkPoint 0 0))
                       (clearMatrix (m_matrix (set_curPosition p (mkPoint 0 0)))))
  end.
Proof. reflexivity. Qed.

Lemma wideBoard_loop :
  exists p',
    placeLoop bareServices 2 widePrepared 0 = Some (false, p') /\
    map fp_Orient (footprints p') = [900] /\ map fp_IsPlaced (footprints p') = [true].
Proof.
  cbn [placeLoop].
  destruct (pickFootprint_outcome bareServices widePrepared) as [Hsame _].
  assert (Hpick : fst (pickFootprint bareServices widePrepared) = Some 0%nat)
    by (vm_compute; reflexivity).
  assert (Hfps : footprints (snd (pickFootprint bareServices widePrepared)) = [wideFp])
    by (vm_compute; reflexivity).
  assert (Hm : m_matrix (snd (pickFootprint bareServices widePrepared))
               = m_matrix widePrepared) by apply Hsame.
  assert (Hrep : m_progressReporter (snd (pickFootprint bareServices widePrepared)) = None)
    by (destruct Hsame as (_ & _ & _ & _ & _ & _ & _ & -> & _); reflexivity).
  destruct (pickFootprint bareServices widePrepared) as [pick p1].
  cbn [fst snd] in Hpick, Hfps, Hm, Hrep. subst pick.
  assert (Hi : nth_error (footprints p1) 0 = Some wideFp) by (rewrite Hfps; reflexivity).
  rewrite Hi.
  destruct (iteration_outcome bareServices p1 0 wideFp Hi eq_refl) as (Hab & _ & _ & Hrep').
  cbv zeta. rewrite Hab.
  destruct (evaluateOrientations_outcome p1 0 wideFp Hi) as (Hr & _ & _).
  destruct (commitPlacement_outcome bareServices p1 0 wideFp _ Hi Hr) as (Hf & _).
  assert (Hbest : e_bestRotation (evaluateOrientations p1 0 wideFp) = 900).
  { apply evaluateOrientations_quarter_turn; try exact Hi; try reflexivity;
      try discriminate; rewrite Hm; vm_compute; reflexivity. }
  rewrite Hbest, Hfps in Hf. simpl update in Hf.
  set (p3 := commitPlacement bareServices (evaluateOrientations p1 0 wideFp) 0 wideFp) in *.
  rewrite Hrep', Hrep.
  cbn [placeLoop].
  destruct (pickFootprint_outcome bareServices p3) as [Hsame3 _].
  assert (Hnone : fst (pickFootprint bareServices p3) = None)
    by (apply pickFootprint_none; rewrite Hf; reflexivity).
  destruct (pickFootprint bareServices p3) as [pick3 p4]. cbn [fst snd] in Hnone, Hsame3.
  subst pick3. exists p4. split; [reflexivity|].
  destruct Hsame3 as (Hflags & _). rewrite Hf in Hflags.
  inversion Hflags as [|x y l l' Hxy Hnil]; subst. inversion Hnil; subst.
  destruct (upToFlag_fields _ _ Hxy) as (_ & Ho & _ & Hp & _).
  simpl. rewrite Ho, Hp. split; reflexivity.
Qed.

(** C3, as the specification words it, fails on [wideBoard]: the footprint,
    6 mm x 1 mm on a board of 8 mm x 4 mm, has the 180-degree cost class 0
    and the 90-degree cost class 10; it has legal positions as it is and no
    trial position at all a quarter turn away, and the run, which ends
    completed, leaves it turned by 90 degrees. *)
Lemma AutoplaceFootprints_quarter_turn_committed :
  map fp_CntRot180 (Footprints wideBoard) = [0] /\
  map fp_CntRot90 (Footprints wideBoard) = [10] /\
  map fp_Orient (Footprints wideBoard) = [0] /\
  existsb (legalAt (m_matrix widePrepared) wideFp)
          (candidates (m_matrix widePrepared) wideFp) = true /\
  candidates (m_matrix widePrepared) (SetOrientation wideFp 900) = [] /\
  exists p',
    AutoplaceFootprints bareServices (placerOn wideBoard) [0%nat] false
    = Some (AR_COMPLETED, p') /\
    map fp_Orient (footprints p') = [900] /\ map fp_IsPlaced (footprints p') = [true].
Proof.
  split; [reflexivity|]. split; [reflexivity|]. split; [reflexivity|].
  split; [vm_compute; reflexivity|]. split; [vm_compute; reflexivity|].
  rewrite wideBoard_run_unfold.
  destruct wideBoard_loop as (p' & -> & Ho & Hp).
  eexists. split; [reflexivity|]. split; assumption.
Qed.

Lemma smallBoard_run :
  exists p' fp',
    AutoplaceFootprints bareServices (placerOn smallBoard) [0%nat] false
    = Some (AR_COMPLETED, p') /\
    nth_error (footprints p') 0 = Some fp'.
Proof.
  destruct (AutoplaceFootprints bareServices (placerOn smallBoard) [0%nat] false)
    as [[r p']|] eqn:E.
  - assert (Hr : option_map fst
                   (AutoplaceFootprints bareServices (placerOn smallBoard) [0%nat] false)
                 = Some AR_COMPLETED) by (vm_compute; reflexivity).
    assert (Hl : option_map (fun r => length (footprints (snd r)))
                   (AutoplaceFootprints bareServices (placerOn smallBoard) [0%nat] false)
                 = Some 1%nat) by (vm_compute; reflexivity).
    rewrite E in Hr, Hl. simpl in Hr, Hl. injection Hr as ->. injection Hl as Hl.
    destruct (footprints p') as [|fp' l] eqn:Ef; [discriminate|].
    exists p', fp'. split; [reflexivity|]. rewrite Ef. reflexivity.
  - exfalso.
    assert (Hr : option_map fst
                   (AutoplaceFootprints bareServices (placerOn smallBoard) [0%nat] false)
                 = Some AR_COMPLETED) by (vm_compute; reflexivity).
    rewrite E in Hr. discriminate.
Qed.

(** On [smallBoard], whose footprint may not be rotated at all, the run
    leaves the footprint at its orientation. *)
Lemma AutoplaceFootprints_keeps_orientation_on_smallBoard :
  exists p' fp',
    AutoplaceFootprints bareServices (placerOn smallBoard) [0%nat] false
    = Some (AR_COMPLETED, p') /\
    nth_error (footprints p') 0 = Some fp' /\ fp_Orient fp' = 0.
Proof.
  destruct smallBoard_run as (p' & fp' & E & Hj).
  exists p', fp'. split; [exact E|]. split; [exact Hj|].
  exact (proj2 (AutoplaceFootprints_half_turn_forbidden bareServices (placerOn smallBoard)
                  [0%nat] false AR_COMPLETED p' 0 (boxFp 10000000 10000000 0 0) fp'
                  E eq_refl Hj eq_refl) eq_refl).
Defined.

(** ** The candidate evaluator, further *)

Lemma testRectangle_cases (m : AR_MATRIX) (aRect : EDA_RECT) (side : AR_SIDE) :
  testRectangle m aRect side = AR_FREE_CELL \/
  testRectangle m aRect side = AR_OUT_OF_BOARD \/
  testRectangle m aRect side = AR_OCCUIPED_BY_MODULE.
Proof.
  rewrite testRectangle_firstVerdict.
  destruct (firstVerdict (coveredData m aRect side)) as [v|] eqn:E; [|left; reflexivity].
  apply firstVerdict_Some in E. destruct E as (l1 & d & l2 & _ & _ & Hv).
  destruct (cellVerdict_cases d) as [[E1 _] | [[E1 _] | [E1 _]]];
    rewrite E1 in Hv; [discriminate | |]; injection Hv as <-; auto.
Qed.

(** [testRectangle] answers with one of the three verdicts of
    [AR_CELL_STATE], and the only one that is not negative is [legal]. *)
Theorem testRectangle_verdicts (m : AR_MATRIX) (aRect : EDA_RECT) (side : AR_SIDE) :
  (testRectangle m aRect side = AR_FREE_CELL \/
   testRectangle m aRect side = AR_OUT_OF_BOARD \/
   testRectangle m aRect side = AR_OCCUIPED_BY_MODULE) /\
  (0 <= testRectangle m aRect side <-> testRectangle m aRect side = AR_FREE_CELL).
Proof.
  split; [apply testRectangle_cases|].
  destruct (testRectangle_cases m aRect side) as [E | [E | E]]; rewrite E;
    unfold AR_FREE_CELL, AR_OUT_OF_BOARD, AR_OCCUIPED_BY_MODULE;
    split; intros H; try reflexivity; try lia; discriminate.
Qed.

Lemma uint32_range (z : Z) : 0 <= uint32 z < 2 ^ 32.
Proof. unfold uint32. apply Z.mod_pos_bound. reflexivity. Qed.

Lemma calculateKeepOutArea_range (m : AR_MATRIX) (aRect : EDA_RECT) (side : AR_SIDE) :
  0 <= calculateKeepOutArea m aRect side < 2 ^ 32.
Proof.
  unfold calculateKeepOutArea.
  destruct (cellRange m _ _) as [[[row_min row_max] col_min] col_max].
  assert (Hcols : forall row cols k,
            0 <= k < 2 ^ 32 ->
            0 <= fold_left (fun keepOutCost col => uint32 (keepOutCost + GetDist m row col side))
                           cols k < 2 ^ 32).
  { intros row cols. induction cols as [|c cols IH]; intros k Hk; simpl; [exact Hk|].
    apply IH, uint32_range. }
  assert (Hrows : forall rows cols k,
            0 <= k < 2 ^ 32 ->
            0 <= fold_left
                   (fun keepOutCost row =>
                      fold_left
                        (fun keepOutCost col => uint32 (keepOutCost + GetDist m row col side))
                        cols keepOutCost)
                   rows k < 2 ^ 32).
  { intros rows cols. induction rows as [|r rows IH]; intros k Hk; simpl; [exact Hk|].
    apply IH, Hcols, Hk. }
  apply Hrows. split; [lia | reflexivity].
Qed.

(** [testFootprintOnBoard] answers a value that is not negative, "the
    footprint can be put here", exactly when [testRectangle] finds the
    footprint rectangle free on the side of the footprint, and on the other
    side when it is tested, and the keep-out cost of the rectangle grown by
    the margin, an [unsigned int], reads as a non-negative [int]; the value
    is then that cost. *)
Theorem testFootprintOnBoard_legal (m : AR_MATRIX) (aFootprint : MODULE)
    (TstOtherSide : bool) (aOffset : wxPoint) :
  let side := if layer_eqb (fp_Layer aFootprint) B_Cu then AR_SIDE_BOTTOM else AR_SIDE_TOP in
  let otherside := if layer_eqb (fp_Layer aFootprint) B_Cu then AR_SIDE_TOP else AR_SIDE_BOTTOM in
  let fpBBox := Move (GetFootprintRect aFootprint) (pt_neg aOffset) in
  let marge := (m_GridRouting m * GetPadCount aFootprint) ÷ AR_GAIN in
  (0 <= testFootprintOnBoard m aFootprint TstOtherSide aOffset <->
   testRectangle m fpBBox side = AR_FREE_CELL /\
   (TstOtherSide = true -> testRectangle m fpBBox otherside = AR_FREE_CELL) /\
   calculateKeepOutArea m (Inflate fpBBox marge) side < 2 ^ 31) /\
  (0 <= testFootprintOnBoard m aFootprint TstOtherSide aOffset ->
   testFootprintOnBoard m aFootprint TstOtherSide aOffset
   = calculateKeepOutArea m (Inflate fpBBox marge) side).
Proof.
  intros side otherside fpBBox marge.
  unfold testFootprintOnBoard. fold side otherside fpBBox marge.
  pose proof (calculateKeepOutArea_range m (Inflate fpBBox marge) side) as Hk.
  assert (Hneg : forall s, testRectangle m fpBBox s <> AR_FREE_CELL ->
                           testRectangle m fpBBox s < 0).
  { intros s Hs. destruct (testRectangle_cases m fpBBox s) as [E | [E | E]];
      [contradiction | rewrite E; reflexivity | rewrite E; reflexivity]. }
  assert (Hint : forall k, 0 <= k < 2 ^ 32 ->
                   (0 <= int_of_uint32 k <-> k < 2 ^ 31) /\
                   (0 <= int_of_uint32 k -> int_of_uint32 k = k)).
  { intros k Hr. unfold int_of_uint32. destruct (k <? 2 ^ 31) eqn:E.
    - apply Z.ltb_lt in E. split; [split; intros; lia | reflexivity].
    - apply Z.ltb_ge in E. split; [split; intros; lia | intros; lia]. }
  destruct (Hint _ Hk) as [Hiff Hval].
  destruct (testRectangle m fpBBox side =? AR_FREE_CELL) eqn:E1; simpl.
  - apply Z.eqb_eq in E1. destruct TstOtherSide; simpl.
    + destruct (testRectangle m fpBBox otherside =? AR_FREE_CELL) eqn:E2; simpl.
      * apply Z.eqb_eq in E2. split; [|exact Hval].
        rewrite Hiff. split; [intros H; repeat split; auto | intros (_ & _ & H); exact H].
      * apply Z.eqb_neq in E2. pose proof (Hneg otherside E2) as Hn. split.
        -- split; [lia | intros (_ & H & _); specialize (H eq_refl); contradiction].
        -- lia.
    + split; [|exact Hval].
      rewrite Hiff. split; [intros H; repeat split; [exact E1 | discriminate | exact H]
                           | intros (_ & _ & H); exact H].
  - apply Z.eqb_neq in E1. pose proof (Hneg side E1) as Hn. split.
    + split; [lia | intros (H & _); contradiction].
    + lia.
Qed.

(** ** The run, further: every footprint to place is placed *)

Lemma searchBest_keeps_alt (brd : list MODULE) (fpList : list nat) :
  forall a, snd (searchBest brd fpList (Some a)) <> None.
Proof.
  induction fpList as [|k fpList IH]; intros a; simpl; [discriminate|].
  destruct (nth_error brd k) as [fp|]; [|apply IH].
  destruct (fp_NeedsPlaced fp); simpl; [|apply IH].
  destruct (fp_Flag fp =? 0); [apply IH | simpl; discriminate].
Qed.

(** When the search for the best module finds neither a best nor an
    alternative one, no footprint of the list needs to be placed. *)
Lemma searchBest_none (brd : list MODULE) (fpList : list nat) :
  forall alt,
    searchBest brd fpList alt = (None, None) ->
    forall i fp, In i fpList -> nth_error brd i = Some fp -> fp_NeedsPlaced fp = false.
Proof.
  induction fpList as [|k fpList IH]; intros alt E i fp Hin Hi; [destruct Hin|].
  simpl in E. destruct (nth_error brd k) as [fpk|] eqn:Ek.
  - destruct (fp_NeedsPlaced fpk) eqn:N; simpl in E.
    + destruct (fp_Flag fpk =? 0); [|discriminate].
      exfalso. apply (searchBest_keeps_alt brd fpList k). rewrite E. reflexivity.
    + destruct Hin as [<- | Hin]; [congruence | eapply IH; eassumption].
  - destruct Hin as [<- | Hin]; [congruence | eapply IH; eassumption].
Qed.

Section Sorted.

Variable sv : AR_SERVICES.

(** [std::sort] rearranges the list it is given: it loses no element. *)
Hypothesis std_sort_keeps :
  forall (cmp : nat -> nat -> bool) (l : list nat) (i : nat),
    In i l -> In i (std_sort sv cmp l).

Lemma pickFootprint_none_all (p : AR_AUTOPLACER) :
  fst (pickFootprint sv p) = None ->
  Forall (fun fp => fp_NeedsPlaced fp = false) (footprints (snd (pickFootprint sv p))).
Proof.
  destruct (pickFootprint_outcome sv p) as [Hsame _]. revert Hsame.
  unfold pickFootprint.
  set (l1 := std_sort sv _ _).
  set (p1 := fold_left (fun p kk => modify p kk (fun fp => SetFlag fp 0)) l1 p).
  set (p2 := fold_left _ l1 p1).
  set (l2 := std_sort sv _ l1).
  destruct (searchBest (footprints p2) l2 None) as [[b|] alt] eqn:E; simpl;
    [discriminate|].
  intros Hsame ->. apply Forall_forall. intros fp Hfp.
  destruct (In_nth_error _ _ Hfp) as [i Hi].
  apply (searchBest_none _ _ _ E i fp); [|exact Hi].
  apply std_sort_keeps, std_sort_keeps, in_seq.
  assert (Hlen : length (footprints p) = length (footprints p2))
    by (eapply Forall2_length, Hsame).
  assert (i < length (footprints p2))%nat by (apply nth_error_Some; congruence).
  lia.
Qed.

(** The loop is left, not cancelled, only when no footprint needs to be
    placed any more. *)
Lemma placeLoop_completed (fuel : nat) :
  forall (p : AR_AUTOPLACER) (cnt : nat) (p' : AR_AUTOPLACER),
    placeLoop sv fuel p cnt = Some (false, p') ->
    Forall (fun fp => fp_NeedsPlaced fp = false) (footprints p').
Proof.
  induction fuel as [|fuel IH]; intros p cnt p' E; [discriminate|].
  cbn [placeLoop] in E.
  pose proof (pickFootprint_none_all p) as Hnone.
  destruct (pickFootprint_outcome sv p) as [_ Hpick].
  destruct (pickFootprint sv p) as [[i|] p1]; cbn [fst snd] in Hnone, Hpick.
  2:{ injection E as <-. apply Hnone. reflexivity. }
  destruct (Hpick i eq_refl) as (fp0 & Hi & Hn). rewrite Hi in E.
  destruct (iteration_outcome sv p1 i fp0 Hi Hn) as (Hab & _).
  cbv zeta in E. rewrite Hab in E.
  destruct (m_progressReporter (commitPlacement sv (evaluateOrientations p1 i fp0) i fp0))
    as [keep|].
  - destruct (keep cnt); simpl in E; [eapply IH; exact E | discriminate].
  - eapply IH; exact E.
Qed.

End Sorted.

Lemma footprints_flagForPlacement (l : list nat) :
  forall p,
    footprints (flagForPlacement p l) =
    fold_left (fun fps i => update fps i (fun fp => SetNeedsPlaced fp true)) l (footprints p).
Proof.
  unfold flagForPlacement. induction l as [|i l IH]; intros p; simpl; [reflexivity|].
  rewrite IH. reflexivity.
Qed.

Lemma flagged_none (l : list nat) :
  forall fps i,
    nth_error fps i = None ->
    nth_error (fold_left (fun fps i => update fps i (fun fp => SetNeedsPlaced fp true)) l fps) i
    = None.
Proof.
  induction l as [|k l IH]; intros fps i H; simpl; [exact H|].
  apply IH. rewrite nth_error_update, H. destruct (Nat.eqb i k); reflexivity.
Qed.

(** A footprint of the worklist, or one that needed to be placed already,
    needs to be placed once the worklist is flagged. *)
Lemma flagged_needsPlaced (l : list nat) :
  forall fps i fp,
    nth_error (fold_left (fun fps i => update fps i (fun fp => SetNeedsPlaced fp true)) l fps) i
    = Some fp ->
    In i l \/ (exists fp0, nth_error fps i = Some fp0 /\ fp_NeedsPlaced fp0 = true) ->
    fp_NeedsPlaced fp = true.
Proof.
  induction l as [|k l IH]; intros fps i fp Hi Hcase; simpl in Hi.
  - destruct Hcase as [[] | (fp0 & H0 & Hn)]. congruence.
  - apply (IH _ i fp Hi).
    destruct (nth_error fps i) as [fp0|] eqn:E0.
    2:{ exfalso. rewrite flagged_none in Hi; [discriminate|].
        rewrite nth_error_update, E0. destruct (Nat.eqb i k); reflexivity. }
    destruct (Nat.eqb i k) eqn:Eik.
    + right. exists (SetNeedsPlaced fp0 true).
      rewrite nth_error_update, Eik, E0. split; reflexivity.
    + destruct Hcase as [[Hk | Hin] | (fp1 & H1 & Hn)].
      * apply Nat.eqb_neq in Eik. congruence.
      * left. exact Hin.
      * right. exists fp0. rewrite nth_error_update, Eik, E0.
        split; [reflexivity | congruence].
Qed.

Lemma prepareRun_flags (sv : AR_SERVICES) (p : AR_AUTOPLACER) (aFootprints : list nat)
    (aPlaceOffboardModules : bool) (i : nat) (fp : MODULE) :
  In i aFootprints ->
  nth_error (footprints (prepareRun sv p aFootprints aPlaceOffboardModules)) i = Some fp ->
  fp_NeedsPlaced fp = true.
Proof.
  intros Hin. unfold prepareRun.
  set (p0 := set_board p _).
  set (off := if aPlaceOffboardModules then _ else _).
  change (footprints (set_matrix ?q ?m)) with (footprints q).
  rewrite footprints_flagForPlacement. intros Hi.
  apply (flagged_needsPlaced _ _ _ _ Hi). right.
  destruct (nth_error (footprints (flagForPlacement p0 aFootprints)) i) as [fp1|] eqn:E1.
  - exists fp1. split; [reflexivity|].
    rewrite footprints_flagForPlacement in E1.
    apply (flagged_needsPlaced _ _ _ _ E1). left. exact Hin.
  - rewrite flagged_none in Hi; [discriminate | exact E1].
Qed.

Lemma Forall2_nth_error_r {A B : Type} (R : A -> B -> Prop) (l : list A) (l' : list B)
    (j : nat) (y : B) :
  Forall2 R l l' -> nth_error l' j = Some y ->
  exists x, nth_error l j = Some x /\ R x y.
Proof.
  intros H; revert j; induction H as [|a b l l' Hab _ IH]; intros [|j] Hj; simpl in *;
    try discriminate.
  - injection Hj as <-. exists a. split; [reflexivity | exact Hab].
  - apply IH, Hj.
Qed.

(** A run that ends completed leaves no footprint that needs to be placed,
    and has marked placed every footprint of the worklist it was given;
    [std::sort] is taken to lose no element of the list it sorts. *)
Theorem AutoplaceFootprints_completed_places_all (sv : AR_SERVICES) (p : AR_AUTOPLACER)
    (aFootprints : list nat) (aPlaceOffboardModules : bool) (p' : AR_AUTOPLACER) :
  (forall (cmp : nat -> nat -> bool) (l : list nat) (i : nat),
     In i l -> In i (std_sort sv cmp l)) ->
  AutoplaceFootprints sv p aFootprints aPlaceOffboardModules = Some (AR_COMPLETED, p') ->
  Forall (fun fp => fp_NeedsPlaced fp = false) (footprints p') /\
  (forall i fp', In i aFootprints -> nth_error (footprints p') i = Some fp' ->
                 fp_IsPlaced fp' = true).
Proof.
  intros Hsort E. unfold AutoplaceFootprints in E.
  destruct (genPlacementRoutingMatrix sv _) as [built p1].
  destruct (built =? 0); [discriminate|].
  set (p2 := prepareRun sv p1 aFootprints aPlaceOffboardModules) in *.
  destruct (placeLoop sv (S (length (footprints p2))) p2 0) as [[cancelled p3]|] eqn:El;
    [|discriminate].
  destruct cancelled; [discriminate|]. injection E as <-.
  change (footprints (set_matrix ?q ?m)) with (footprints q).
  change (footprints (set_curPosition ?q ?m)) with (footprints q).
  pose proof (placeLoop_completed sv Hsort _ _ _ _ El) as Hdone.
  split; [exact Hdone|]. intros i fp' Hin Hi.
  destruct (Forall2_nth_error_r loopStep _ _ i fp' (placeLoop_steps sv _ _ _ _ _ El) Hi)
    as (fp2 & H2 & Hstep).
  pose proof (prepareRun_flags sv p1 aFootprints aPlaceOffboardModules i fp2 Hin H2) as Hn.
  assert (Hf : fp_NeedsPlaced fp' = false).
  { rewrite Forall_forall in Hdone. apply Hdone. eapply nth_error_In, Hi. }
  destruct Hstep as [Hsame | (_ & d & pos & _ & Hsame)].
  - destruct (upToFlag_fields _ _ Hsame) as (_ & _ & H & _). congruence.
  - destruct (upToFlag_fields _ _ Hsame) as (_ & _ & _ & H & _). rewrite H. reflexivity.
Qed.

Lemma insertBy_In (before : nat -> nat -> bool) (x i : nat) (l : list nat) :
  i = x \/ In i l -> In i (insertBy before x l).
Proof.
  induction l as [|y l IH]; simpl; intros H.
  - destruct H as [-> | []]. left. reflexivity.
  - destruct (before y x); simpl.
    + destruct H as [-> | [-> | H]]; [right; apply IH; left; reflexivity | left; reflexivity
                                     | right; apply IH; right; exact H].
    + destruct H as [-> | H]; [left; reflexivity | right; exact H].
Qed.

Lemma sortBy_In (before : nat -> nat -> bool) (l : list nat) (i : nat) :
  In i l -> In i (sortBy before l).
Proof.
  unfold sortBy. induction l as [|x l IH]; simpl; intros H; [exact H|].
  apply insertBy_In. destruct H as [-> | H]; [left; reflexivity | right; apply IH, H].
Qed.

(** On [smallBoard] the run ends completed and its footprint does not need
    to be placed any more. *)
Lemma AutoplaceFootprints_places_all_on_smallBoard :
  exists p',
    AutoplaceFootprints bareServices (placerOn smallBoard) [0%nat] false
    = Some (AR_COMPLETED, p') /\
    Forall (fun fp => fp_NeedsPlaced fp = false) (footprints p').
Proof.
  destruct smallBoard_run as (p' & fp' & E & _). exists p'. split; [exact E|].
  exact (proj1 (AutoplaceFootprints_completed_places_all
                  bareServices _ _ _ _ sortBy_In E)).
Defined.

(** ** The rasterizer, further: what [fillMatrix] writes *)

Lemma zoneWritten_refl (m : AR_MATRIX) : zoneWritten m m.
Proof.
  split; [apply sameGrid_refl|]. split; [reflexivity|]. split; [reflexivity|].
  intros s r c. left. reflexivity.
Qed.

Lemma zoneWritten_trans (m1 m2 m3 : AR_MATRIX) :
  zoneWritten m1 m2 -> zoneWritten m2 m3 -> zoneWritten m1 m3.
Proof.
  intros (G1 & L1 & D1 & C1) (G2 & L2 & D2 & C2).
  split; [eapply sameGrid_trans; eassumption|].
  split; [congruence|]. split; [congruence|].
  intros s r c. destruct G1 as (_ & _ & Hr & Hc).
  destruct (C2 s r c) as [E2 | (Hs & Hrow & Hcol & E2)].
  - rewrite E2. apply C1.
  - right. rewrite Hr, Hc in *. repeat split; try assumption; lia.
Qed.

Lemma SetCell_zoneWritten (m : AR_MATRIX) (row col : Z) :
  1 <= row < m_Nrows m -> col < m_Ncols m ->
  zoneWritten m (SetCell m row col AR_SIDE_BOTTOM CELL_IS_ZONE).
Proof.
  intros Hrow Hcol. split; [repeat split|]. split; [reflexivity|]. split; [reflexivity|].
  intros s r c. simpl.
  destruct (side_eqb s AR_SIDE_BOTTOM && (r =? row) && (c =? col)) eqn:E;
    [|left; reflexivity].
  apply andb_prop in E. destruct E as [E Ec]. apply andb_prop in E. destruct E as [Es Er].
  apply Z.eqb_eq in Ec, Er. subst r c. right.
  destruct s; [discriminate|]. repeat split; try assumption; lia.
Qed.

Lemma fillCells_zoneWritten (idy step s e : Z) (idxs : list Z) :
  forall m,
    1 <= idy < m_Nrows m -> Forall (fun idx => idx < m_Ncols m) idxs ->
    zoneWritten m (fillCells m idy step s e idxs).
Proof.
  induction idxs as [|idx idxs IH]; intros m Hrow Hcols; simpl; [apply zoneWritten_refl|].
  inversion Hcols as [|? ? Hidx Hrest]; subst.
  destruct (idx * step >? e); [apply zoneWritten_refl|].
  destruct (idx * step >=? s).
  - apply (zoneWritten_trans m (SetCell m idy idx AR_SIDE_BOTTOM CELL_IS_ZONE));
      [apply SetCell_zoneWritten; assumption|].
    apply IH; assumption.
  - apply IH; assumption.
Qed.

Lemma fillPairs_zoneWritten (idy step ox : Z) (xs : list Z) :
  forall m, 1 <= idy < m_Nrows m -> zoneWritten m (fillPairs m idy step ox xs).
Proof.
  assert (H : forall m, 1 <= idy < m_Nrows m ->
                zoneWritten m (fillPairs m idy step ox xs) /\
                forall x, zoneWritten m (fillPairs m idy step ox (x :: xs))).
  { induction xs as [|x1 xs IH]; intros m Hrow.
    - split; [|intros x]; apply zoneWritten_refl.
    - split; [apply IH, Hrow|]. intros x0. simpl.
      assert (Hc : zoneWritten m
                     (fillCells m idy step (x0 - ox) (x1 - ox)
                        (for_range ((x0 - ox) ÷ step) (m_Ncols m) 1))).
      { apply fillCells_zoneWritten; [exact Hrow|].
        apply Forall_forall. intros idx Hin. apply for_range_In_1 in Hin. lia. }
      eapply zoneWritten_trans; [exact Hc|].
      apply IH. destruct Hc as ((_ & _ & -> & _) & _). exact Hrow. }
  intros m Hrow. apply H, Hrow.
Qed.

(** [fillMatrix] writes [CELL_IS_ZONE], and nothing else, in cells of the
    bottom side, in rows from 1 to [m_Nrows - 1]: row 0, the top side, the
    costs, the box, the pitch and the size of the matrix are as it found
    them, whether it succeeds or not. *)
Theorem fillMatrix_writes_zone_cells (m : AR_MATRIX) (outline : list wxPoint) :
  let m' := snd (fillMatrix m outline) in
  m_BrdBox m' = m_BrdBox m /\ m_GridRouting m' = m_GridRouting m /\
  m_Nrows m' = m_Nrows m /\ m_Ncols m' = m_Ncols m /\
  m_DistSide m' = m_DistSide m /\
  (forall r c, GetCell m' r c AR_SIDE_TOP = GetCell m r c AR_SIDE_TOP) /\
  (forall r c, GetCell m' r c AR_SIDE_BOTTOM = GetCell m r c AR_SIDE_BOTTOM \/
               (1 <= r < m_Nrows m /\ c < m_Ncols m /\
                GetCell m' r c AR_SIDE_BOTTOM = CELL_IS_ZONE)).
Proof.
  assert (H : forall refys m0, zoneWritten m0 (snd (fillRows outline m0 refys))).
  { unfold fillRows.
    induction refys as [|refy refys IH]; intros m0; simpl; [apply zoneWritten_refl|].
    destruct ((refy - py (GetBrdCoordOrigin m0)) ÷ m_GridRouting m0 >=? m_Nrows m0) eqn:E1;
      [apply zoneWritten_refl|].
    destruct ((refy - py (GetBrdCoordOrigin m0)) ÷ m_GridRouting m0 <=? 0) eqn:E2;
      [apply IH|].
    destruct (Nat.odd _); [apply zoneWritten_refl|].
    eapply zoneWritten_trans; [|apply IH].
    apply fillPairs_zoneWritten. lia. }
  intros m'. destruct (H (scanLines m outline) m) as ((G1 & G2 & G3 & G4) & _ & D & C).
  fold (fillMatrix m outline) in *. fold m' in G1, G2, G3, G4, D, C.
  repeat split; try assumption.
  - intros r c. unfold GetCell.
    destruct (C AR_SIDE_TOP r c) as [E | (Hs & _)]; [exact E | discriminate].
  - intros r c. unfold GetCell.
    destruct (C AR_SIDE_BOTTOM r c) as [E | (_ & Hr & Hc & E)]; [left; exact E | right; auto].
Qed.

(** ** The rasterizer, further: the count of intersections is even *)

(** A segment gives an intersection point exactly when one of its ends lies
    below the scan line ([y > refy]) and the other does not. *)
Lemma intersection_crossing (outline : list wxPoint) (refy : Z) (v : nat) :
  match intersection outline refy v with Some _ => true | None => false end =
  xorb (py (CPoint outline v) >? refy) (py (CPoint outline (v + 1)) >? refy).
Proof.
  unfold intersection.
  destruct (py (CPoint outline v) >? refy) eqn:E1;
    destruct (py (CPoint outline (v + 1)) >? refy) eqn:E2; simpl.
  - reflexivity.
  - apply Z.gtb_lt in E1.
    assert (E3 : (py (CPoint outline v) <=? refy) = false) by (apply Z.leb_gt; lia).
    rewrite E3. simpl.
    assert (E4 : py (CPoint outline (v + 1)) <= refy)
      by (destruct (Z.gtb_spec (py (CPoint outline (v + 1))) refy); [discriminate | lia]).
    assert (E5 : (py (CPoint outline (v + 1)) - py (CPoint outline v) =? 0) = false)
      by (apply Z.eqb_neq; lia).
    rewrite E5. reflexivity.
  - apply Z.gtb_lt in E2.
    assert (E4 : py (CPoint outline v) <= refy)
      by (destruct (Z.gtb_spec (py (CPoint outline v)) refy); [discriminate | lia]).
    assert (E3 : (py (CPoint outline v) <=? refy) = true) by (apply Z.leb_le; lia).
    rewrite E3.
    assert (E6 : (py (CPoint outline (v + 1)) <=? refy) = false) by (apply Z.leb_gt; lia).
    rewrite E6. simpl.
    assert (E5 : (py (CPoint outline (v + 1)) - py (CPoint outline v) =? 0) = false)
      by (apply Z.eqb_neq; lia).
    rewrite E5. reflexivity.
  - assert (E3 : (py (CPoint outline v) <=? refy) = true)
      by (apply Z.leb_le; destruct (Z.gtb_spec (py (CPoint outline v)) refy);
          [discriminate | lia]).
    assert (E4 : (py (CPoint outline (v + 1)) <=? refy) = true)
      by (apply Z.leb_le; destruct (Z.gtb_spec (py (CPoint outline (v + 1))) refy);
          [discriminate | lia]).
    rewrite E3, E4. reflexivity.
Qed.

(** Along a walk, the number of changes of side has the parity of the
    change between its two ends. *)
Lemma crossings_parity (f : nat -> bool) (k : nat) :
  forall a : nat,
    Nat.odd (length (flat_map (fun v => if xorb (f v) (f (v + 1)%nat) then [v] else [])
                              (seq a k)))
    = xorb (f a) (f (a + k)%nat).
Proof.
  induction k as [|k IH]; intros a; simpl.
  - rewrite Nat.add_0_r. destruct (f a); reflexivity.
  - rewrite length_app. specialize (IH (S a)).
    replace (a + S k)%nat with (S a + k)%nat by lia.
    replace (a + 1)%nat with (S a) by lia.
    set (fa := f a) in *. set (fb := f (S a)) in *. set (fe := f (S a + k)%nat) in *.
    clearbody fa fb fe.
    destruct (xorb fa fb) eqn:X; simpl length.
    + rewrite Nat.odd_succ, <- Nat.negb_odd, IH.
      destruct fa, fb, fe; simpl in *; first [reflexivity | discriminate].
    + rewrite Nat.add_0_l, IH.
      destruct fa, fb, fe; simpl in *; first [reflexivity | discriminate].
Qed.

Lemma CPoint_closed (outline : list wxPoint) :
  CPoint outline (length outline) = CPoint outline 0.
Proof.
  unfold CPoint. destruct outline as [|q outline]; [reflexivity|].
  rewrite Nat.Div0.mod_same, Nat.Div0.mod_0_l. reflexivity.
Qed.

Lemma flat_map_same_length {A B C : Type} (f : A -> list B) (g : A -> list C)
    (l : list A) :
  (forall a, length (f a) = length (g a)) ->
  length (flat_map f l) = length (flat_map g l).
Proof.
  intros H. induction l as [|a l IH]; simpl; [reflexivity|].
  rewrite !length_app, H, IH. reflexivity.
Qed.

(** The outline is closed, so every scan line meets it in an even number
    of points. *)
Lemma oddRow_never (outline : list wxPoint) (refy : Z) : oddRow outline refy = false.
Proof.
  unfold oddRow, oddRowWith, x_coordinates.
  rewrite (flat_map_same_length _
             (fun v => if xorb (py (CPoint outline v) >? refy)
                               (py (CPoint outline (v + 1)) >? refy)
                       then [v] else [])).
  - rewrite (crossings_parity (fun v => py (CPoint outline v) >? refy)).
    simpl. rewrite CPoint_closed. apply xorb_nilpotent.
  - intros v. rewrite <- intersection_crossing.
    destruct (intersection outline refy v); reflexivity.
Qed.

(** [fillMatrix] always succeeds: the outline being closed, no scan line
    meets it in an odd number of points, and every scan line the loop works
    on is filled. *)
Theorem fillMatrix_always_succeeds (m : AR_MATRIX) (outline : list wxPoint) :
  (forall refy, oddRow outline refy = false) /\
  fillMatrix m outline =
    (true, fold_left (fillRow outline) (scannedRows m (scanLines m outline)) m).
Proof.
  split; [apply oddRow_never|].
  unfold fillMatrix. rewrite fillRows_scanned.
  destruct (fillScanned_outcome outline (scannedRows m (scanLines m outline)) m)
    as [[_ H] | (l1 & refy & l2 & _ & _ & Hodd & _)]; [exact H|].
  rewrite oddRow_never in Hodd. discriminate.
Qed.

(** ** The choice of the next footprint, further *)

Lemma searchBest_outcome (brd : list MODULE) (fpList : list nat) :
  forall alt,
    match searchBest brd fpList alt with
    | (Some b, _) =>
        exists l1 l2, fpList = l1 ++ b :: l2 /\ toPlace brd b = true /\
                      hasEdges brd b = true /\
                      forall i, In i l1 -> toPlace brd i && hasEdges brd i = false
    | (None, r) =>
        (forall i, In i fpList -> toPlace brd i && hasEdges brd i = false) /\
        ((r = alt /\ forall i, In i fpList -> toPlace brd i = false) \/
         (exists l1 a l2, r = Some a /\ fpList = l1 ++ a :: l2 /\ toPlace brd a = true /\
                          forall i, In i l2 -> toPlace brd i = false))
    end.
Proof.
  induction fpList as [|k fpList IH]; intros alt; simpl.
  - split; [intros i []|]. left. split; [reflexivity | intros i []].
  - assert (Skip : toPlace brd k = false ->
             match searchBest brd fpList alt with
             | (Some b, _) =>
                 exists l1 l2, k :: fpList = l1 ++ b :: l2 /\ toPlace brd b = true /\
                               hasEdges brd b = true /\
                               forall i, In i l1 -> toPlace brd i && hasEdges brd i = false
             | (None, r) =>
                 (forall i, In i (k :: fpList) -> toPlace brd i && hasEdges brd i = false) /\
                 ((r = alt /\ forall i, In i (k :: fpList) -> toPlace brd i = false) \/
                  (exists l1 a l2, r = Some a /\ k :: fpList = l1 ++ a :: l2 /\
                                   toPlace brd a = true /\
                                   forall i, In i l2 -> toPlace brd i = false))
             end).
    { intros Hk. specialize (IH alt).
      destruct (searchBest brd fpList alt) as [[b|] r].
      - destruct IH as (l1 & l2 & -> & Hb & He & Hl1). exists (k :: l1), l2.
        repeat split; try assumption. intros i [<- | Hi]; [rewrite Hk; reflexivity | auto].
      - destruct IH as (Hall & Hr). split.
        + intros i [<- | Hi]; [rewrite Hk; reflexivity | auto].
        + destruct Hr as [(-> & Hnone) | (l1 & a & l2 & -> & -> & Ha & Hl2)].
          * left. split; [reflexivity|]. intros i [<- | Hi]; auto.
          * right. exists (k :: l1), a, l2. repeat split; assumption. }
    unfold toPlace in Skip at 1.
    destruct (nth_error brd k) as [fp|] eqn:Ek; [|apply Skip; reflexivity].
    destruct (fp_NeedsPlaced fp) eqn:N; simpl; [|apply Skip; reflexivity].
    clear Skip.
    assert (Tk : toPlace brd k = true) by (unfold toPlace; rewrite Ek; exact N).
    destruct (fp_Flag fp =? 0) eqn:F.
    + assert (Hk : hasEdges brd k = false) by (unfold hasEdges; rewrite Ek, F; reflexivity).
      specialize (IH (Some k)).
      destruct (searchBest brd fpList (Some k)) as [[b|] r].
      * destruct IH as (l1 & l2 & -> & Hb & He & Hl1). exists (k :: l1), l2.
        repeat split; try assumption.
        intros i [<- | Hi]; [rewrite Hk; apply andb_false_r | auto].
      * destruct IH as (Hall & Hr). split.
        -- intros i [<- | Hi]; [rewrite Hk; apply andb_false_r | auto].
        -- right. destruct Hr as [(-> & Hnone) | (l1 & a & l2 & -> & -> & Ha & Hl2)].
           ++ exists [], k, fpList. repeat split; assumption.
           ++ exists (k :: l1), a, l2. repeat split; assumption.
    + exists [], fpList. repeat split; [exact Tk | | intros i []].
      unfold hasEdges. rewrite Ek, F. reflexivity.
Qed.

(** The search for the "best" module: the first footprint of the sorted
    list that needs to be placed and has ratsnest edges; when there is none,
    the alternative is the last footprint of the list that needs to be
    placed; and no footprint is found only when none needs to be placed. *)
Theorem searchBest_choice (brd : list MODULE) (fpList : list nat) :
  match searchBest brd fpList None with
  | (Some b, _) =>
      exists l1 l2, fpList = l1 ++ b :: l2 /\ toPlace brd b = true /\
                    hasEdges brd b = true /\
                    forall i, In i l1 -> toPlace brd i && hasEdges brd i = false
  | (None, Some a) =>
      (forall i, In i fpList -> toPlace brd i && hasEdges brd i = false) /\
      exists l1 l2, fpList = l1 ++ a :: l2 /\ toPlace brd a = true /\
                    forall i, In i l2 -> toPlace brd i = false
  | (None, None) => forall i, In i fpList -> toPlace brd i = false
  end.
Proof.
  pose proof (searchBest_outcome brd fpList None) as H.
  destruct (searchBest brd fpList None) as [[b|] [a|]].
  - exact H.
  - exact H.
  - destruct H as (Hall & [(E & _) | (l1 & a' & l2 & E & -> & Ha & Hl2)]); [discriminate|].
    injection E as <-. split; [exact Hall|]. exists l1, l2. repeat split; assumption.
  - destruct H as (_ & [(_ & Hnone) | (l1 & a' & l2 & E & _)]); [exact Hnone | discriminate].
Qed.

(** ** The run, further: what it leaves behind *)

(** A run leaves [m_curPosition] as it found it, and a matrix that has been
    released; it is cancelled only on the word of a progress reporter. *)
Theorem AutoplaceFootprints_restores_cursor (sv : AR_SERVICES) (p : AR_AUTOPLACER)
    (aFootprints : list nat) (aPlaceOffboardModules : bool) :
  exists r p',
    AutoplaceFootprints sv p aFootprints aPlaceOffboardModules = Some (r, p') /\
    m_curPosition p' = m_curPosition p /\
    (exists m, m_matrix p' = UnInitRoutingMatrix sv m) /\
    (m_progressReporter p = None -> r <> AR_CANCELLED).
Proof.
  destruct (AutoplaceFootprints_outcome sv p aFootprints aPlaceOffboardModules)
    as (r & p' & E & Hcases).
  exists r, p'. split; [exact E|].
  assert (Hcan : m_progressReporter p = None -> r <> AR_CANCELLED).
  { intros Hnone Hr. destruct Hcases as [(_ & -> & _) | (_ & _ & Hc & _)]; [discriminate|].
    exact (Hc Hr Hnone). }
  clear Hcases. unfold AutoplaceFootprints in E.
  unfold genPlacementRoutingMatrix in E. cbn [m_board set_matrix m_matrix] in E.
  destruct ((GetWidth (GetBoardEdgesBoundingBox (m_board p)) =? 0)
            || (GetHeight (GetBoardEdgesBoundingBox (m_board p)) =? 0)).
  - change (0 =? 0) with true in E. cbv iota in E. injection E as <- <-.
    split; [reflexivity|]. split; [eexists; reflexivity | exact Hcan].
  - change (1 =? 0) with false in E. cbv iota in E.
    destruct (placeLoop sv _ _ 0) as [[cancelled p3]|]; [|discriminate].
    injection E as <- <-. split; [reflexivity|]. split; [eexists; reflexivity | exact Hcan].
Qed.

(** ** The keep-out cost, further *)

Lemma sumZ_app (l1 l2 : list Z) : sumZ (l1 ++ l2) = sumZ l1 + sumZ l2.
Proof. induction l1 as [|x l1 IH]; simpl; [reflexivity | rewrite IH; ring]. Qed.

Lemma fold_uint32_sum {A : Type} (f : A -> Z) (l : list A) :
  forall k,
    fold_left (fun keepOutCost a => uint32 (keepOutCost + f a)) l (uint32 k)
    = uint32 (k + sumZ (map f l)).
Proof.
  induction l as [|a l IH]; intros k; simpl.
  - rewrite Z.add_0_r. reflexivity.
  - replace (uint32 (uint32 k + f a)) with (uint32 (k + f a))
      by (unfold uint32; rewrite Zplus_mod_idemp_l; reflexivity).
    rewrite IH. f_equal. ring.
Qed.

(** [calculateKeepOutArea] is the sum of the costs of the cells of the
    clamped range of the rectangle, modulo 2^32 as an [unsigned int] holds
    it; the cells are cells of the matrix; and when no cost is negative and
    the sum is below 2^32, it is the sum itself. *)
Theorem calculateKeepOutArea_sum (m : AR_MATRIX) (aRect : EDA_RECT) (side : AR_SIDE) :
  let costs := map (fun rc => GetDist m (fst rc) (snd rc) side) (keepOutCells m aRect) in
  calculateKeepOutArea m aRect side = (sumZ costs) mod 2 ^ 32 /\
  Forall (fun rc => 0 <= fst rc <= m_Nrows m - 1 /\ 0 <= snd rc <= m_Ncols m - 1)
         (keepOutCells m aRect) /\
  (Forall (fun d => 0 <= d) costs -> sumZ costs < 2 ^ 32 ->
   calculateKeepOutArea m aRect side = sumZ costs).
Proof.
  intros costs.
  assert (E : calculateKeepOutArea m aRect side = (sumZ costs) mod 2 ^ 32).
  { subst costs. unfold calculateKeepOutArea, keepOutCells.
    destruct (cellRange m _ _) as [[[row_min row_max] col_min] col_max].
    set (cells := flat_map _ _).
    transitivity (uint32 (0 + sumZ (map (fun rc => GetDist m (fst rc) (snd rc) side) cells)));
      [|reflexivity].
    rewrite <- (fold_uint32_sum (fun rc => GetDist m (fst rc) (snd rc) side)).
    subst cells.
    rewrite fold_left_flat_map. change (uint32 0) with 0.
    apply fold_left_pointwise. intros k row.
    rewrite fold_left_over_map. reflexivity.
  }
  split; [exact E|]. split.
  - apply Forall_forall. intros [r c] H. unfold keepOutCells in H.
    destruct (cellRange m _ _) as [[[row_min row_max] col_min] col_max] eqn:Er.
    apply in_flat_map in H. destruct H as (row & Hr & Hc).
    apply in_map_iff in Hc. destruct Hc as (col & Hrc & Hc). injection Hrc as <- <-.
    apply for_range_In_1 in Hr. apply for_range_In_1 in Hc.
    unfold cellRange in Er. injection Er as <- <- <- <-. simpl.
    repeat match goal with
           | H : context [if ?b then _ else _] |- _ => destruct b eqn:?
           end; lia.
  - intros Hpos Hlt. rewrite E. apply Z.mod_small. split; [|exact Hlt].
    clear - Hpos. induction costs as [|d l IH]; simpl; [lia|].
    inversion Hpos; subst. specialize (IH H2). lia.
Qed.

(** ** The rasterizer, further: where the intersections lie *)

(** A segment of the outline gives an intersection point only for a scan
    line that passes between the ordinates of its two ends, the greater one
    excluded; the abscissa pushed is the truncated double
    [newrefy * inv_slope] plus the abscissa of the first end, which for a
    vertical segment is the abscissa of the segment. *)
Theorem intersection_between (outline : list wxPoint) (refy : Z) (v : nat) (x : Z) :
  intersection outline refy v = Some x ->
  let a := CPoint outline v in
  let b := CPoint outline (v + 1) in
  Z.min (py a) (py b) <= refy < Z.max (py a) (py b) /\
  x = int_of_double
        (PrimFloat.mul (double_of_int (refy - py a))
           (PrimFloat.div (double_of_int (px b - px a)) (double_of_int (py b - py a))))
      + px a /\
  (px a = px b -> x = px a).
Proof.
  intros H a b. unfold intersection in H. fold a b in H.
  destruct ((py a >? refy) && (py b >? refy)) eqn:E1; [discriminate|].
  destruct ((py a <=? refy) && (py b <=? refy)) eqn:E2; [discriminate|].
  destruct (py b - py a =? 0) eqn:E3; [discriminate|].
  injection H as <-.
  apply andb_false_iff in E1, E2.
  rewrite !Z.gtb_ltb, !Z.ltb_ge in E1. rewrite !Z.leb_gt in E2.
  split; [lia|]. split; [reflexivity|].
  intros E. rewrite E, Z.sub_diag, vertical_offset. reflexivity.
Qed.

(** On the segment from (11,59) to (10,10) and the scan line y = 10, whose
    exact intersection is at x = 10, the product of the doubles is above -1
    and the abscissa pushed is 11. *)
Lemma intersection_between_on_slantOutline :
  Z.min 59 10 <= 10 < Z.max 59 10 /\
  11 = int_of_double
         (PrimFloat.mul (double_of_int (10 - 59))
            (PrimFloat.div (double_of_int (10 - 11)) (double_of_int (10 - 59))))
       + 11 /\
  (11 = 10 -> 11 = 11).
Proof. exact (intersection_between slantOutline 10 0 11 eq_refl). Defined.

(** ** The rasterizer, further: where the cells written lie *)

Lemma insertSorted_In (x y : Z) (l : list Z) : In y (insertSorted x l) -> y = x \/ In y l.
Proof.
  induction l as [|z l IH]; simpl; [intros [<- | []]; left; reflexivity|].
  destruct (x <=? z); simpl.
  - intros [<- | H]; [left; reflexivity | right; exact H].
  - intros [<- | H]; [right; left; reflexivity|].
    destruct (IH H) as [-> | H']; [left; reflexivity | right; right; exact H'].
Qed.

Lemma sortZ_In (l : list Z) (y : Z) : In y (sortZ l) -> In y l.
Proof.
  induction l as [|x l IH]; simpl; [intros []|]. intros H.
  destruct (insertSorted_In _ _ _ H) as [-> | H']; [left; reflexivity | right; apply IH, H'].
Qed.

Lemma zoneWrittenAt_trans (P : Z -> Z -> Prop) (m1 m2 m3 : AR_MATRIX) :
  zoneWrittenAt P m1 m2 -> zoneWrittenAt P m2 m3 -> zoneWrittenAt P m1 m3.
Proof.
  intros H1 H2 s r c. destruct (H2 s r c) as [E | H]; [rewrite E; apply H1 | right; exact H].
Qed.

Lemma fillCells_zoneWrittenAt (P : Z -> Z -> Prop) (idy step s e : Z) (idxs : list Z) :
  (forall idx, In idx idxs -> s <= idx * step <= e -> P idy idx) ->
  forall m, zoneWrittenAt P m (fillCells m idy step s e idxs).
Proof.
  induction idxs as [|idx idxs IH]; intros HP m; simpl; [intros ? ? ?; left; reflexivity|].
  destruct (idx * step >? e) eqn:E1; [intros ? ? ?; left; reflexivity|].
  assert (IH' := IH (fun i Hi => HP i (or_intror Hi))).
  destruct (idx * step >=? s) eqn:E2; [|apply IH'].
  apply (zoneWrittenAt_trans P m (SetCell m idy idx AR_SIDE_BOTTOM CELL_IS_ZONE)); [|apply IH'].
  intros sd r c. simpl.
  destruct (side_eqb sd AR_SIDE_BOTTOM && (r =? idy) && (c =? idx)) eqn:E;
    [|left; reflexivity].
  apply andb_prop in E. destruct E as [E Ec]. apply andb_prop in E. destruct E as [Es Er].
  apply Z.eqb_eq in Ec, Er. subst r c. right.
  destruct sd; [discriminate|]. split; [reflexivity|]. split; [|reflexivity].
  apply HP; [left; reflexivity|].
  rewrite Z.gtb_ltb in E1. apply Z.ltb_ge in E1. rewrite Z.geb_leb in E2.
  apply Z.leb_le in E2. lia.
Qed.

Lemma fillPairs_zoneWrittenAt (P : Z -> Z -> Prop) (idy step ox N : Z) (xs : list Z) :
  (forall x0 x1 idx, In x0 xs -> In x1 xs -> idx < N ->
                     x0 - ox <= idx * step <= x1 - ox -> P idy idx) ->
  forall m, m_Ncols m = N -> zoneWrittenAt P m (fillPairs m idy step ox xs).
Proof.
  intros HP.
  assert (H : forall l, (forall x, In x l -> In x xs) ->
                (forall m, m_Ncols m = N -> zoneWrittenAt P m (fillPairs m idy step ox l)) /\
                (forall x m, In x xs -> m_Ncols m = N ->
                             zoneWrittenAt P m (fillPairs m idy step ox (x :: l)))).
  { induction l as [|x1 l IH]; intros Hl.
    - split; [intros m _ | intros x m _ _]; intros ? ? ?; left; reflexivity.
    - destruct (IH (fun x Hx => Hl x (or_intror Hx))) as [IH1 IH2].
      split; [intros m Hm; apply IH2; [apply Hl; left; reflexivity | exact Hm]|].
      intros x0 m Hx0 Hm. simpl.
      apply (zoneWrittenAt_trans P m
               (fillCells m idy step (x0 - ox) (x1 - ox)
                  (for_range ((x0 - ox) ÷ step) (m_Ncols m) 1))).
      + apply fillCells_zoneWrittenAt. intros idx Hin Hrange.
        apply for_range_In_1 in Hin.
        apply (HP x0 x1 idx Hx0 (Hl x1 (or_introl eq_refl))); [lia | exact Hrange].
      + apply IH1. destruct (fillCells_sameGrid idy step (x0 - ox) (x1 - ox)
                               (for_range ((x0 - ox) ÷ step) (m_Ncols m) 1) m)
          as (_ & _ & _ & ->). exact Hm. }
  intros m Hm. apply (H xs (fun x Hx => Hx)), Hm.
Qed.

Lemma row_grid_point (refy oy g idy : Z) :
  0 < g -> idy = (refy - oy) ÷ g -> 0 < idy ->
  refy - g < oy + idy * g <= refy.
Proof.
  intros Hg -> Hpos.
  assert (Ha : 0 <= refy - oy).
  { destruct (Z_lt_le_dec (refy - oy) 0) as [Hn | Hn]; [|exact Hn].
    pose proof (Z.quot_opp_l (refy - oy) g ltac:(lia)) as E.
    pose proof (Z.quot_pos (- (refy - oy)) g ltac:(lia) Hg) as H.
    rewrite E in H. lia. }
  rewrite Z.quot_div_nonneg in * by lia.
  pose proof (Z.mul_div_le (refy - oy) g Hg).
  pose proof (Z.mul_succ_div_gt (refy - oy) g Hg). lia.
Qed.

Lemma fillRows_within (outline : list wxPoint) (m0 : AR_MATRIX) (refys : list Z) :
  0 < m_GridRouting m0 ->
  (forall refy, In refy refys ->
                GetY (BBox outline) <= refy < GetBottom (BBox outline)) ->
  let g := m_GridRouting m0 in
  let P r c :=
    0 < r < m_Nrows m0 /\ c < m_Ncols m0 /\
    GetY (BBox outline) - g < GetY (m_BrdBox m0) + r * g < GetBottom (BBox outline) /\
    exists refy x0 x1,
      r = rowOf m0 refy /\
      In x0 (x_coordinates outline refy) /\ In x1 (x_coordinates outline refy) /\
      x0 <= GetX (m_BrdBox m0) + c * g <= x1 in
  forall m, sameGrid m0 m -> zoneWrittenAt P m (snd (fillRows outline m refys)).
Proof.
  intros Hg Hys g P. unfold fillRows.
  induction refys as [|refy refys IH]; intros m Hm; simpl; [intros ? ? ?; left; reflexivity|].
  assert (IH' := IH (fun y Hy => Hys y (or_intror Hy))).
  destruct Hm as (G1 & G2 & G3 & G4).
  set (idy := (refy - py (GetBrdCoordOrigin m)) ÷ m_GridRouting m).
  destruct (idy >=? m_Nrows m) eqn:E1; [intros ? ? ?; left; reflexivity|].
  destruct (idy <=? 0) eqn:E2; [apply IH'; repeat split; assumption|].
  destruct (Nat.odd _); [intros ? ? ?; left; reflexivity|].
  rewrite Z.geb_leb in E1. apply Z.leb_gt in E1. apply Z.leb_gt in E2.
  apply (zoneWrittenAt_trans P m
           (fillPairs m idy (m_GridRouting m) (px (GetBrdCoordOrigin m))
              (sortZ (x_coordinates outline refy)))).
  - apply (fillPairs_zoneWrittenAt P idy (m_GridRouting m) (px (GetBrdCoordOrigin m)) (m_Ncols m));
      [|reflexivity].
    intros x0 x1 idx Hx0 Hx1 Hidx Hrange.
    apply sortZ_In in Hx0. apply sortZ_In in Hx1.
    pose proof (Hys refy (or_introl eq_refl)) as Hy.
    pose proof (row_grid_point refy (py (GetBrdCoordOrigin m)) (m_GridRouting m) idy
                  ltac:(lia) eq_refl E2) as Hrow.
    assert (Hidy : idy = rowOf m0 refy).
    { unfold idy, rowOf, GetBrdCoordOrigin, GetOrigin. rewrite G1, G2. reflexivity. }
    unfold P, g. unfold GetBrdCoordOrigin, GetOrigin in *. rewrite G1, G2, G3, G4 in *.
    unfold GetX, GetY in *.
    split; [lia|]. split; [lia|]. split; [lia|].
    exists refy, x0, x1. split; [exact Hidy|]. split; [exact Hx0|]. split; [exact Hx1|]. lia.
  - apply IH'. apply (sameGrid_trans m0 m); [repeat split; assumption|].
    apply fillPairs_sameGrid.
Qed.

(** A cell that [fillMatrix] changes is a cell of the bottom side, which it
    marks [CELL_IS_ZONE], in a row from 1 on and below the size of the
    matrix; its grid point lies within the bounding box of the outline from
    top to bottom but for less than one pitch above, and, from left to
    right, between two of the intersection points of the scan line of its
    row. *)
Theorem fillMatrix_within_outline (m : AR_MATRIX) (outline : list wxPoint)
    (s : AR_SIDE) (r c : Z) :
  0 < m_GridRouting m ->
  let m' := snd (fillMatrix m outline) in
  let g := m_GridRouting m in
  GetCell m' r c s <> GetCell m r c s ->
  s = AR_SIDE_BOTTOM /\ GetCell m' r c s = CELL_IS_ZONE /\
  0 < r < m_Nrows m /\ c < m_Ncols m /\
  GetY (BBox outline) - g < GetY (m_BrdBox m) + r * g < GetBottom (BBox outline) /\
  exists refy x0 x1,
    r = rowOf m refy /\
    In x0 (x_coordinates outline refy) /\ In x1 (x_coordinates outline refy) /\
    x0 <= GetX (m_BrdBox m) + c * g <= x1.
Proof.
  intros Hg m' g Hne. unfold GetCell in *.
  assert (Hys : forall refy, In refy (scanLines m outline) ->
                 GetY (BBox outline) <= refy < GetBottom (BBox outline)).
  { intros refy Hin. unfold scanLines in Hin. apply (for_range_In _ Hg) in Hin.
    destruct Hin as (k & Hk & -> & Hlt). split; [nia | exact Hlt]. }
  destruct (fillRows_within outline m (scanLines m outline) Hg Hys m (sameGrid_refl m) s r c)
    as [E | (Hs & (Hr & Hc & Hy & Hx) & E)].
  - exfalso. apply Hne. exact E.
  - fold g in Hx, Hy. repeat split; try assumption; try lia.
Qed.

(** On a blank matrix of 4 x 4 cells at pitch 10, the rectangle
    (0,0)-(25,25) gets the cell of row 1 and column 0 marked. *)
Lemma fillMatrix_within_outline_on_blankMatrix :
  let m := blankMatrix 4 4 in
  let outline := rectOutline 0 0 25 25 in
  0 < 1 < m_Nrows m /\ 0 < m_Ncols m /\
  GetY (BBox outline) - 10 < GetY (m_BrdBox m) + 1 * 10 < GetBottom (BBox outline) /\
  exists refy x0 x1,
    1 = rowOf m refy /\
    In x0 (x_coordinates outline refy) /\ In x1 (x_coordinates outline refy) /\
    x0 <= GetX (m_BrdBox m) + 0 * 10 <= x1.
Proof.
  pose proof (fillMatrix_within_outline (blankMatrix 4 4) (rectOutline 0 0 25 25)
                AR_SIDE_BOTTOM 1 0 eq_refl ltac:(vm_compute; discriminate)) as H.
  cbv zeta in H. destruct H as (_ & _ & H1 & H2 & H3 & H4).
  repeat split; first [apply H1 | apply H2 | apply H3 | exact H4].
Defined.

(** ** The cost of a connection, further *)


(** ** The nearest pad, further *)

Lemma closest_first (dist : PAD -> Z) (l : list PAD) :
  (forall q, In q l -> dist q < INT64_MAX) ->
  let r := fold_left (fun acc q => if dist q <? snd acc then (Some q, dist q) else acc)
                     l (None, INT64_MAX) in
  (l = [] /\ fst r = None) \/
  (exists l1 n l2, fst r = Some n /\ l = l1 ++ n :: l2 /\
                   (forall q, In q l1 -> dist n < dist q) /\
                   (forall q, In q l2 -> dist n <= dist q)).
Proof.
  intros Hb r. subst r.
  assert (H : forall l0, (forall q, In q l0 -> dist q < INT64_MAX) ->
    let r := fold_left (fun acc q => if dist q <? snd acc then (Some q, dist q) else acc)
                       l0 (None, INT64_MAX) in
    (l0 = [] /\ r = (None, INT64_MAX)) \/
    (exists l1 n l2, r = (Some n, dist n) /\ l0 = l1 ++ n :: l2 /\
                     (forall q, In q l1 -> dist n < dist q) /\
                     (forall q, In q l2 -> dist n <= dist q))).
  { induction l0 as [|a l0 IH] using rev_ind; intros Hb0; simpl.
    - left; split; reflexivity.
    - right. rewrite fold_left_app. simpl.
      assert (Hb1 : forall q, In q l0 -> dist q < INT64_MAX)
        by (intros q Hq; apply Hb0, in_or_app; left; exact Hq).
      assert (Ha : dist a < INT64_MAX) by (apply Hb0, in_or_app; right; left; reflexivity).
      destruct (IH Hb1) as [[-> ->] | (l1 & n & l2 & -> & -> & H1 & H2)]; simpl.
      + rewrite (proj2 (Z.ltb_lt _ _) Ha). exists [], a, [].
        repeat split; intros q [].
      + destruct (dist a <? dist n) eqn:E.
        * apply Z.ltb_lt in E. exists (l1 ++ n :: l2), a, [].
          repeat split; [| intros q []].
          intros q Hq. apply in_app_or in Hq. destruct Hq as [Hq | [<- | Hq]].
          -- specialize (H1 q Hq). lia.
          -- exact E.
          -- specialize (H2 q Hq). lia.
        * apply Z.ltb_ge in E. exists l1, n, (l2 ++ [a]).
          repeat split; [rewrite <- app_assoc; reflexivity | exact H1 |].
          intros q Hq. apply in_app_or in Hq. destruct Hq as [Hq | [<- | []]];
            [exact (H2 q Hq) | exact E]. }
  destruct (H l Hb) as [[E1 E2] | (l1 & n & l2 & E & El & H1 & H2)].
  - left. rewrite E2. split; [assumption | reflexivity].
  - right. exists l1, n, l2. rewrite E. repeat split; assumption.
Qed.

(** Of several pads at the least distance, [nearestPad] returns the first
    one in the order of its loops (the footprints of the board in order,
    the pads of each in order): every pad it compared before is strictly
    farther, no pad compared after is nearer. *)
Theorem nearestPad_first_of_nearest (brd : list MODULE) (box : EDA_RECT) (i : nat)
    (ref : PAD) (off : wxPoint) (n : PAD) :
  forallb intPads brd = true -> intPoint (pad_Pos ref) = true -> intPoint off = true ->
  nearestPad brd box i ref off = Some n ->
  exists l1 l2,
    neighbours brd box i ref = l1 ++ n :: l2 /\
    (forall q, In q l1 -> padDistance ref off n < padDistance ref off q) /\
    (forall q, In q l2 -> padDistance ref off n <= padDistance ref off q).
Proof.
  intros Hb Hr Ho Hn. rewrite nearestPad_neighbours in Hn.
  destruct (closest_first (padDistance ref off) (neighbours brd box i ref)) as
      [[_ E] | (l1 & n' & l2 & E & El & H1 & H2)].
  - intros q Hq. apply neighbours_In in Hq.
    destruct Hq as (j & fp & Hj & _ & _ & Hq & _).
    apply padDistance_bound; try assumption. exact (intPads_In brd j fp q Hb Hj Hq).
  - cbv zeta in E. rewrite Hn in E. discriminate.
  - cbv zeta in E. rewrite Hn in E. injection E as ->.
    exists l1, l2. repeat split; assumption.
Qed.

(** On [tieBoard] the pads at (60,50) and (40,50) are both 10 units from the
    pad at (50,50); the first one is returned. *)
Lemma nearestPad_first_of_nearest_on_tieBoard :
  let ref := mkPad (mkPoint 50 50) 1 (fun l => layer_eqb l F_Cu) 0 in
  let n := mkPad (mkPoint 60 50) 1 (fun l => layer_eqb l F_Cu) 0 in
  exists l1 l2,
    neighbours tieBoard boardBox 0 ref = l1 ++ n :: l2 /\
    (forall q, In q l1 -> padDistance ref (mkPoint 0 0) n < padDistance ref (mkPoint 0 0) q) /\
    (forall q, In q l2 -> padDistance ref (mkPoint 0 0) n <= padDistance ref (mkPoint 0 0) q).
Proof.
  exact (nearestPad_first_of_nearest tieBoard boardBox 0
           (mkPad (mkPoint 50 50) 1 (fun l => layer_eqb l F_Cu) 0) (mkPoint 0 0)
           (mkPad (mkPoint 60 50) 1 (fun l => layer_eqb l F_Cu) 0)
           eq_refl eq_refl eq_refl eq_refl).
Defined.

(** ** The placement search, further: where the trial positions lie *)

(** A trial position is a multiple of the pitch on both axes.  There the
    footprint rectangle ends before the right and bottom edges of the box of
    the board, and begins less than one pitch before its left and top
    edges: the snapping of the first position to a multiple of the pitch can
    move the rectangle out of the box by up to one pitch less one unit. *)
Theorem candidates_in_board_box (m : AR_MATRIX) (fp : MODULE) (pos : wxPoint) :
  0 < m_GridRouting m ->
  In pos (candidates m fp) ->
  let r := trialRect fp pos in
  Z.rem (px pos) (m_GridRouting m) = 0 /\ Z.rem (py pos) (m_GridRouting m) = 0 /\
  GetX (m_BrdBox m) - m_GridRouting m < GetX r /\ GetRight r < GetRight (m_BrdBox m) /\
  GetY (m_BrdBox m) - m_GridRouting m < GetY r /\ GetBottom r < GetBottom (m_BrdBox m).
Proof.
  intros Hg Hin r. apply (candidates_In m fp pos Hg) in Hin.
  destruct Hin as (kx & ky & Hkx & Hky & -> & Hlx & Hly).
  cbn [px py] in Hlx, Hly.
  assert (Hrem : forall a k, Z.rem (a - Z.rem a (m_GridRouting m) + k * m_GridRouting m)
                                   (m_GridRouting m) = 0).
  { intros a k. rewrite (Z.rem_eq a (m_GridRouting m)) by lia.
    replace (a - (a - m_GridRouting m * (a ÷ m_GridRouting m)) + k * m_GridRouting m)
      with ((a ÷ m_GridRouting m + k) * m_GridRouting m) by ring.
    apply Z.rem_mul. lia. }
  split; [cbn [px]; unfold initialPos; cbn [px]; apply Hrem|].
  split; [cbn [py]; unfold initialPos; cbn [py]; apply Hrem|].
  subst r. unfold trialRect, xylimit, initialPos in *.
  repeat unfold Move, GetRight, GetBottom, GetX, GetY, GetWidth, GetHeight, GetEnd, GetOrigin,
    pt_sub, pt_add, pt_neg in *. cbn [px py m_Pos m_Size] in *.
  set (g := m_GridRouting m) in *.
  set (rx := px (m_Pos (GetFootprintRect fp))) in *.
  set (ry := py (m_Pos (GetFootprintRect fp))) in *.
  set (bx := px (m_Pos (m_BrdBox m))) in *.
  set (by_ := py (m_Pos (m_BrdBox m))) in *.
  pose proof (Z.rem_bound_abs (bx - (rx + - px (fp_Pos fp))) g ltac:(lia)) as Hrx.
  pose proof (Z.rem_bound_abs (by_ - (ry + - py (fp_Pos fp))) g ltac:(lia)) as Hry.
  set (remx := Z.rem (bx - (rx + - px (fp_Pos fp))) g) in *.
  set (remy := Z.rem (by_ - (ry + - py (fp_Pos fp))) g) in *.
  assert (Hgx : kx * g >= 0) by nia. assert (Hgy : ky * g >= 0) by nia.
  repeat split; lia.
Qed.

(** On [openMatrix] the square footprint of side 10 is tried at (10,10),
    where its rectangle spans (5,5)-(15,15) in the box (0,0)-(25,25). *)
Lemma candidates_in_board_box_on_openMatrix :
  let r := trialRect squareFp (mkPoint 10 10) in
  Z.rem 10 (m_GridRouting openMatrix) = 0 /\ Z.rem 10 (m_GridRouting openMatrix) = 0 /\
  GetX (m_BrdBox openMatrix) - m_GridRouting openMatrix < GetX r /\
  GetRight r < GetRight (m_BrdBox openMatrix) /\
  GetY (m_BrdBox openMatrix) - m_GridRouting openMatrix < GetY r /\
  GetBottom r < GetBottom (m_BrdBox openMatrix).
Proof.
  exact (candidates_in_board_box openMatrix squareFp (mkPoint 10 10) eq_refl
           (or_intror (or_intror (or_intror (or_introl eq_refl))))).
Defined.

(** ** The placement search, further: the position found *)

Lemma legalAt_free (m : AR_MATRIX) (fp : MODULE) (pos : wxPoint) :
  legalAt m fp pos = true ->
  testRectangle m (trialRect fp pos)
    (if layer_eqb (fp_Layer fp) B_Cu then AR_SIDE_BOTTOM else AR_SIDE_TOP) = AR_FREE_CELL /\
  (testOtherSide m fp = true ->
   testRectangle m (trialRect fp pos)
     (if layer_eqb (fp_Layer fp) B_Cu then AR_SIDE_TOP else AR_SIDE_BOTTOM) = AR_FREE_CELL).
Proof.
  unfold legalAt, keepOutCostAt, testFootprintOnBoard. fold (trialRect fp pos).
  set (side := if layer_eqb (fp_Layer fp) B_Cu then AR_SIDE_BOTTOM else AR_SIDE_TOP).
  set (other := if layer_eqb (fp_Layer fp) B_Cu then AR_SIDE_TOP else AR_SIDE_BOTTOM).
  assert (Hneg : forall s, testRectangle m (trialRect fp pos) s <> AR_FREE_CELL ->
                           (testRectangle m (trialRect fp pos) s >=? 0) = false).
  { intros s Hs. destruct (testRectangle_cases m (trialRect fp pos) s) as [E | [E | E]];
      [contradiction | rewrite E; reflexivity | rewrite E; reflexivity]. }
  destruct (testRectangle m (trialRect fp pos) side =? AR_FREE_CELL) eqn:E1; simpl.
  - apply Z.eqb_eq in E1. destruct (testOtherSide m fp); simpl.
    + destruct (testRectangle m (trialRect fp pos) other =? AR_FREE_CELL) eqn:E2; simpl.
      * apply Z.eqb_eq in E2. intros _. split; [exact E1 | intros _; exact E2].
      * apply Z.eqb_neq in E2. rewrite (Hneg other E2). discriminate.
    + intros _. split; [exact E1 | discriminate].
  - apply Z.eqb_neq in E1. rewrite (Hneg side E1). discriminate.
Qed.

(** When a trial position is legal, the position [getOptimalFPPlacement]
    leaves in [m_curPosition] is one of its trial positions, [testRectangle]
    finds the footprint rectangle free there on the side of the footprint
    (and on the other side when the footprint has a pad on it), and
    [m_minCost] is the score of that position, which is not negative. *)
Theorem getOptimalFPPlacement_found_position (brd : list MODULE) (m : AR_MATRIX) (i : nat)
    (fp : MODULE) :
  existsb (legalAt m fp) (candidates m fp) = true ->
  let s := getOptimalFPPlacement brd m i fp in
  In (s_lastPosOK s) (candidates m fp) /\
  testRectangle m (trialRect fp (s_lastPosOK s))
    (if layer_eqb (fp_Layer fp) B_Cu then AR_SIDE_BOTTOM else AR_SIDE_TOP) = AR_FREE_CELL /\
  (testOtherSide m fp = true ->
   testRectangle m (trialRect fp (s_lastPosOK s))
     (if layer_eqb (fp_Layer fp) B_Cu then AR_SIDE_TOP else AR_SIDE_BOTTOM) = AR_FREE_CELL) /\
  s_min_cost s = scoreAt brd m i fp (s_lastPosOK s) /\ nonnegDouble (s_min_cost s) = true.
Proof.
  intros Hsome s. subst s.
  destruct (getOptimalFPPlacement_outcome brd m i fp)
    as [[E _] | [_ (l1 & best & l2 & El & Lb & E & _)]].
  - congruence.
  - rewrite E. cbn [s_lastPosOK s_min_cost].
    destruct (legalAt_free m fp best Lb) as [F1 F2].
    split; [rewrite El; apply in_or_app; right; left; reflexivity|].
    split; [exact F1|]. split; [exact F2|]. split; [reflexivity|].
    apply scoreAt_nonneg, Lb.
Qed.

(** On [openMatrix], where every cell is free, the search for the square
    footprint finds such a position. *)
Lemma getOptimalFPPlacement_found_position_on_openMatrix :
  let s := getOptimalFPPlacement [squareFp] openMatrix 0 squareFp in
  In (s_lastPosOK s) (candidates openMatrix squareFp) /\
  testRectangle openMatrix (trialRect squareFp (s_lastPosOK s)) AR_SIDE_TOP = AR_FREE_CELL /\
  (testOtherSide openMatrix squareFp = true ->
   testRectangle openMatrix (trialRect squareFp (s_lastPosOK s)) AR_SIDE_BOTTOM
   = AR_FREE_CELL) /\
  s_min_cost s = scoreAt [squareFp] openMatrix 0 squareFp (s_lastPosOK s) /\
  nonnegDouble (s_min_cost s) = true.
Proof.
  exact (getOptimalFPPlacement_found_position [squareFp] openMatrix 0 squareFp eq_refl).
Defined.

(** ** The orientation trials, further *)

Lemma fold_nearestPad_update (box : EDA_RECT) (ref : PAD) (off : wxPoint)
    (f : MODULE -> MODULE) (brd : list MODULE) :
  forall (k s : nat) (acc : option PAD * Z),
    fold_left (nearestPad_fp box (s + k) ref off)
              (combine (seq s (length (update brd k f))) (update brd k f)) acc
    = fold_left (nearestPad_fp box (s + k) ref off)
                (combine (seq s (length brd)) brd) acc.
Proof.
  induction brd as [|x brd IH]; intros k s acc; [destruct k; reflexivity|].
  destruct k as [|k]; cbn [update length seq combine fold_left].
  - unfold nearestPad_fp at 2 4. cbn [fst]. rewrite Nat.add_0_r, Nat.eqb_refl. reflexivity.
  - replace (s + S k)%nat with (S s + k)%nat by lia. apply IH.
Qed.

(** [nearestPad] skips the footprint being placed: what its address holds
    does not matter. *)
Lemma nearestPad_self_update (brd : list MODULE) (i : nat) (f : MODULE -> MODULE)
    (box : EDA_RECT) (ref : PAD) (off : wxPoint) :
  nearestPad (update brd i f) box i ref off = nearestPad brd box i ref off.
Proof.
  unfold nearestPad, indexed. f_equal.
  apply (fold_nearestPad_update box ref off f brd i 0%nat).
Qed.

Lemma getOptimalFPPlacement_self_update (brd : list MODULE) (i : nat) (f : MODULE -> MODULE)
    (m : AR_MATRIX) (fp : MODULE) :
  getOptimalFPPlacement (update brd i f) m i fp = getOptimalFPPlacement brd m i fp.
Proof.
  unfold getOptimalFPPlacement, getOptimalFPPlacementWith.
  rewrite !searchLoopsWith_candidates.
  apply fold_left_pointwise. intros s pos.
  unfold tryPositionWith, scoreWith, computePlacementRatsnestCost_double.
  rewrite (fold_left_pointwise _
             (fun curr_cost pad =>
                match nearestPad brd (m_BrdBox m) i pad (pt_sub (fp_Pos fp) pos) with
                | None => curr_cost
                | Some nearest =>
                    PrimFloat.add curr_cost
                      (connCost_double (pt_sub (pad_Pos pad) (pt_sub (fp_Pos fp) pos))
                                       (pad_Pos nearest))
                end)); [reflexivity|].
  intros c pad. rewrite nearestPad_self_update. reflexivity.
Qed.

(** One orientation trial, when the footprint at address [i] is [fp0] turned
    to the orientation [o]: the search runs at the orientation [o + angle];
    whatever it decides, the trial leaves in [m_curPosition] the position
    that search found. *)
Lemma tryRotation_trace (L : list MODULE) (i : nat) (fp0 : MODULE) (o angle rotAllowed
    initialOrient : Z) (e : EVAL) :
  nth_error L i = Some fp0 ->
  footprints (e_placer e) = update L i (fun _ => SetOrientation fp0 o) ->
  let s := getOptimalFPPlacement L (m_matrix (e_placer e)) i (SetOrientation fp0 (o + angle)) in
  let e' := tryRotation angle rotAllowed initialOrient i fp0 e in
  m_curPosition (e_placer e') = s_lastPosOK s /\
  m_matrix (e_placer e') = m_matrix (e_placer e) /\
  e_error e' = s_error s /\
  ((PrimFloat.ltb (PrimFloat.mul (s_min_cost s) (orientationPenalty rotAllowed))
                  (e_bestScore e) = true /\
    e_bestScore e' = PrimFloat.mul (s_min_cost s) (orientationPenalty rotAllowed) /\
    e_bestRotation e' = angle /\
    footprints (e_placer e') = update L i (fun _ => SetOrientation fp0 (o + angle))) \/
   (PrimFloat.ltb (PrimFloat.mul (s_min_cost s) (orientationPenalty rotAllowed))
                  (e_bestScore e) = false /\
    e_bestScore e' = e_bestScore e /\
    e_bestRotation e' = e_bestRotation e /\
    footprints (e_placer e') = update L i (fun _ => SetOrientation fp0 initialOrient))).
Proof.
  intros Hi Hf s e'.
  assert (Hlen : (i < length L)%nat) by (apply nth_error_Some; rewrite Hi; discriminate).
  set (pr := rotateFootprint (e_placer e) i angle true).
  assert (Hfr : footprints pr = update L i (fun _ => SetOrientation fp0 (o + angle))).
  { unfold pr, rotateFootprint, modify. unfold footprints at 1. cbn [m_board set_board Footprints
      set_Footprints]. rewrite Hf, update_update. apply update_ext. intros fp _. reflexivity. }
  assert (Hat : footprintAt pr i fp0 = SetOrientation fp0 (o + angle)).
  { unfold footprintAt. rewrite Hfr. rewrite (nth_update_same _ _ _ _ Hlen). reflexivity. }
  subst e'. unfold tryRotation, runSearch. fold pr.
  rewrite Hat, Hfr, getOptimalFPPlacement_self_update.
  change (m_matrix pr) with (m_matrix (e_placer e)). fold s.
  cbn [m_minCost set_minCost set_curPosition].
  destruct (PrimFloat.ltb (PrimFloat.mul (s_min_cost s) (orientationPenalty rotAllowed))
                          (e_bestScore e)) eqn:Hgt.
  - cbn [e_placer e_error e_bestScore e_bestRotation m_curPosition m_matrix].
    split; [reflexivity|]. split; [reflexivity|]. split; [reflexivity|].
    left. split; [reflexivity|]. split; [reflexivity|]. split; [reflexivity|]. exact Hfr.
  - cbn [e_placer e_error e_bestScore e_bestRotation].
    split; [reflexivity|]. split; [reflexivity|]. split; [reflexivity|].
    right. split; [reflexivity|]. split; [reflexivity|]. split; [reflexivity|].
    change (update (footprints pr) i (fun fp => SetOrientation fp initialOrient)
            = update L i (fun _ => SetOrientation fp0 initialOrient)).
    rewrite Hfr, update_update. apply update_ext. intros fp _. reflexivity.
Qed.

Lemma getOptimalFPPlacement_not_abort (brd : list MODULE) (m : AR_MATRIX) (i : nat)
    (fp : MODULE) :
  (s_error (getOptimalFPPlacement brd m i fp) =? AR_ABORT_PLACEMENT) = false.
Proof.
  destruct (getOptimalFPPlacement_outcome brd m i fp)
    as [[_ ->] | [_ (l1 & best & l2 & _ & _ & -> & _)]]; reflexivity.
Qed.

Lemma tryRotation_not_abort (angle rotAllowed initialOrient : Z) (i : nat) (fp0 : MODULE)
    (e : EVAL) :
  (e_error (tryRotation angle rotAllowed initialOrient i fp0 e) =? AR_ABORT_PLACEMENT) = false.
Proof.
  unfold tryRotation, runSearch. cbn [m_minCost set_minCost set_curPosition].
  destruct (PrimFloat.ltb _ _); cbn [e_error]; apply getOptimalFPPlacement_not_abort.
Qed.

(** The trials of a footprint, without the tests of the abort code, which
    never hold. *)
Lemma evaluateOrientations_trials (p : AR_AUTOPLACER) (i : nat) (fp0 : MODULE) :
  nth_error (footprints p) i = Some fp0 ->
  let s0 := getOptimalFPPlacement (footprints p) (m_matrix p) i fp0 in
  let e0 := mkEval (set_minCost (set_curPosition p (s_lastPosOK s0)) (s_min_cost s0))
                   (s_error s0) (s_min_cost s0) 0 in
  let e1 := if fp_CntRot180 fp0 =? 0 then e0
            else tryRotation 1800 (fp_CntRot180 fp0) (fp_Orient fp0) i fp0 e0 in
  evaluateOrientations p i fp0 =
  if fp_CntRot90 fp0 =? 0 then e1
  else tryRotation 2700 (fp_CntRot90 fp0) (fp_Orient fp0) i fp0
         (tryRotation 900 (fp_CntRot90 fp0) (fp_Orient fp0) i fp0 e1).
Proof.
  intros Hi s0 e0 e1. subst e1 e0.
  unfold evaluateOrientations. unfold runSearch at 1. cbv beta iota zeta.
  rewrite (footprintAt_nth_error p i fp0 Hi). fold s0.
  unfold s0 at 1. rewrite getOptimalFPPlacement_not_abort. fold s0.
  unfold GetPlacementCost180, GetPlacementCost90.
  cbn [m_minCost set_minCost].
  destruct (fp_CntRot180 fp0 =? 0); cbn [negb andb]; cbv iota.
  - destruct (fp_CntRot90 fp0 =? 0); cbn [negb andb]; cbv iota; [reflexivity|].
    rewrite tryRotation_not_abort. reflexivity.
  - rewrite tryRotation_not_abort. cbv iota.
    destruct (fp_CntRot90 fp0 =? 0); cbn [negb andb]; cbv iota; [reflexivity|].
    rewrite tryRotation_not_abort. reflexivity.
Qed.

(** The position [AutoplaceFootprints] commits a footprint at is the one
    the last search of its trials found, whatever rotation the trials keep:
    with quarter turns allowed, the search of the trial of 270 degrees, which
    runs at the orientation the footprint then has plus 2700. *)
Theorem evaluateOrientations_position (p : AR_AUTOPLACER) (i : nat) (fp0 : MODULE) :
  nth_error (footprints p) i = Some fp0 ->
  let e := evaluateOrientations p i fp0 in
  let found o := s_lastPosOK (getOptimalFPPlacement (footprints p) (m_matrix p) i
                                (SetOrientation fp0 o)) in
  let o0 := fp_Orient fp0 in
  (fp_CntRot90 fp0 <> 0 ->
   m_curPosition (e_placer e) = found (o0 + 2700) \/
   m_curPosition (e_placer e) = found (o0 + 900 + 2700) \/
   m_curPosition (e_placer e) = found (o0 + 1800 + 900 + 2700)) /\
  (fp_CntRot90 fp0 = 0 -> fp_CntRot180 fp0 <> 0 ->
   m_curPosition (e_placer e) = found (o0 + 1800)) /\
  (fp_CntRot90 fp0 = 0 -> fp_CntRot180 fp0 = 0 ->
   m_curPosition (e_placer e) = found o0 /\ e_bestRotation e = 0).
Proof.
  intros Hi e found o0. subst e.
  rewrite (evaluateOrientations_trials p i fp0 Hi). cbv zeta.
  set (s0 := getOptimalFPPlacement (footprints p) (m_matrix p) i fp0).
  set (e0 := mkEval (set_minCost (set_curPosition p (s_lastPosOK s0)) (s_min_cost s0))
                    (s_error s0) (s_min_cost s0) 0).
  assert (Hf0 : footprints (e_placer e0)
                = update (footprints p) i (fun _ => SetOrientation fp0 o0)).
  { cbn [e_placer e0].
    change (footprints (set_minCost (set_curPosition p (s_lastPosOK s0)) (s_min_cost s0)))
      with (footprints p).
    unfold o0. rewrite SetOrientation_same. symmetry. apply update_same, Hi. }
  assert (Hs0 : s_lastPosOK s0 = found o0)
    by (unfold found, o0; rewrite SetOrientation_same; reflexivity).
  set (e1 := if fp_CntRot180 fp0 =? 0 then e0
             else tryRotation 1800 (fp_CntRot180 fp0) (fp_Orient fp0) i fp0 e0).
  assert (H1 : m_matrix (e_placer e1) = m_matrix p /\
               ((fp_CntRot180 fp0 = 0 /\ m_curPosition (e_placer e1) = found o0 /\
                 e_bestRotation e1 = 0 /\
                 footprints (e_placer e1)
                 = update (footprints p) i (fun _ => SetOrientation fp0 o0)) \/
                (fp_CntRot180 fp0 <> 0 /\ m_curPosition (e_placer e1) = found (o0 + 1800) /\
                 (footprints (e_placer e1)
                  = update (footprints p) i (fun _ => SetOrientation fp0 o0) \/
                  footprints (e_placer e1)
                  = update (footprints p) i (fun _ => SetOrientation fp0 (o0 + 1800)))))).
  { subst e1. destruct (fp_CntRot180 fp0 =? 0) eqn:E180.
    - apply Z.eqb_eq in E180. split; [reflexivity|]. left.
      split; [exact E180|]. split; [exact Hs0|]. split; [reflexivity | exact Hf0].
    - apply Z.eqb_neq in E180.
      destruct (tryRotation_trace (footprints p) i fp0 o0 1800 (fp_CntRot180 fp0)
                  (fp_Orient fp0) e0 Hi Hf0) as (A & B & C & D).
      split; [rewrite B; reflexivity|]. right.
      split; [exact E180|]. split; [exact A|].
      destruct D as [(_ & _ & _ & D) | (_ & _ & _ & D)]; [right | left]; exact D. }
  destruct H1 as (M1 & C1).
  destruct (fp_CntRot90 fp0 =? 0) eqn:E90.
  - apply Z.eqb_eq in E90. split; [intros H; contradiction|]. split.
    + intros _ H180. destruct C1 as [(H & _) | (_ & Hpos & _)]; [contradiction | exact Hpos].
    + intros _ H180. destruct C1 as [(_ & Hpos & Hrot & _) | (H & _)]; [|contradiction].
      split; assumption.
  - apply Z.eqb_neq in E90.
    split; [|split; intros H; contradiction]. intros _.
    assert (H2 : exists o1,
               (o1 = o0 \/ o1 = o0 + 1800) /\
               footprints (e_placer e1)
               = update (footprints p) i (fun _ => SetOrientation fp0 o1)).
    { destruct C1 as [(_ & _ & _ & F) | (_ & _ & [F | F])].
      - exists o0. split; [left; reflexivity | exact F].
      - exists o0. split; [left; reflexivity | exact F].
      - exists (o0 + 1800). split; [right; reflexivity | exact F]. }
    destruct H2 as (o1 & Ho1 & F1).
    destruct (tryRotation_trace (footprints p) i fp0 o1 900 (fp_CntRot90 fp0)
                (fp_Orient fp0) e1 Hi F1) as (A2 & B2 & C2 & D2).
    set (e2 := tryRotation 900 (fp_CntRot90 fp0) (fp_Orient fp0) i fp0 e1) in *.
    assert (H3 : exists o2,
               (o2 = o0 \/ o2 = o1 + 900) /\
               footprints (e_placer e2)
               = update (footprints p) i (fun _ => SetOrientation fp0 o2)).
    { destruct D2 as [(_ & _ & _ & F) | (_ & _ & _ & F)].
      - exists (o1 + 900). split; [right; reflexivity | exact F].
      - exists o0. split; [left; reflexivity | exact F]. }
    destruct H3 as (o2 & Ho2 & F2).
    destruct (tryRotation_trace (footprints p) i fp0 o2 2700 (fp_CntRot90 fp0)
                (fp_Orient fp0) e2 Hi F2) as (A3 & _).
    rewrite A3, B2, M1. fold (found (o2 + 2700)).
    destruct Ho2 as [-> | ->]; [left; reflexivity|].
    destruct Ho1 as [-> | ->]; [right; left | right; right]; reflexivity.
Qed.

(** On [wideBoard], whose footprint may turn by quarter turns only, the
    position left is the one found by the search of the trial of 270
    degrees. *)
Lemma evaluateOrientations_position_on_wideBoard :
  let e := evaluateOrientations widePrepared 0 wideFp in
  let found o := s_lastPosOK (getOptimalFPPlacement (footprints widePrepared)
                                (m_matrix widePrepared) 0 (SetOrientation wideFp o)) in
  m_curPosition (e_placer e) = found (0 + 2700) \/
  m_curPosition (e_placer e) = found (0 + 900 + 2700) \/
  m_curPosition (e_placer e) = found (0 + 1800 + 900 + 2700).
Proof.
  exact (proj1 (evaluateOrientations_position widePrepared 0 wideFp eq_refl)
               ltac:(discriminate)).
Defined.

(** The cost a search leaves: -1 when no trial position is legal, else a
    cost that is not negative. *)
Lemma getOptimalFPPlacement_cost (brd : list MODULE) (m : AR_MATRIX) (i : nat) (fp : MODULE) :
  let s := getOptimalFPPlacement brd m i fp in
  (existsb (legalAt m fp) (candidates m fp) = false /\ s_min_cost s = (-1)%float) \/
  (existsb (legalAt m fp) (candidates m fp) = true /\ nonnegDouble (s_min_cost s) = true).
Proof.
  destruct (getOptimalFPPlacement_outcome brd m i fp)
    as [[E ->] | [E (l1 & best & l2 & _ & Lb & -> & _)]].
  - left. split; [exact E | reflexivity].
  - right. split; [exact E|]. apply scoreAt_nonneg, Lb.
Qed.

(** The state of the trials of a footprint whose half turn is forbidden and
    whose quarter turn is not, before the trial of 90 degrees. *)
Lemma evaluateOrientations_quarter_trials (p : AR_AUTOPLACER) (i : nat) (fp0 : MODULE) :
  nth_error (footprints p) i = Some fp0 ->
  fp_CntRot180 fp0 = 0 -> fp_CntRot90 fp0 <> 0 ->
  let s0 := getOptimalFPPlacement (footprints p) (m_matrix p) i fp0 in
  let e0 := mkEval (set_minCost (set_curPosition p (s_lastPosOK s0)) (s_min_cost s0))
                   (s_error s0) (s_min_cost s0) 0 in
  evaluateOrientations p i fp0 =
  tryRotation 2700 (fp_CntRot90 fp0) (fp_Orient fp0) i fp0
    (tryRotation 900 (fp_CntRot90 fp0) (fp_Orient fp0) i fp0 e0) /\
  footprints (e_placer e0) = update (footprints p) i (fun _ => SetOrientation fp0 (fp_Orient fp0)) /\
  m_matrix (e_placer e0) = m_matrix p.
Proof.
  intros Hi H180 H90 s0 e0.
  rewrite (evaluateOrientations_trials p i fp0 Hi). cbv zeta. fold s0. fold e0.
  rewrite H180. change (0 =? 0) with true. cbv iota.
  rewrite (proj2 (Z.eqb_neq _ _) H90).
  split; [reflexivity|]. split; [|reflexivity].
  change (footprints (e_placer e0)) with (footprints p).
  rewrite SetOrientation_same. symmetry. apply update_same, Hi.
Qed.

(** The trials of a footprint whose half turn is forbidden and whose quarter
    turn is not.  The trial of 90 degrees runs at the original orientation
    plus 900.  The rotations being incremental, the trial of 270 degrees
    runs at the original orientation plus 2700 only when the trial of 90
    degrees was rejected (the footprint is then back at its orientation);
    after an accepted trial of 90 degrees it runs at the original
    orientation plus 900 plus 2700, a full turn, and when its penalised cost
    is lower still, the rotation kept is 2700. *)
Theorem evaluateOrientations_quarter_turns (p : AR_AUTOPLACER) (i : nat) (fp0 : MODULE) :
  nth_error (footprints p) i = Some fp0 ->
  fp_CntRot180 fp0 = 0 -> fp_CntRot90 fp0 <> 0 ->
  let e := evaluateOrientations p i fp0 in
  let cost o := s_min_cost (getOptimalFPPlacement (footprints p) (m_matrix p) i
                              (SetOrientation fp0 (fp_Orient fp0 + o))) in
  let pen := orientationPenalty (fp_CntRot90 fp0) in
  let c0 := s_min_cost (getOptimalFPPlacement (footprints p) (m_matrix p) i fp0) in
  let c90 := PrimFloat.mul (cost 900) pen in
  let c270 := PrimFloat.mul (cost 2700) pen in
  let c360 := PrimFloat.mul (cost (900 + 2700)) pen in
  (PrimFloat.ltb c90 c0 = true -> PrimFloat.ltb c360 c90 = true ->
   e_bestRotation e = 2700 /\ e_bestScore e = c360) /\
  (PrimFloat.ltb c90 c0 = true -> PrimFloat.ltb c360 c90 = false ->
   e_bestRotation e = 900 /\ e_bestScore e = c90) /\
  (PrimFloat.ltb c90 c0 = false -> PrimFloat.ltb c270 c0 = true ->
   e_bestRotation e = 2700 /\ e_bestScore e = c270) /\
  (PrimFloat.ltb c90 c0 = false -> PrimFloat.ltb c270 c0 = false ->
   e_bestRotation e = 0 /\ e_bestScore e = c0).
Proof.
  intros Hi H180 H90 e cost pen c0 c90 c270 c360. subst e.
  destruct (evaluateOrientations_quarter_trials p i fp0 Hi H180 H90) as (-> & F0 & M0).
  set (e0 := mkEval _ _ _ _) in *.
  destruct (tryRotation_trace (footprints p) i fp0 (fp_Orient fp0) 900 (fp_CntRot90 fp0)
              (fp_Orient fp0) e0 Hi F0) as (_ & M1 & _ & D1).
  set (e1 := tryRotation 900 (fp_CntRot90 fp0) (fp_Orient fp0) i fp0 e0) in *.
  rewrite M0 in D1. fold (cost 900) in D1. fold pen in D1. fold c90 in D1.
  change (e_bestScore e0) with c0 in D1. change (e_bestRotation e0) with 0 in D1.
  destruct D1 as [(G1 & S1 & R1 & F1) | (G1 & S1 & R1 & F1)].
  - destruct (tryRotation_trace (footprints p) i fp0 (fp_Orient fp0 + 900) 2700
                (fp_CntRot90 fp0) (fp_Orient fp0) e1 Hi F1) as (_ & _ & _ & D2).
    rewrite M1, M0 in D2. rewrite <- Z.add_assoc in D2.
    fold (cost (900 + 2700)) in D2. fold pen in D2. fold c360 in D2. rewrite S1, R1 in D2.
    destruct D2 as [(G2 & S2 & R2 & _) | (G2 & S2 & R2 & _)].
    + split; [intros _ _; split; assumption|].
      split; [intros _ H; congruence|].
      split; intros H; congruence.
    + split; [intros _ H; congruence|].
      split; [intros _ _; split; assumption|].
      split; intros H; congruence.
  - destruct (tryRotation_trace (footprints p) i fp0 (fp_Orient fp0) 2700
                (fp_CntRot90 fp0) (fp_Orient fp0) e1 Hi F1) as (_ & _ & _ & D2).
    rewrite M1, M0 in D2.
    fold (cost 2700) in D2. fold pen in D2. fold c270 in D2. rewrite S1, R1 in D2.
    destruct D2 as [(G2 & S2 & R2 & _) | (G2 & S2 & R2 & _)].
    + split; [intros H; congruence|].
      split; [intros H; congruence|].
      split; [intros _ _; split; assumption|].
      intros _ H; congruence.
    + split; [intros H; congruence|].
      split; [intros H; congruence|].
      split; [intros _ H; congruence|].
      intros _ _; split; assumption.
Qed.

(** The penalised cost is a product of doubles: with the cost 85 and the
    penalty 1.4 of the cost class 6 it is below 119, their exact product. *)
Lemma penalised_cost_rounded :
  PrimFloat.ltb (PrimFloat.mul 85%float (orientationPenalty 6)) 119%float = true.
Proof. reflexivity. Qed.

(** On [wideBoard] the decision applies to the footprint to place. *)
Lemma evaluateOrientations_quarter_turns_on_wideBoard :
  let e := evaluateOrientations widePrepared 0 wideFp in
  let cost o := s_min_cost (getOptimalFPPlacement (footprints widePrepared)
                              (m_matrix widePrepared) 0
                              (SetOrientation wideFp (0 + o))) in
  let pen := orientationPenalty 10 in
  let c0 := s_min_cost (getOptimalFPPlacement (footprints widePrepared)
                          (m_matrix widePrepared) 0 wideFp) in
  let c90 := PrimFloat.mul (cost 900) pen in
  let c270 := PrimFloat.mul (cost 2700) pen in
  let c360 := PrimFloat.mul (cost (900 + 2700)) pen in
  (PrimFloat.ltb c90 c0 = true -> PrimFloat.ltb c360 c90 = true ->
   e_bestRotation e = 2700 /\ e_bestScore e = c360) /\
  (PrimFloat.ltb c90 c0 = true -> PrimFloat.ltb c360 c90 = false ->
   e_bestRotation e = 900 /\ e_bestScore e = c90) /\
  (PrimFloat.ltb c90 c0 = false -> PrimFloat.ltb c270 c0 = true ->
   e_bestRotation e = 2700 /\ e_bestScore e = c270) /\
  (PrimFloat.ltb c90 c0 = false -> PrimFloat.ltb c270 c0 = false ->
   e_bestRotation e = 0 /\ e_bestScore e = c0).
Proof.
  exact (evaluateOrientations_quarter_turns widePrepared 0 wideFp eq_refl eq_refl
           ltac:(discriminate)).
Defined.

(** A search that finds no legal position counts as the best of all: when
    the footprint has a legal position as it is and none a quarter turn
    away, its half turn being forbidden and its quarter turn not, the trials
    keep the rotation of 90 degrees, with a negative best score, and the
    footprint is committed a quarter turn away from its orientation. *)
Theorem evaluateOrientations_failed_quarter_turn (sv : AR_SERVICES) (p : AR_AUTOPLACER)
    (i : nat) (fp0 : MODULE) :
  nth_error (footprints p) i = Some fp0 ->
  fp_CntRot180 fp0 = 0 -> fp_CntRot90 fp0 <> 0 ->
  existsb (legalAt (m_matrix p) fp0) (candidates (m_matrix p) fp0) = true ->
  existsb (legalAt (m_matrix p) (SetOrientation fp0 (fp_Orient fp0 + 900)))
          (candidates (m_matrix p) (SetOrientation fp0 (fp_Orient fp0 + 900))) = false ->
  let e := evaluateOrientations p i fp0 in
  e_bestRotation e = 900 /\ PrimFloat.ltb (e_bestScore e) 0%float = true /\
  exists fp', nth_error (footprints (commitPlacement sv e i fp0)) i = Some fp' /\
              fp_Orient fp' = 900 + fp_Orient fp0 /\ fp_IsPlaced fp' = true.
Proof.
  intros Hi H180 H90 L0 L90 e.
  assert (Hrot : e_bestRotation e = 900 /\ PrimFloat.ltb (e_bestScore e) 0%float = true).
  { subst e.
    destruct (evaluateOrientations_quarter_trials p i fp0 Hi H180 H90) as (-> & F0 & M0).
    set (e0 := mkEval _ _ _ _) in *.
    destruct (orientationPenalty_positive (fp_CntRot90 fp0)) as [Hpen Hneg].
    assert (C0 : nonnegDouble (e_bestScore e0) = true).
    { cbn [e_bestScore e0].
      destruct (getOptimalFPPlacement_cost (footprints p) (m_matrix p) i fp0)
        as [[E _] | [_ E]]; [congruence | exact E]. }
    destruct (tryRotation_trace (footprints p) i fp0 (fp_Orient fp0) 900 (fp_CntRot90 fp0)
                (fp_Orient fp0) e0 Hi F0) as (_ & M1 & _ & D1).
    set (e1 := tryRotation 900 (fp_CntRot90 fp0) (fp_Orient fp0) i fp0 e0) in *.
    rewrite M0 in D1.
    destruct (getOptimalFPPlacement_cost (footprints p) (m_matrix p) i
                (SetOrientation fp0 (fp_Orient fp0 + 900))) as [[_ E1] | [E1 _]];
      [|congruence].
    rewrite E1 in D1.
    destruct D1 as [(_ & S1 & R1 & F1) | (G1 & _)];
      [|rewrite (nonnegDouble_above_negative _ _ Hneg C0) in G1; discriminate].
    destruct (tryRotation_trace (footprints p) i fp0 (fp_Orient fp0 + 900) 2700
                (fp_CntRot90 fp0) (fp_Orient fp0) e1 Hi F1) as (_ & _ & _ & D2).
    rewrite S1, R1 in D2.
    destruct D2 as [(G2 & _) | (_ & S2 & R2 & _)].
    - exfalso.
      destruct (getOptimalFPPlacement_cost (footprints p) (m_matrix (e_placer e1)) i
                  (SetOrientation fp0 (fp_Orient fp0 + 900 + 2700))) as [[_ E2] | [_ E2]].
      + rewrite E2, double_ltb_irrefl in G2. discriminate.
      + pose proof (nonnegDouble_mul _ _ E2 Hpen) as Hnn.
        pose proof (double_ltb_trans _ _ _ G2 Hneg) as Hlt.
        rewrite (nonnegDouble_not_negative _ Hnn) in Hlt. discriminate.
    - split; [exact R2|]. rewrite S2. exact Hneg. }
  destruct Hrot as [Hr Hs]. split; [exact Hr|]. split; [exact Hs|].
  destruct (evaluateOrientations_outcome p i fp0 Hi) as (Hro & _ & _). fold e in Hro.
  destruct (commitPlacement_outcome sv p i fp0 e Hi Hro) as (Hf & _).
  rewrite Hf, nth_error_update, Nat.eqb_refl, Hi, Hr. cbn [option_map].
  eexists. split; [reflexivity|]. split; reflexivity.
Qed.

(** On [wideBoard] the footprint of 6 mm x 1 mm fits the board of 8 mm x
    4 mm as it is and has no trial position a quarter turn away: it is
    committed a quarter turn away. *)
Lemma evaluateOrientations_failed_quarter_turn_on_wideBoard :
  let e := evaluateOrientations widePrepared 0 wideFp in
  e_bestRotation e = 900 /\ PrimFloat.ltb (e_bestScore e) 0%float = true /\
  exists fp', nth_error (footprints (commitPlacement bareServices e 0 wideFp)) 0 = Some fp' /\
              fp_Orient fp' = 900 + fp_Orient wideFp /\ fp_IsPlaced fp' = true.
Proof.
  exact (evaluateOrientations_failed_quarter_turn bareServices widePrepared 0 wideFp
           eq_refl eq_refl ltac:(discriminate) eq_refl eq_refl).
Defined.

(** What one trial does to the best score and the rotation kept. *)
Lemma tryRotation_score (angle rotAllowed initialOrient : Z) (i : nat) (fp0 : MODULE)
    (e : EVAL) :
  let e' := tryRotation angle rotAllowed initialOrient i fp0 e in
  (PrimFloat.ltb (e_bestScore e') (e_bestScore e) = true /\ e_bestRotation e' = angle) \/
  (e_bestScore e' = e_bestScore e /\ e_bestRotation e' = e_bestRotation e).
Proof.
  unfold tryRotation, runSearch. cbn [m_minCost set_minCost set_curPosition].
  match goal with |- context [if ?b then _ else _] => destruct b eqn:H end;
    cbn [e_bestScore e_bestRotation].
  - left. split; [exact H | reflexivity].
  - right. split; reflexivity.
Qed.

(** A rotation is kept only if its trial brought the best score strictly
    below the cost found at the original orientation: the best score of the
    trials is never above that cost, and it equals that cost exactly when
    the footprint keeps its orientation. *)
Theorem evaluateOrientations_strictly_better (p : AR_AUTOPLACER) (i : nat) (fp0 : MODULE) :
  nth_error (footprints p) i = Some fp0 ->
  let e := evaluateOrientations p i fp0 in
  let c0 := s_min_cost (getOptimalFPPlacement (footprints p) (m_matrix p) i fp0) in
  PrimFloat.leb (e_bestScore e) c0 = true /\ (e_bestRotation e = 0 <-> e_bestScore e = c0).
Proof.
  intros Hi e c0.
  assert (J : (e_bestRotation e = 0 /\ e_bestScore e = c0) \/
              (e_bestRotation e <> 0 /\ PrimFloat.ltb (e_bestScore e) c0 = true)).
  { subst e. rewrite (evaluateOrientations_trials p i fp0 Hi). cbv zeta.
    set (e0 := mkEval _ _ _ _).
    assert (J0 : (e_bestRotation e0 = 0 /\ e_bestScore e0 = c0) \/
                 (e_bestRotation e0 <> 0 /\ PrimFloat.ltb (e_bestScore e0) c0 = true))
      by (left; split; reflexivity).
    assert (Step : forall angle rotAllowed e1,
               angle <> 0 ->
               (e_bestRotation e1 = 0 /\ e_bestScore e1 = c0) \/
               (e_bestRotation e1 <> 0 /\ PrimFloat.ltb (e_bestScore e1) c0 = true) ->
               let e2 := tryRotation angle rotAllowed (fp_Orient fp0) i fp0 e1 in
               (e_bestRotation e2 = 0 /\ e_bestScore e2 = c0) \/
               (e_bestRotation e2 <> 0 /\ PrimFloat.ltb (e_bestScore e2) c0 = true)).
    { intros angle rotAllowed e1 Ha J1 e2.
      destruct (tryRotation_score angle rotAllowed (fp_Orient fp0) i fp0 e1)
        as [[S R] | [S R]]; fold e2 in S, R.
      - right. rewrite R. split; [exact Ha|]. destruct J1 as [[_ E] | [_ E]].
        + rewrite <- E. exact S.
        + exact (double_ltb_trans _ _ _ S E).
      - rewrite S, R. exact J1. }
    set (e1 := if fp_CntRot180 fp0 =? 0 then e0 else _).
    assert (J1 : (e_bestRotation e1 = 0 /\ e_bestScore e1 = c0) \/
                 (e_bestRotation e1 <> 0 /\ PrimFloat.ltb (e_bestScore e1) c0 = true)).
    { subst e1. destruct (fp_CntRot180 fp0 =? 0); [exact J0|].
      apply Step; [discriminate | exact J0]. }
    destruct (fp_CntRot90 fp0 =? 0); [exact J1|].
    apply Step; [discriminate|]. apply Step; [discriminate | exact J1]. }
  destruct J as [[R S] | [R S]].
  - split; [|split; intros _; assumption].
    rewrite S. unfold c0.
    destruct (getOptimalFPPlacement_cost (footprints p) (m_matrix p) i fp0)
      as [[_ ->] | [_ E]]; [reflexivity | apply double_leb_refl, E].
  - split; [apply double_ltb_leb, S|].
    split; [intros H; contradiction|].
    intros H. rewrite H, double_ltb_irrefl in S. discriminate.
Qed.

(** On [wideBoard]. *)
Lemma evaluateOrientations_strictly_better_on_wideBoard :
  let e := evaluateOrientations widePrepared 0 wideFp in
  let c0 := s_min_cost (getOptimalFPPlacement (footprints widePrepared)
                          (m_matrix widePrepared) 0 wideFp) in
  PrimFloat.leb (e_bestScore e) c0 = true /\ (e_bestRotation e = 0 <-> e_bestScore e = c0).
Proof. exact (evaluateOrientations_strictly_better widePrepared 0 wideFp eq_refl). Defined.

(** ** The preparation of the run, further: the worklist *)

Lemma flagForPlacement_commit (l : list nat) :
  forall p, m_commit (flagForPlacement p l) = m_commit p ++ l.
Proof.
  unfold flagForPlacement. induction l as [|i l IH]; intros p; simpl.
  - rewrite app_nil_r. reflexivity.
  - rewrite IH. simpl. rewrite <- app_assoc. reflexivity.
Qed.

(** Once a list is flagged, the footprints that need to be placed are those
    of the list and those that needed it before. *)
Lemma flagged_iff (l : list nat) :
  forall fps i fp,
    nth_error (fold_left (fun fps i => update fps i (fun fp => SetNeedsPlaced fp true)) l fps) i
    = Some fp ->
    (fp_NeedsPlaced fp = true <->
     In i l \/ (exists fp0, nth_error fps i = Some fp0 /\ fp_NeedsPlaced fp0 = true)).
Proof.
  intros fps i fp Hi. split; [|apply (flagged_needsPlaced l fps i fp Hi)].
  revert fps Hi. induction l as [|k l IH]; intros fps Hi Hn; simpl in Hi.
  - right. exists fp. split; assumption.
  - destruct (IH _ Hi Hn) as [Hin | (fp1 & H1 & Hn1)].
    + left. right. exact Hin.
    + rewrite nth_error_update in H1. destruct (Nat.eqb i k) eqn:Eik.
      * apply Nat.eqb_eq in Eik. left. left. congruence.
      * right. exists fp1. split; assumption.
Qed.

Lemma indexed_filter_In {A : Type} (f : A -> bool) (l : list A) (i : nat) :
  In i (map fst (filter (fun ix => f (snd ix)) (indexed l))) <->
  exists x, nth_error l i = Some x /\ f x = true.
Proof.
  rewrite in_map_iff. split.
  - intros ([j x] & <- & H). apply filter_In in H. destruct H as [H1 H2].
    apply indexed_In in H1. exists x. split; assumption.
  - intros (x & H1 & H2). exists (i, x). split; [reflexivity|].
    apply filter_In. split; [apply indexed_In, H1 | exact H2].
Qed.

Lemma prepareRun_worklist_cases (sv : AR_SERVICES) (p : AR_AUTOPLACER)
    (aFootprints : list nat) (aPlaceOffboardModules : bool) :
  let q := prepareRun sv p aFootprints aPlaceOffboardModules in
  let outside i :=
    exists fp, nth_error (footprints p) i = Some fp /\
               Contains (m_BrdBox (m_matrix p)) (fp_Pos fp) = false in
  (exists offboardMods,
     m_commit q = m_commit p ++ aFootprints ++ offboardMods /\
     forall i, In i offboardMods <-> aPlaceOffboardModules = true /\ outside i) /\
  (forall i fp', nth_error (footprints q) i = Some fp' ->
     (fp_NeedsPlaced fp' = true <->
      In i aFootprints \/ (aPlaceOffboardModules = true /\ outside i))).
Proof.
  intros q outside. subst q. unfold prepareRun.
  set (p0 := set_board p _).
  set (off := if aPlaceOffboardModules then _ else _).
  assert (Hoff : forall i, In i off <-> aPlaceOffboardModules = true /\ outside i).
  { intros i. subst off. destruct aPlaceOffboardModules.
    - rewrite (indexed_filter_In
                 (fun fp => negb (Contains (m_BrdBox (m_matrix p0)) (fp_Pos fp)))).
      change (m_matrix p0) with (m_matrix p).
      change (footprints p0) with (map (fun fp => SetNeedsPlaced fp false) (footprints p)).
      unfold outside. split.
      + intros (x & H1 & H2). rewrite nth_error_map in H1.
        destruct (nth_error (footprints p) i) as [fp|]; [|discriminate].
        injection H1 as <-. split; [reflexivity|]. exists fp. split; [reflexivity|].
        apply negb_true_iff in H2. exact H2.
      + intros (_ & fp & H1 & H2). exists (SetNeedsPlaced fp false).
        rewrite nth_error_map, H1. split; [reflexivity|].
        apply negb_true_iff. exact H2.
    - split; [intros [] | intros [H _]; discriminate]. }
  split.
  - exists off. split; [|exact Hoff].
    change (m_commit (set_matrix ?a ?b)) with (m_commit a).
    rewrite !flagForPlacement_commit, <- app_assoc. reflexivity.
  - intros i fp'. change (footprints (set_matrix ?a ?b)) with (footprints a).
    rewrite footprints_flagForPlacement. intros Hi.
    rewrite (flagged_iff off _ i fp' Hi), Hoff. split.
    + intros [H | (fp1 & H1 & Hn1)]; [right; exact H|].
      rewrite footprints_flagForPlacement in H1.
      apply (flagged_iff aFootprints _ i fp1 H1) in Hn1.
      destruct Hn1 as [H | (fp2 & H2 & Hn2)]; [left; exact H|].
      exfalso.
      change (footprints p0) with (map (fun fp => SetNeedsPlaced fp false) (footprints p)) in H2.
      rewrite nth_error_map in H2.
      destruct (nth_error (footprints p) i); [|discriminate].
      injection H2 as <-. discriminate.
    + intros [H | H]; [|left; exact H].
      destruct (nth_error (footprints (flagForPlacement p0 aFootprints)) i) as [fp1|] eqn:E1.
      * right. exists fp1. split; [reflexivity|].
        rewrite footprints_flagForPlacement in E1.
        apply (flagged_needsPlaced _ _ _ _ E1). left. exact H.
      * exfalso. rewrite flagged_none in Hi; [discriminate | exact E1].
Qed.

(** The preparation of a run (lines 899-923): the footprints recorded in the
    commit are the worklist followed, when asked for, by the footprints
    whose position lies outside the box of the matrix; and the footprints
    that need to be placed when the loop starts are those, and no other,
    whatever their flag was before. *)
Theorem prepareRun_worklist (sv : AR_SERVICES) (p : AR_AUTOPLACER)
    (aFootprints : list nat) (aPlaceOffboardModules : bool) :
  let q := prepareRun sv p aFootprints aPlaceOffboardModules in
  let outside i :=
    exists fp, nth_error (footprints p) i = Some fp /\
               Contains (m_BrdBox (m_matrix p)) (fp_Pos fp) = false in
  (exists offboardMods,
     m_commit q = m_commit p ++ aFootprints ++ offboardMods /\
     forall i, In i offboardMods <-> aPlaceOffboardModules = true /\ outside i) /\
  (forall i fp', nth_error (footprints q) i = Some fp' ->
     (fp_NeedsPlaced fp' = true <->
      In i aFootprints \/ (aPlaceOffboardModules = true /\ outside i))).
Proof. apply prepareRun_worklist_cases. Qed.

(** The loop records nothing in the commit. *)
Lemma placeLoop_commit (sv : AR_SERVICES) (fuel : nat) :
  forall (p : AR_AUTOPLACER) (cnt : nat) (cancelled : bool) (p' : AR_AUTOPLACER),
    placeLoop sv fuel p cnt = Some (cancelled, p') -> m_commit p' = m_commit p.
Proof.
  induction fuel as [|fuel IH]; intros p cnt cancelled p' E; [discriminate|].
  cbn [placeLoop] in E. destruct (pickFootprint_outcome sv p) as [Hsame Hpick].
  assert (Hc1 : m_commit (snd (pickFootprint sv p)) = m_commit p) by apply Hsame.
  destruct (pickFootprint sv p) as [[i|] p1]; simpl in Hsame, Hpick, Hc1.
  2:{ injection E as _ <-. exact Hc1. }
  destruct (Hpick i eq_refl) as (fp0 & Hi & Hn). rewrite Hi in E.
  destruct (iteration_outcome sv p1 i fp0 Hi Hn) as (Hab & _ & _ & _).
  cbv zeta in E. rewrite Hab in E.
  destruct (evaluateOrientations_outcome p1 i fp0 Hi) as (Hr & _ & _).
  destruct (commitPlacement_outcome sv p1 i fp0 _ Hi Hr) as (_ & _ & Hc).
  destruct (m_progressReporter (commitPlacement sv (evaluateOrientations p1 i fp0) i fp0))
    as [keep|].
  - destruct (keep cnt); simpl in E.
    + rewrite (IH _ _ _ _ E). congruence.
    + injection E as _ <-. congruence.
  - rewrite (IH _ _ _ _ E). congruence.
Qed.

(** Whatever a run moves, turns or marks placed, it has recorded in the
    commit first: a footprint whose position, orientation or placed mark
    differs after the run is among the footprints passed to
    [aCommit->Modify], it is marked placed, and without the option to place
    the footprints outside the board it is a footprint of the worklist. *)
Theorem AutoplaceFootprints_changes_recorded (sv : AR_SERVICES) (p : AR_AUTOPLACER)
    (aFootprints : list nat) (aPlaceOffboardModules : bool) (r : AR_RESULT)
    (p' : AR_AUTOPLACER) (j : nat) (fp0 fp' : MODULE) :
  AutoplaceFootprints sv p aFootprints aPlaceOffboardModules = Some (r, p') ->
  nth_error (footprints p) j = Some fp0 ->
  nth_error (footprints p') j = Some fp' ->
  fp_Pos fp' <> fp_Pos fp0 \/ fp_Orient fp' <> fp_Orient fp0 \/
  fp_IsPlaced fp' <> fp_IsPlaced fp0 ->
  In j (m_commit p') /\ fp_IsPlaced fp' = true /\ fp_NeedsPlaced fp' = false /\
  (aPlaceOffboardModules = false -> In j aFootprints).
Proof.
  intros E Hj Hj' Hchange. unfold AutoplaceFootprints in E.
  set (g := if m_gridSize p <? Millimeter2iu_quarter sv then _ else _) in E.
  set (p0 := set_matrix p (set_GridRouting (m_matrix p) g)) in E.
  destruct (genPlacementRoutingMatrix_outcome sv p0) as (Hb & _).
  destruct (genPlacementRoutingMatrix sv p0) as [built p1]. simpl in Hb.
  assert (Hf1 : footprints p1 = footprints p) by (unfold footprints; rewrite Hb; reflexivity).
  destruct (built =? 0).
  { exfalso. injection E as _ <-. rewrite Hf1, Hj in Hj'. injection Hj' as <-.
    destruct Hchange as [H | [H | H]]; apply H; reflexivity. }
  destruct (prepareRun_outcome sv p1 aFootprints aPlaceOffboardModules) as (Hp & _).
  destruct (prepareRun_worklist_cases sv p1 aFootprints aPlaceOffboardModules)
    as ((off & Hcom & Hoff) & Hflags).
  set (p2 := prepareRun sv p1 aFootprints aPlaceOffboardModules) in *.
  destruct (placeLoop sv (S (length (footprints p2))) p2 0) as [[cancelled p3]|] eqn:El;
    [|discriminate].
  injection E as _ <-.
  change (footprints (set_matrix ?a ?b)) with (footprints a) in Hj'.
  change (footprints (set_curPosition ?a ?b)) with (footprints a) in Hj'.
  change (m_commit (set_matrix ?a ?b)) with (m_commit a).
  change (m_commit (set_curPosition ?a ?b)) with (m_commit a).
  rewrite (placeLoop_commit sv _ _ _ _ _ El), Hcom.
  rewrite <- Hf1 in Hj.
  destruct (Forall2_nth_error samePose _ _ j fp0 Hp Hj) as (fp2 & Hj2 & Hpose).
  destruct (Forall2_nth_error loopStep _ _ j fp2 (placeLoop_steps sv _ _ _ _ _ El) Hj2)
    as (fp3 & Hj3 & Hstep).
  rewrite Hj' in Hj3. injection Hj3 as <-.
  destruct (samePose_fields fp0 fp2 Hpose) as (P1 & P2 & P3 & _).
  destruct Hstep as [Hsame | (Hn & d & pos & _ & Hsame)].
  - exfalso. destruct (upToFlag_fields fp2 fp' Hsame) as (Q1 & Q2 & _ & Q3 & _).
    destruct Hchange as [H | [H | H]]; apply H; congruence.
  - destruct (upToFlag_fields _ fp' Hsame) as (_ & _ & Q3 & Q4 & _).
    apply (Hflags j fp2 Hj2) in Hn.
    split; [|split; [rewrite Q4; reflexivity | split; [rewrite Q3; reflexivity|]]].
    + apply in_or_app. right. apply in_or_app.
      destruct Hn as [H | H]; [left; exact H | right; apply Hoff, H].
    + intros Hb0. destruct Hn as [H | [H _]]; [exact H | congruence].
Qed.

Lemma smallBoard_run_placed :
  exists p' fp',
    AutoplaceFootprints bareServices (placerOn smallBoard) [0%nat] false
    = Some (AR_COMPLETED, p') /\
    nth_error (footprints p') 0 = Some fp' /\ fp_IsPlaced fp' = true.
Proof.
  destruct smallBoard_run as (p' & fp' & E & Hj). exists p', fp'.
  split; [exact E|]. split; [exact Hj|].
  assert (H : option_map (fun r => map fp_IsPlaced (footprints (snd r)))
                (AutoplaceFootprints bareServices (placerOn smallBoard) [0%nat] false)
              = Some [true]) by (vm_compute; reflexivity).
  rewrite E in H. simpl in H. injection H as H.
  destruct (footprints p') as [|x l]; [discriminate|].
  simpl in Hj. injection Hj as <-. simpl in H. injection H as H _. exact H.
Qed.

(** On [smallBoard] the footprint the run marks placed is recorded in the
    commit. *)
Lemma AutoplaceFootprints_changes_recorded_on_smallBoard :
  exists p',
    AutoplaceFootprints bareServices (placerOn smallBoard) [0%nat] false
    = Some (AR_COMPLETED, p') /\ In 0%nat (m_commit p').
Proof.
  destruct smallBoard_run_placed as (p' & fp' & E & Hj & Hp). exists p'.
  split; [exact E|].
  refine (proj1 (AutoplaceFootprints_changes_recorded bareServices (placerOn smallBoard)
                   [0%nat] false AR_COMPLETED p' 0 (boxFp 10000000 10000000 0 0) fp'
                   E eq_refl Hj (or_intror (or_intror _)))).
  rewrite Hp. discriminate.
Defined.

(** ** The run, further: what it may do to a footprint *)

(** The orientation a run sets for a footprint is the one it had plus 0,
    900, 1800 or 2700 tenths of a degree, a half turn only when its
    180-degree cost class is not 0 and a quarter turn only when its
    90-degree cost class is not 0; the run changes neither its side, its
    shape nor its cost classes, and the board keeps its number of
    footprints. *)
Theorem AutoplaceFootprints_rotation_allowed (sv : AR_SERVICES) (p : AR_AUTOPLACER)
    (aFootprints : list nat) (aPlaceOffboardModules : bool) (r : AR_RESULT)
    (p' : AR_AUTOPLACER) (j : nat) (fp0 : MODULE) :
  AutoplaceFootprints sv p aFootprints aPlaceOffboardModules = Some (r, p') ->
  nth_error (footprints p) j = Some fp0 ->
  length (footprints p') = length (footprints p) /\
  exists fp',
    nth_error (footprints p') j = Some fp' /\
    allowedRotation fp0 (fp_Orient fp' - fp_Orient fp0) /\
    fp_Layer fp' = fp_Layer fp0 /\ fp_Shape fp' = fp_Shape fp0 /\
    fp_CntRot90 fp' = fp_CntRot90 fp0 /\ fp_CntRot180 fp' = fp_CntRot180 fp0.
Proof.
  intros E Hj.
  destruct (AutoplaceFootprints_outcome sv p aFootprints aPlaceOffboardModules)
    as (r0 & p0' & E0 & Hcases).
  rewrite E in E0. injection E0 as <- <-.
  assert (Hzero : allowedRotation fp0 (fp_Orient fp0 - fp_Orient fp0))
    by (left; lia).
  destruct Hcases as [(_ & _ & Hb & _) | (_ & _ & _ & Hsteps)].
  - unfold footprints in *. rewrite Hb. split; [reflexivity|].
    exists fp0. split; [exact Hj|]. split; [exact Hzero|]. repeat split.
  - split; [symmetry; eapply Forall2_length; exact Hsteps|].
    destruct (Forall2_nth_error runStep _ _ j fp0 Hsteps Hj) as (fp' & Hj' & Hstep).
    exists fp'. split; [exact Hj'|].
    destruct Hstep as [Hsame | (d & pos & Hd & Hsame)].
    + unfold samePose, SetNeedsPlaced, SetFlag in Hsame. simpl in Hsame.
      injection Hsame as E1 E2 E3 E4 E5 E6 E7.
      rewrite E2. split; [exact Hzero|]. repeat split; assumption.
    + unfold samePose, committed, SetNeedsPlaced, SetFlag, SetIsPlaced, SetPosition,
        SetOrientation in Hsame. simpl in Hsame.
      injection Hsame as E1 E2 E3 E4 E5 E6 E7.
      rewrite E2. replace (d + fp_Orient fp0 - fp_Orient fp0) with d by ring.
      split; [exact Hd|]. repeat split; assumption.
Qed.

(** On [smallBoard]. *)
Lemma AutoplaceFootprints_rotation_allowed_on_smallBoard :
  exists p',
    AutoplaceFootprints bareServices (placerOn smallBoard) [0%nat] false
    = Some (AR_COMPLETED, p') /\
    length (footprints p') = 1%nat.
Proof.
  destruct smallBoard_run as (p' & fp' & E & _). exists p'. split; [exact E|].
  exact (proj1 (AutoplaceFootprints_rotation_allowed bareServices (placerOn smallBoard)
                  [0%nat] false AR_COMPLETED p' 0 (boxFp 10000000 10000000 0 0)
                  E eq_refl)).
Defined.
